(** * nnunetv2/model_sharing/onnx_export.py : export_onnx_model

    A shallow embedding of the ONNX export routine of nnU-Net v2 and the
    properties of its output layout, its error behaviour and the order of
    its steps.

    The routine is sequential glue code around third-party libraries
    (torch, onnx, onnxruntime, the nnU-Net predictor).  The embedding keeps
    the control flow of the Python function statement by statement; the
    libraries are an interface ([Libs]) whose operations may return or
    raise, and every call made to them is recorded, in program order, in a
    trace of events.  The file system is a tree of directories and files.

    Conventions of the model:
    - a path is the list of its components below a common root; the names
      joined onto a path (configuration names, "fold_k", file names) are
      single components, which is what [Path.__truediv__] does for a name
      that is not empty, has no separator and is neither "." nor "..";
      the statements about where a run writes assume such names
      ([plain_args]);
    - an exception that escapes from a call into a library keeps its class
      and is tagged with the callee it comes from ([LibraryError]); the
      exceptions raised by the statements of the function itself, and by
      the file system, are not tagged. *)

From stdpp Require Import base option list strings gmap pretty.
From Stdlib Require Import ZArith.

Set Default Proof Using "Type".
Set Warnings "-register-all".

(* ================================================================== *)
(** ** Python values *)

(** [Union[int, str]]: dataset ids and fold identifiers (a fold may be an
    integer or the string "all"). *)
Inductive int_or_str :=
| PyInt (z : Z)
| PyStr (s : string).

(** [str(x)], the conversion an f-string applies. *)
Definition py_str (x : int_or_str) : string :=
  match x with
  | PyInt z => pretty z
  | PyStr s => s
  end.

(** A parsed JSON document, as [json.load] returns it: objects are dicts in
    insertion order.  A float is kept as its literal. *)
Inductive json :=
| JNull
| JBool (b : bool)
| JInt (z : Z)
| JFloat (literal : string)
| JStr (s : string)
| JArr (items : list json)
| JObj (members : list (string * json)).

Definition dict := list (string * json).

Fixpoint dict_get (k : string) (d : dict) : option json :=
  match d with
  | [] => None
  | (k', v) :: d' => if String.eqb k k' then Some v else dict_get k d'
  end.

(** [d[k] = v]: an existing key keeps its position, a new key goes last. *)
Fixpoint dict_set (k : string) (v : json) (d : dict) : dict :=
  match d with
  | [] => [(k, v)]
  | (k', v') :: d' =>
      if String.eqb k k' then (k, v) :: d' else (k', v') :: dict_set k v d'
  end.

Definition dict_keys (d : dict) : list string := d.*1.

(* ================================================================== *)
(** ** Exceptions and results *)

Definition path := list string.

(** [p / name] of pathlib and [join(p, name)] of os.path, for a [name]
    that is one plain component: the two joins append exactly [name] to
    [p] when it is not empty, is not "." or "..", and has no separator
    (POSIX paths).  Any other operand is split at its separators, drops
    its empty and "." parts, keeps its ".." parts, and replaces [p] when
    it is absolute; the statements about where a run writes are made for
    plain names ([plain_args] below). *)
Definition joinpath (p : path) (name : string) : path := p ++ [name].

Fixpoint has_separator (s : string) : bool :=
  match s with
  | EmptyString => false
  | String ch s' => String.eqb (String ch "") "/" || has_separator s'
  end.

Definition plain_name (s : string) : bool :=
  negb (String.eqb s "") && negb (String.eqb s ".")
  && negb (String.eqb s "..") && negb (has_separator s).

Definition path_str (p : path) : string := String.concat "/" p.

Inductive exn :=
| ValueError (msg : string)
| RuntimeError (msg : string)
| KeyError (key : string)
| TypeError (msg : string)
| AttributeError (msg : string)
| IndexError (msg : string)
| FileNotFoundError (p : path)
| NotADirectoryError (p : path)
| IsADirectoryError (p : path)
| FileExistsError (p : path)
| JSONDecodeError (p : path)
| OtherError (class msg : string)
| LibraryError (callee : string) (e : exn).

(** [isinstance(e, ValueError)]: [json.JSONDecodeError] is a subclass of
    [ValueError], and a library may raise any exception. *)
Fixpoint is_value_error (e : exn) : bool :=
  match e with
  | ValueError _ | JSONDecodeError _ => true
  | LibraryError _ e' => is_value_error e'
  | _ => false
  end.

Inductive result (A : Type) :=
| Ok (a : A)
| Err (e : exn).
Arguments Ok {A} a.
Arguments Err {A} e.

Definition rbind {A B} (r : result A) (k : A → result B) : result B :=
  match r with
  | Ok a => k a
  | Err e => Err e
  end.

Definition is_ok {A} (r : result A) : bool :=
  match r with Ok _ => true | Err _ => false end.

(** What a call into a library does: it returns, or it raises. *)
Inductive outcome (A : Type) :=
| Returns (a : A)
| Raises (e : exn).
Arguments Returns {A} a.
Arguments Raises {A} e.

(** [ConfigurationManager]: the attributes the export reads. *)
Record ConfigurationManager := {
  patch_size : list Z;
  spacing : json;
  normalization_schemes : json;
  UNet_class_name : json;
  UNet_base_num_features : json;
  unet_max_num_features : json;
  conv_kernel_sizes : json;
  pool_op_kernel_sizes : json;
  num_pool_per_axis : json;
}.

(** The types of the tensor libraries. *)
Class TorchTypes := {
  Tensor : Type;
  Network : Type;
  StateDict : Type;
  OnnxBytes : Type;
  ModelProto : Type;
  InferenceSession : Type;
}.

(** [np.testing.assert_allclose]: passes, raises [AssertionError], or
    raises something else. *)
Inductive allclose :=
| Close
| NotClose (report : string)
| CompareRaises (e : exn).

(* ================================================================== *)
(** ** The file system *)

Section FileSystem.
Context `{TorchTypes}.

Inductive content :=
| Text (s : string)
| JsonDoc (j : json)
| OnnxFile (b : OnnxBytes).

Inductive node :=
| File (c : content)
| Dir (entries : gmap string node).

Fixpoint lookup_path (n : node) (p : path) : option node :=
  match p with
  | [] => Some n
  | x :: p' =>
      match n with
      | Dir es => match es !! x with
                  | Some n' => lookup_path n' p'
                  | None => None
                  end
      | File _ => None
      end
  end.

(** [Path.exists()] and [os.path.isdir]. *)
Definition exists_ (n : node) (p : path) : bool :=
  match lookup_path n p with Some _ => true | None => false end.

Definition isdir (n : node) (p : path) : bool :=
  match lookup_path n p with Some (Dir _) => true | _ => false end.

(** [list(p.iterdir())]: the names of the entries of a directory. *)
Definition iterdir (n : node) (p : path) : result (list string) :=
  match lookup_path n p with
  | Some (Dir es) => Ok (map_to_list es).*1
  | Some (File _) => Err (NotADirectoryError p)
  | None => Err (FileNotFoundError p)
  end.

(** A chain of fresh directories [x1/x2/.../xn] below a new entry. *)
Fixpoint fresh_dirs (p : path) : node :=
  match p with
  | [] => Dir ∅
  | x :: p' => Dir {[ x := fresh_dirs p' ]}
  end.

(** [p.mkdir(parents=True)]: creates [p] and its missing ancestors; [p]
    itself must not exist. *)
Fixpoint mkdir_from (full : path) (n : node) (p : path) : result node :=
  match p with
  | [] => Err (FileExistsError full)
  | x :: p' =>
      match n with
      | File _ => Err (NotADirectoryError full)
      | Dir es =>
          match es !! x with
          | Some n' =>
              rbind (mkdir_from full n' p') (λ n'', Ok (Dir (<[x := n'']> es)))
          | None => Ok (Dir (<[x := fresh_dirs p']> es))
          end
      end
  end.

Definition mkdir_parents (n : node) (p : path) : result node :=
  mkdir_from p n p.

(** Creating or truncating the file [p] with content [c]: the parent
    must be a directory and [p] must not be one. *)
Fixpoint write_from (full : path) (n : node) (p : path) (c : content)
  : result node :=
  match p with
  | [] => Err (IsADirectoryError full)
  | x :: p' =>
      match n with
      | File _ => Err (NotADirectoryError full)
      | Dir es =>
          match p' with
          | [] =>
              match es !! x with
              | Some (Dir _) => Err (IsADirectoryError full)
              | _ => Ok (Dir (<[x := File c]> es))
              end
          | _ :: _ =>
              match es !! x with
              | Some n' =>
                  rbind (write_from full n' p' c)
                        (λ n'', Ok (Dir (<[x := n'']> es)))
              | None => Err (FileNotFoundError full)
              end
          end
      end
  end.

Definition write_file (n : node) (p : path) (c : content) : result node :=
  write_from p n p c.

(** Opening [p] for reading. *)
Definition read_file (n : node) (p : path) : result content :=
  match lookup_path n p with
  | Some (File c) => Ok c
  | Some (Dir _) => Err (IsADirectoryError p)
  | None => Err (FileNotFoundError p)
  end.

(** [load_json] of batchgenerators: open, then [json.load]. *)
Definition load_json_from (n : node) (p : path) : result json :=
  rbind (read_file n p) (λ c,
    match c with
    | JsonDoc j => Ok j
    | _ => Err (JSONDecodeError p)
    end).
End FileSystem.

(* ================================================================== *)
(** ** The world, the trace and the monad of the routine *)

Section World.
Context `{TorchTypes}.

(** One event per call that leaves the function, recorded when the call
    is made (so also when it raises). *)
Inductive event :=
| EvPrint (s : string)
| EvDatasetName (x : int_or_str)
| EvOutputFolder (dataset trainer plans configuration : string)
| EvLoadJson (p : path)
| EvNewPredictor
| EvInitPredictor (dir : path) (folds : list int_or_str) (checkpoint : string)
| EvLoadStateDict (params : StateDict)
| EvEval
| EvMkdir (p : path)
| EvRand (shape : list Z)
| EvForward (x : Tensor)
| EvExport (p : path) (x : Tensor) (dynamic_axes : bool)
| EvOnnxLoad (p : path)
| EvCheckModel (m : ModelProto)
| EvSession (p : path) (providers : list string)
| EvGetInputs (s : InferenceSession)
| EvSessionRun (s : InferenceSession) (feeds : list (string * Tensor))
| EvCompare (expected actual : Tensor)
| EvOpenW (p : path)
| EvJsonDump (p : path) (j : json).

Record world := World {
  fs : node;
  trace : list event;
  rng : nat;
}.

Definition M (A : Type) : Type := world → result A * world.

Definition ret {A} (a : A) : M A := λ w, (Ok a, w).

Definition bind {A B} (m : M A) (k : A → M B) : M B :=
  λ w, match m w with
       | (Ok a, w') => k a w'
       | (Err e, w') => (Err e, w')
       end.

Definition raise {A} (e : exn) : M A := λ w, (Err e, w).

Definition lift {A} (r : result A) : M A := λ w, (r, w).

Definition emit (e : event) : M unit :=
  λ w, (Ok tt, World (fs w) (trace w ++ [e]) (rng w)).

Definition get_fs : M node := λ w, (Ok (fs w), w).

Definition put_fs (n : node) : M unit :=
  λ w, (Ok tt, World n (trace w) (rng w)).

Definition next_seed : M nat :=
  λ w, (Ok (rng w), World (fs w) (trace w) (S (rng w))).

(** A library call: what it raises escapes, tagged with the callee. *)
Definition call {A} (callee : string) (o : outcome A) : M A :=
  match o with
  | Returns a => ret a
  | Raises e => raise (LibraryError callee e)
  end.

Definition print (s : string) : M unit := emit (EvPrint s).
End World.

Declare Scope monad_scope.
Delimit Scope monad_scope with monad.
Notation "x <- m ;; k" := (bind m (λ x, k))
  (at level 20, m at level 99, k at level 200, only parsing) : monad_scope.
Notation "m ;; k" := (bind m (λ _, k))
  (at level 100, k at level 200, right associativity, only parsing)
  : monad_scope.
Local Open Scope monad_scope.

(* ================================================================== *)
(** ** The libraries *)

Section Model.
Context `{TorchTypes}.

(** What [initialize_from_trained_model_folder] leaves in the predictor. *)
Record Predictor := {
  list_of_parameters : list StateDict;
  network : Network;
  configuration_manager : ConfigurationManager;
}.

Class Libs := {
  maybe_convert_to_dataset_name : node → int_or_str → outcome string;
  get_output_folder : string → string → string → string → outcome path;
  nnUNetPredictor : outcome unit;
  initialize_from_trained_model_folder :
    node → path → list int_or_str → string → outcome Predictor;
  load_state_dict : Network → StateDict → outcome Network;
  network_eval : Network → Network;
  torch_rand : nat → list Z → outcome Tensor;
  forward : Network → Tensor → outcome Tensor;
  torch_onnx_export : Network → Tensor → bool → bool → outcome OnnxBytes;
  onnx_load : OnnxBytes → outcome ModelProto;
  check_model : ModelProto → outcome unit;
  new_session : OnnxBytes → list string → outcome InferenceSession;
  first_input_name : InferenceSession → outcome string;
  session_run :
    InferenceSession → list (string * Tensor) → outcome (list Tensor);
  assert_allclose : Tensor → Tensor → allclose;
}.
Context `{Libs}.

(* ---------------------------------------------------------------- *)
(** ** Loops *)

(** [for x in l: s = body(x, s)]; an exception leaves the loop. *)
Fixpoint for_each {A S} (l : list A) (s : S) (body : A → S → M S) : M S :=
  match l with
  | [] => ret s
  | x :: l' => s' <- body x s;; for_each l' s' body
  end.

(** The variable [output_names]: the tuple the caller passed, or the
    generator expression of line 37.  A generator is its own iterator:
    it holds the checkpoints it has not visited yet, once and for all. *)
Inductive output_names_t :=
| NamesTuple (names : list string)
| NamesGenerator (remaining : list string).

(** [f"{checkpoint[:-4]}.onnx"]. *)
Definition derived_name (checkpoint : string) : string :=
  String.substring 0 (String.length checkpoint - 4) checkpoint +:+ ".onnx".

(** [next(it)] on the iterator of [output_names]. *)
Definition next_name (it : output_names_t) : option (string * output_names_t) :=
  match it with
  | NamesTuple [] => None
  | NamesTuple (x :: rest) => Some (x, NamesTuple rest)
  | NamesGenerator [] => None
  | NamesGenerator (cp :: rest) => Some (derived_name cp, NamesGenerator rest)
  end.

(** [for cp, name in zip(cps, it): body(cp, name)].  [zip] asks its first
    argument, then its second, and stops at the first one that is
    exhausted.  The result is the state the second iterator is left in. *)
Fixpoint for_zip (cps : list string) (it : output_names_t)
    (body : string → string → M unit) : M output_names_t :=
  match cps with
  | [] => ret it
  | cp :: cps' =>
      match next_name it with
      | None => ret it
      | Some (name, it') => body cp name;; for_zip cps' it' body
      end
  end.

(** [iter(output_names)], and what the variable holds after the loop: a
    tuple gives a fresh iterator each time, a generator gives itself. *)
Definition after_iteration (names it : output_names_t) : output_names_t :=
  match names with
  | NamesTuple _ => names
  | NamesGenerator _ => it
  end.

(* ---------------------------------------------------------------- *)
(** ** The metadata dictionary *)

(** [j[k]] on a value loaded from JSON. *)
Definition subscript (j : json) (k : string) : result json :=
  match j with
  | JObj d =>
      match dict_get k d with
      | Some v => Ok v
      | None => Err (KeyError k)
      end
  | _ => Err (TypeError "object is not subscriptable with a str")
  end.

(** [j.items()]. *)
Definition items (j : json) : result dict :=
  match j with
  | JObj d => Ok d
  | _ => Err (AttributeError "object has no attribute 'items'")
  end.

(** [len(j.keys())]. *)
Definition len_keys (j : json) : result json :=
  match j with
  | JObj d => Ok (JInt (Z.of_nat (length (dict_keys d))))
  | _ => Err (AttributeError "object has no attribute 'keys'")
  end.

(** [{k: {"name": v, "foreground_properties": fip[k]} for k, v in ...}]. *)
Fixpoint channels_dict (fip : json) (channel_names : dict) (acc : dict)
  : result dict :=
  match channel_names with
  | [] => Ok acc
  | (k, v) :: rest =>
      rbind (subscript fip k) (λ props,
        channels_dict fip rest
          (dict_set k (JObj [("name", v); ("foreground_properties", props)])
                    acc))
  end.

(** The key a value of "labels" becomes in the dumped class_names: a dict
    key must be hashable, and [json.dump] writes a scalar key as a string.
    (Labels are integers, or lists of integers for regions.  Python's
    identification of equal keys such as [1], [1.0] and [True], and the
    text [json.dump] prints for a float key, are not modelled: what is
    proved about the entries of class_names is proved for integer
    labels.) *)
Definition class_key (v : json) : result string :=
  match v with
  | JStr s => Ok s
  | JInt z => Ok (pretty z)
  | JFloat literal => Ok literal
  | JBool true => Ok "true"
  | JBool false => Ok "false"
  | JNull => Ok "null"
  | JArr _ => Err (TypeError "unhashable type: 'list'")
  | JObj _ => Err (TypeError "unhashable type: 'dict'")
  end.

(** [{v: k for k, v in dataset_json["labels"].items()}]. *)
Fixpoint class_names_dict (labels : dict) (acc : dict) : result dict :=
  match labels with
  | [] => Ok acc
  | (k, v) :: rest =>
      rbind (class_key v) (λ key,
        class_names_dict rest (dict_set key (JStr k) acc))
  end.

Definition json_of_int_or_str (x : int_or_str) : json :=
  match x with
  | PyInt z => JInt z
  | PyStr s => JStr s
  end.

Definition json_of_ints (l : list Z) : json := JArr (JInt <$> l).

(** [config_dict], lines 155-190; the entries are evaluated in the order
    they are written. *)
Definition config_dict (c : string) (fold : int_or_str) (batch_size : Z)
    (use_dynamic_axes : bool) (config : ConfigurationManager)
    (dataset_name : string) (dataset_json fip : json) : result json :=
  let model_parameters :=
    JObj [
      ("batch_size",
        if negb use_dynamic_axes then JInt batch_size else JStr "dynamic");
      ("patch_size", json_of_ints (patch_size config));
      ("spacing", spacing config);
      ("normalization_schemes", normalization_schemes config);
      ("UNet_class_name", UNet_class_name config);
      ("UNet_base_num_features", UNet_base_num_features config);
      ("unet_max_num_features", unet_max_num_features config);
      ("conv_kernel_sizes", conv_kernel_sizes config);
      ("pool_op_kernel_sizes", pool_op_kernel_sizes config);
      ("num_pool_per_axis", num_pool_per_axis config)
    ] in
  rbind (subscript dataset_json "channel_names") (λ names1,
  rbind (len_keys names1) (λ num_channels,
  rbind (subscript dataset_json "channel_names") (λ names2,
  rbind (items names2) (λ channel_items,
  rbind (channels_dict fip channel_items []) (λ channels,
  rbind (subscript dataset_json "labels") (λ labels1,
  rbind (len_keys labels1) (λ num_classes,
  rbind (subscript dataset_json "labels") (λ labels2,
  rbind (items labels2) (λ label_items,
  rbind (class_names_dict label_items []) (λ class_names,
    Ok (JObj [
      ("configuration", JStr c);
      ("fold", json_of_int_or_str fold);
      ("model_parameters", model_parameters);
      ("dataset_parameters", JObj [
        ("dataset_name", JStr dataset_name);
        ("num_channels", num_channels);
        ("channels", JObj channels);
        ("num_classes", num_classes);
        ("class_names", JObj class_names)
      ])
    ]))))))))))).

(* ---------------------------------------------------------------- *)
(** ** export_onnx_model *)

(** The parameters of [export_onnx_model]. *)
Record args := {
  dataset_name_or_id : int_or_str;
  output_dir : path;
  configurations : list string;
  batch_size : Z;
  trainer : string;
  plans_identifier : string;
  folds : list int_or_str;
  strict : bool;
  save_checkpoints : list string;
  output_names : option (list string);
  verbose : bool;
}.

Definition newline : string := String (Ascii.ascii_of_nat 10) "".

(** [not output_names]: [None] and the empty tuple are falsy. *)
Definition not_output_names (o : option (list string)) : bool :=
  match o with
  | None | Some [] => true
  | Some (_ :: _) => false
  end.

(** [output_dir / c / f"fold_{fold}"]. *)
Definition fold_dir (out : path) (c : string) (fold : int_or_str) : path :=
  joinpath (joinpath out c) ("fold_" +:+ py_str fold).

(** [torch.rand(shape)]. *)
Definition rand (shape : list Z) : M Tensor :=
  emit (EvRand shape);;
  seed <- next_seed;;
  call "torch.rand" (torch_rand seed shape).

(** Writing a file of the output tree. *)
Definition store (p : path) (c : content) : M unit :=
  n <- get_fs;;
  n' <- lift (write_file n p c);;
  put_fs n'.

(** [torch.onnx.export(network, rand_input, p, ...)]. *)
Definition export (net : Network) (rand_input : Tensor) (p : path)
    (verbose dynamic_axes : bool) : M unit :=
  emit (EvExport p rand_input dynamic_axes);;
  b <- call "torch.onnx.export"
         (torch_onnx_export net rand_input verbose dynamic_axes);;
  store p (OnnxFile b).

(** The ONNX file at [p], as [onnx.load] and [InferenceSession] read it. *)
Definition read_onnx (callee : string) (p : path) : M OnnxBytes :=
  n <- get_fs;;
  c <- lift (read_file n p);;
  match c with
  | OnnxFile b => ret b
  | _ =>
      raise (LibraryError callee (OtherError "DecodeError" "not an ONNX file"))
  end.

(** Lines 84-196: the body of the loop over the folds.  The loop state is
    the network object, which [load_state_dict] updates in place. *)
Definition export_fold (a : args) (use_dynamic_axes : bool) (c : string)
    (dataset_name : string) (dataset_json fip : json)
    (output_name : string) (config : ConfigurationManager)
    (fp : int_or_str * StateDict) (net : Network) : M Network :=
  let '(fold, params) := fp in
  emit (EvLoadStateDict params);;
  net <- call "load_state_dict" (load_state_dict net params);;
  emit EvEval;;
  let net := network_eval net in
  let curr_output_dir := fold_dir (output_dir a) c fold in
  n <- get_fs;;
  (if negb (exists_ n curr_output_dir) then
     emit (EvMkdir curr_output_dir);;
     n' <- lift (mkdir_parents n curr_output_dir);;
     put_fs n'
   else
     entries <- lift (iterdir n curr_output_dir);;
     if bool_decide (0 < length entries) then
       raise (RuntimeError
                ("Output directory " +:+ path_str curr_output_dir
                 +:+ " is not empty"))
     else ret tt);;
  io <- (if use_dynamic_axes then
           rand_input <- rand (1 :: 1 :: patch_size config)%Z;;
           emit (EvForward rand_input);;
           torch_output <- call "network" (forward net rand_input);;
           export net rand_input (joinpath curr_output_dir output_name)
                  (verbose a) true;;
           ret (rand_input, torch_output)
         else
           rand_input <- rand (batch_size a :: 1 :: patch_size config)%Z;;
           emit (EvForward rand_input);;
           torch_output <- call "network" (forward net rand_input);;
           export net rand_input (joinpath curr_output_dir output_name)
                  (verbose a) false;;
           ret (rand_input, torch_output));;
  let '(rand_input, torch_output) := io in
  emit (EvOnnxLoad (joinpath curr_output_dir output_name));;
  b <- read_onnx "onnx.load" (joinpath curr_output_dir output_name);;
  onnx_model <- call "onnx.load" (onnx_load b);;
  emit (EvCheckModel onnx_model);;
  call "onnx.checker.check_model" (check_model onnx_model);;
  emit (EvSession (joinpath curr_output_dir output_name)
                  ["CPUExecutionProvider"]);;
  b <- read_onnx "onnxruntime.InferenceSession"
         (joinpath curr_output_dir output_name);;
  ort_session <- call "onnxruntime.InferenceSession"
                   (new_session b ["CPUExecutionProvider"]);;
  emit (EvGetInputs ort_session);;
  input_name <- call "get_inputs" (first_input_name ort_session);;
  let ort_inputs := [(input_name, rand_input)] in
  emit (EvSessionRun ort_session ort_inputs);;
  ort_outs <- call "run" (session_run ort_session ort_inputs);;
  match ort_outs with
  | [] => raise (IndexError "list index out of range")
  | out0 :: _ =>
      emit (EvCompare torch_output out0);;
      match assert_allclose torch_output out0 with
      | Close => ret tt
      | NotClose report =>
          print ("WARN: Differences found between torch and onnx:"
                 +:+ newline);;
          print report;;
          print (newline +:+ "Export will continue, but please verify "
                 +:+ "that your pipeline matches the original.")
      | CompareRaises e =>
          raise (LibraryError "np.testing.assert_allclose" e)
      end
  end;;
  print ("Exported " +:+ path_str (joinpath curr_output_dir output_name));;
  emit (EvOpenW (joinpath curr_output_dir "config.json"));;
  store (joinpath curr_output_dir "config.json") (Text "");;
  d <- lift (config_dict c fold (batch_size a) use_dynamic_axes config
               dataset_name dataset_json fip);;
  emit (EvJsonDump (joinpath curr_output_dir "config.json") d);;
  store (joinpath curr_output_dir "config.json") (JsonDoc d);;
  ret net.

(** Lines 72-196: the body of the loop over the checkpoints. *)
Definition export_checkpoint (a : args) (use_dynamic_axes : bool)
    (c dataset_name : string) (trainer_output_dir : path)
    (dataset_json fip : json) (checkpoint_name output_name : string)
  : M unit :=
  emit (EvInitPredictor trainer_output_dir (folds a) checkpoint_name);;
  n <- get_fs;;
  predictor <- call "initialize_from_trained_model_folder"
                 (initialize_from_trained_model_folder
                    n trainer_output_dir (folds a) checkpoint_name);;
  let list_of_parameters := list_of_parameters predictor in
  let network := network predictor in
  let config := configuration_manager predictor in
  for_each (zip (folds a) list_of_parameters) network
    (export_fold a use_dynamic_axes c dataset_name dataset_json fip
                 output_name config);;
  ret tt.

(** Lines 46-196: the body of the loop over the configurations.  The loop
    state is the variable [output_names]. *)
Definition export_configuration (a : args) (use_dynamic_axes : bool)
    (dataset_name : string) (c : string) (names : output_names_t)
  : M output_names_t :=
  print ("Configuration " +:+ c);;
  emit (EvOutputFolder dataset_name (trainer a) (plans_identifier a) c);;
  trainer_output_dir <-
    call "get_output_folder"
      (get_output_folder dataset_name (trainer a) (plans_identifier a) c);;
  emit (EvLoadJson (joinpath trainer_output_dir "dataset.json"));;
  n <- get_fs;;
  dataset_json <-
    lift (load_json_from n (joinpath trainer_output_dir "dataset.json"));;
  emit (EvLoadJson (joinpath trainer_output_dir "plans.json"));;
  n <- get_fs;;
  plans <- lift (load_json_from n (joinpath trainer_output_dir "plans.json"));;
  foreground_intensity_properties <-
    lift (subscript plans "foreground_intensity_properties_per_channel");;
  n <- get_fs;;
  if negb (isdir n trainer_output_dir) then
    if strict a then
      raise (RuntimeError
               (dataset_name
                +:+ " is missing the trained model of configuration "
                +:+ c))
    else
      print ("Skipping configuration " +:+ c +:+ ", does not exist");;
      ret names
  else
    emit EvNewPredictor;;
    call "nnUNetPredictor" nnUNetPredictor;;
    it <- for_zip (save_checkpoints a) names
            (export_checkpoint a use_dynamic_axes c dataset_name
               trainer_output_dir dataset_json
               foreground_intensity_properties);;
    ret (after_iteration names it).

Definition export_onnx_model (a : args) : M unit :=
  let names :=
    if not_output_names (output_names a)
    then NamesGenerator (save_checkpoints a)
    else NamesTuple (default [] (output_names a)) in
  if bool_decide (batch_size a < 0)%Z then
    raise (ValueError "batch_size must be non-negative")
  else
    let use_dynamic_axes := bool_decide (batch_size a = 0)%Z in
    emit (EvDatasetName (dataset_name_or_id a));;
    n <- get_fs;;
    dataset_name <-
      call "maybe_convert_to_dataset_name"
        (maybe_convert_to_dataset_name n (dataset_name_or_id a));;
    for_each (configurations a) names
      (export_configuration a use_dynamic_axes dataset_name);;
    ret tt.
End Model.

(* ================================================================== *)
(** ** A concrete scenario

    A results tree with two trained configurations and stand-ins for the
    libraries; tensors, networks and files are numbers. *)

Module Demo.
#[export] Instance demo_types : TorchTypes := {|
  Tensor := Z;
  Network := Z;
  StateDict := Z;
  OnnxBytes := Z;
  ModelProto := Z;
  InferenceSession := Z;
|}.

Definition demo_config : ConfigurationManager := {|
  patch_size := [64; 64]%Z;
  spacing := JArr [JFloat "1.0"; JFloat "1.0"];
  normalization_schemes := JArr [JStr "ZScoreNormalization"];
  UNet_class_name := JStr "PlainConvUNet";
  UNet_base_num_features := JInt 32;
  unet_max_num_features := JInt 512;
  conv_kernel_sizes := JArr [JArr [JInt 3; JInt 3]];
  pool_op_kernel_sizes := JArr [JArr [JInt 1; JInt 1]];
  num_pool_per_axis := JArr [JInt 5; JInt 5];
|}.

Definition results_folder (dataset tr plans c : string) : path :=
  ["results"; dataset; tr +:+ "__" +:+ plans +:+ "__" +:+ c].

(** The libraries of the scenario: the exported model computes what the
    network computes exactly when [faithful] is set. *)
Definition demo_libs (faithful : bool) : Libs := {|
  maybe_convert_to_dataset_name := λ _ _, Returns "Dataset001_Demo";
  get_output_folder := λ d t p c, Returns (results_folder d t p c);
  nnUNetPredictor := Returns ();
  initialize_from_trained_model_folder := λ _ _ use_folds _,
    Returns {| list_of_parameters := (λ _, 7%Z) <$> use_folds;
               network := 0%Z;
               configuration_manager := demo_config |};
  load_state_dict := λ _ params, Returns params;
  network_eval := λ net, net;
  torch_rand := λ seed _, Returns (Z.of_nat seed);
  forward := λ net x, Returns (net + x)%Z;
  torch_onnx_export := λ net _ _ _, Returns net;
  onnx_load := λ b, Returns b;
  check_model := λ _, Returns ();
  new_session := λ b _, Returns b;
  first_input_name := λ _, Returns "input";
  session_run := λ s feeds,
    Returns ((λ f, if faithful then (s + f.2)%Z else 0%Z) <$> feeds);
  assert_allclose := λ x y,
    if bool_decide (x = y) then Close else NotClose "Not equal to tolerance";
|}.

Definition dataset_json : json :=
  JObj [("channel_names", JObj [("0", JStr "CT")]);
        ("labels", JObj [("background", JInt 0); ("tumor", JInt 1)])].

Definition plans_json : json :=
  JObj [("foreground_intensity_properties_per_channel",
         JObj [("0", JObj [("mean", JFloat "101.5")])])].

Definition trained_model : node :=
  Dir {[ "dataset.json" := File (JsonDoc dataset_json);
         "plans.json" := File (JsonDoc plans_json) ]}.

(** Both "2d" and "3d_fullres" are trained. *)
Definition results_tree : node :=
  Dir {[ "results" := Dir {[ "Dataset001_Demo" := Dir {[
    "nnUNetTrainer__nnUNetPlans__2d" := trained_model;
    "nnUNetTrainer__nnUNetPlans__3d_fullres" := trained_model ]} ]} ]}.

(** Only "3d_fullres" is trained. *)
Definition results_tree_no_2d : node :=
  Dir {[ "results" := Dir {[ "Dataset001_Demo" := Dir {[
    "nnUNetTrainer__nnUNetPlans__3d_fullres" := trained_model ]} ]} ]}.

(** Both configurations are trained, and the output directory of
    ("2d", fold 0) is in use. *)
Definition occupied_tree : node :=
  Dir {[ "results" := Dir {[ "Dataset001_Demo" := Dir {[
           "nnUNetTrainer__nnUNetPlans__2d" := trained_model;
           "nnUNetTrainer__nnUNetPlans__3d_fullres" := trained_model ]} ]};
         "out" := Dir {[ "2d" := Dir {[ "fold_0" := Dir {[
           "checkpoint_best.onnx" := File (Text "") ]} ]} ]} ]}.

(** "2d" is trained, but its dataset.json is not a JSON document. *)
Definition malformed_tree : node :=
  Dir {[ "results" := Dir {[ "Dataset001_Demo" := Dir {[
    "nnUNetTrainer__nnUNetPlans__2d" :=
      Dir {[ "dataset.json" := File (Text "{");
             "plans.json" := File (JsonDoc plans_json) ]} ]} ]} ]}.

Definition start (n : node) : world := World n [] 0.

Definition demo_args (cs : list string) (bs : Z) (fs : list int_or_str)
    (strict : bool) (names : option (list string)) : args := {|
  dataset_name_or_id := PyInt 1;
  output_dir := ["out"];
  configurations := cs;
  batch_size := bs;
  trainer := "nnUNetTrainer";
  plans_identifier := "nnUNetPlans";
  folds := fs;
  strict := strict;
  save_checkpoints := ["checkpoint_final.pth"];
  output_names := names;
  verbose := false;
|}.
End Demo.

(* ================================================================== *)
(** ** What the metadata file must contain *)

Definition has_key (k : string) (j : json) : bool :=
  match j with
  | JObj d => bool_decide (is_Some (dict_get k d))
  | _ => false
  end.

Definition has_keys (ks : list string) (j : json) : bool :=
  forallb (λ k, has_key k j) ks.

Definition member (k : string) (j : json) : json :=
  match j with
  | JObj d => default JNull (dict_get k d)
  | _ => JNull
  end.

Definition all_members (f : json → bool) (j : json) : bool :=
  match j with
  | JObj d => forallb (λ kv, f kv.2) d
  | _ => false
  end.

(** The documented keys: configuration, fold, the model parameters (batch
    size, patch size, spacing, normalization schemes and the architecture
    of the network), and the dataset parameters (channels with their name
    and foreground intensity properties, classes with their names). *)
Definition metadata_complete (j : json) : bool :=
  has_keys ["configuration"; "fold"; "model_parameters";
            "dataset_parameters"] j
  && has_keys ["batch_size"; "patch_size"; "spacing";
               "normalization_schemes"; "UNet_class_name";
               "UNet_base_num_features"; "unet_max_num_features";
               "conv_kernel_sizes"; "pool_op_kernel_sizes";
               "num_pool_per_axis"] (member "model_parameters" j)
  && has_keys ["dataset_name"; "num_channels"; "channels"; "num_classes";
               "class_names"] (member "dataset_parameters" j)
  && all_members (has_keys ["name"; "foreground_properties"])
       (member "channels" (member "dataset_parameters" j)).

(* ================================================================== *)
(** * Properties *)

Section TracesDefinitions.
Context `{TorchTypes}.

(** The exception a result carries, if any. *)
Definition raised {A} (r : result A) : option exn :=
  match r with Ok _ => None | Err e => Some e end.

(** [produces m Φ]: whatever the world, [m] appends some events [Δ] to
    the trace and [Φ] holds of its result and of [Δ]. *)
Definition produces {A} (m : M A) (Φ : result A → list event → Prop)
  : Prop :=
  ∀ w, ∃ Δ, trace (m w).2 = trace w ++ Δ ∧ Φ (m w).1 Δ.

(** A property of traces that a loop keeps: it holds of no event, and of
    the events of an iteration that returned followed by those of the
    rest. *)
Definition loop_closed (T : option exn → list event → Prop) : Prop :=
  T None [] ∧ ∀ Δ1 o Δ2, T None Δ1 → T o Δ2 → T o (Δ1 ++ Δ2).

(** [guarded P pre Δ]: [P] holds of every event of [Δ] and of the events
    before it, [pre] included. *)
Fixpoint guarded (P : list event → event → Prop) (pre Δ : list event)
  : Prop :=
  match Δ with
  | [] => True
  | e :: Δ' => P pre e ∧ guarded P (pre ++ [e]) Δ'
  end.

End TracesDefinitions.

(* ================================================================== *)
(** ** Layout and order of the output *)

Section Layout.
Context `{TorchTypes}.

(** Who may occur in the events of a part of the run: the configurations,
    the folds and the artifact names, and the events that lead to a fold
    of a configuration. *)
Record scope := Scope {
  in_configs : string → Prop;
  in_folds : int_or_str → Prop;
  in_names : string → Prop;
  in_context : string → list event → Prop;
}.

(** The calls of one fold, from loading the parameters into the network
    to the comparison of the outputs, in program order. *)
Definition fold_script (d : path) (name : string) (params : StateDict)
    (x : Tensor) (dyn : bool) (m : ModelProto) (s : InferenceSession)
    (input_name : string) (y o : Tensor) : list event :=
  [EvLoadStateDict params; EvEval; EvForward x;
   EvExport (joinpath d name) x dyn;
   EvOnnxLoad (joinpath d name);
   EvCheckModel m;
   EvSession (joinpath d name) ["CPUExecutionProvider"];
   EvGetInputs s;
   EvSessionRun s [(input_name, x)];
   EvCompare y o].

(** Where the events that touch the output tree go, and what has
    happened before the metadata file is opened and written. *)
Definition well_placed (out : path) (σ : scope) (pre : list event)
    (e : event) : Prop :=
  match e with
  | EvMkdir p =>
      ∃ c fold, in_configs σ c ∧ in_folds σ fold ∧ p = fold_dir out c fold
  | EvExport p x dyn =>
      (∃ c fold name,
         in_configs σ c ∧ in_folds σ fold ∧ in_names σ name ∧
         p = joinpath (fold_dir out c fold) name)
      ∧ last pre = Some (EvForward x)
  | EvOpenW p =>
      ∃ c fold name ctx params x dyn m s input_name y o,
        in_configs σ c ∧ in_folds σ fold ∧ in_names σ name ∧
        in_context σ c ctx ∧
        p = joinpath (fold_dir out c fold) "config.json" ∧
        (ctx ++ fold_script (fold_dir out c fold) name params x dyn m s
                  input_name y o) `sublist_of` pre
  | EvJsonDump p j =>
      ∃ c fold name ctx params x dyn m s input_name y o,
        in_configs σ c ∧ in_folds σ fold ∧ in_names σ name ∧
        in_context σ c ctx ∧
        p = joinpath (fold_dir out c fold) "config.json" ∧
        metadata_complete j = true ∧
        member "configuration" j = JStr c ∧
        member "fold" j = json_of_int_or_str fold ∧
        (ctx ++ fold_script (fold_dir out c fold) name params x dyn m s
                  input_name y o ++ [EvOpenW p]) `sublist_of` pre
  | _ => True
  end.

(** [followed F Δ]: every event of [Δ] satisfies [F], given the events
    that come after it. *)
Fixpoint followed (F : event → list event → Prop) (Δ : list event)
  : Prop :=
  match Δ with
  | [] => True
  | e :: Δ' => F e Δ' ∧ followed F Δ'
  end.

(** The validation of the artifact at [p], exported from input [x]: it is
    loaded, checked, opened in a CPU session and run on [x]. *)
Definition validated (p : path) (x : Tensor) (post : list event) : Prop :=
  ∃ m s input_name rest,
    post = EvOnnxLoad p :: EvCheckModel m
           :: EvSession p ["CPUExecutionProvider"] :: EvGetInputs s
           :: EvSessionRun s [(input_name, x)] :: rest.

(** The validation stopped at a call that raised. *)
Definition cut_short (p : path) (post : list event) : Prop :=
  post = []
  ∨ post = [EvOnnxLoad p]
  ∨ (∃ m, post = [EvOnnxLoad p; EvCheckModel m])
  ∨ (∃ m, post = [EvOnnxLoad p; EvCheckModel m;
                  EvSession p ["CPUExecutionProvider"]])
  ∨ (∃ m s, post = [EvOnnxLoad p; EvCheckModel m;
                    EvSession p ["CPUExecutionProvider"]; EvGetInputs s]).

(** What follows an export: the whole validation, or a part of it when
    the run ends with an exception. *)
Definition validation (o : option exn) (e : event) (post : list event)
  : Prop :=
  match e with
  | EvExport p x _ => validated p x post ∨ (is_Some o ∧ cut_short p post)
  | _ => True
  end.

(** The three lines printed when the outputs differ. *)
Definition warning (report : string) : list event :=
  [EvPrint ("WARN: Differences found between torch and onnx:"
            +:+ newline);
   EvPrint report;
   EvPrint (newline +:+ "Export will continue, but please verify "
            +:+ "that your pipeline matches the original.")].

(** [quiet t t']: [t'] is [t] without its warnings. *)
Inductive quiet : list event → list event → Prop :=
| quiet_nil : quiet [] []
| quiet_event e t t' : quiet t t' → quiet (t ++ [e]) (t' ++ [e])
| quiet_warning report t t' : quiet t t' → quiet (t ++ warning report) t'.

End Layout.

Section WalksDefinitions.
Context `{TorchTypes} `{!Libs}.

(** The events of one fold. *)
Definition fold_scope (c name : string) (fold : int_or_str) : scope :=
  Scope (λ c', c' = c) (λ f, f = fold) (λ n, n = name) (λ _ ctx, ctx = []).

(** The events of the folds of one checkpoint, and those of the
    checkpoint with the call that initialises the predictor. *)
Definition folds_scope (a : args) (c name : string) : scope :=
  Scope (λ c', c' = c) (λ f, f ∈ folds a) (λ n, n = name)
        (λ _ ctx, ctx = []).

Definition checkpoint_scope (a : args) (c cp name : string) : scope :=
  Scope (λ c', c' = c) (λ f, f ∈ folds a) (λ n, n = name)
        (λ _ ctx, ∃ dir, ctx = [EvInitPredictor dir (folds a) cp]).

(** The artifact names the run can use: those derived from the
    checkpoints when the caller gave none, the caller's otherwise. *)
Definition candidate_names (a : args) : list string :=
  if not_output_names (output_names a)
  then derived_name <$> save_checkpoints a
  else default [] (output_names a).

(** The names [names] can still give, and that they are candidates. *)
Definition all_names (names : output_names_t) : list string :=
  match names with
  | NamesTuple l => l
  | NamesGenerator remaining => derived_name <$> remaining
  end.

Definition names_within (a : args) (names : output_names_t) : Prop :=
  all_names names ⊆ candidate_names a.

Definition checkpoints_scope (a : args) (c : string) : scope :=
  Scope (λ c', c' = c) (λ f, f ∈ folds a) (λ n, n ∈ candidate_names a)
        (λ _ ctx, ∃ dir cp,
           cp ∈ save_checkpoints a ∧
           ctx = [EvInitPredictor dir (folds a) cp]).

Definition configuration_scope (a : args) (ds c : string) : scope :=
  Scope (λ c', c' = c) (λ f, f ∈ folds a) (λ n, n ∈ candidate_names a)
        (λ _ ctx, ∃ dir cp,
           cp ∈ save_checkpoints a ∧
           ctx = [EvOutputFolder ds (trainer a) (plans_identifier a) c;
                  EvInitPredictor dir (folds a) cp]).

Definition run_scope (a : args) : scope :=
  Scope (λ c, c ∈ configurations a) (λ f, f ∈ folds a)
        (λ n, n ∈ candidate_names a)
        (λ c ctx, ∃ ds dir cp,
           cp ∈ save_checkpoints a ∧
           ctx = [EvDatasetName (dataset_name_or_id a);
                  EvOutputFolder ds (trainer a) (plans_identifier a) c;
                  EvInitPredictor dir (folds a) cp]).

(** The arguments whose names are plain: the components of the output
    directory, the configurations, the directory names of the folds and
    the artifact names. *)
Definition plain_args (a : args) : bool :=
  forallb plain_name (output_dir a)
  && forallb plain_name (configurations a)
  && forallb (λ f, plain_name ("fold_" +:+ py_str f)) (folds a)
  && forallb plain_name (candidate_names a).

Definition configurations_scope (a : args) (ds : string) : scope :=
  Scope (λ c, c ∈ configurations a) (λ f, f ∈ folds a)
        (λ n, n ∈ candidate_names a)
        (λ c ctx, ∃ dir cp,
           cp ∈ save_checkpoints a ∧
           ctx = [EvOutputFolder ds (trainer a) (plans_identifier a) c;
                  EvInitPredictor dir (folds a) cp]).

End WalksDefinitions.

(** The [ValueError] of a [raise] statement of the function itself. *)
Definition own_value_error (e : exn) : bool :=
  match e with ValueError _ => true | _ => false end.

(** No [ValueError] comes out. *)
Definition benign {A} (r : result A) : Prop :=
  ∀ e, r = Err e → own_value_error e = false.

Section ValueErrorsDefinitions.
Context `{TorchTypes} `{!Libs}.

(** The loop invariant of [benign]. *)
Definition no_value_error (o : option exn) (Δ : list event) : Prop :=
  ∀ e, o = Some e → own_value_error e = false.

End ValueErrorsDefinitions.

Section Parity.
Context `{TorchTypes}.

(** The check that never fails on a difference: what [assert_allclose]
    would answer had the outputs been close. *)
Definition hush (r : allclose) : allclose :=
  match r with
  | NotClose _ => Close
  | _ => r
  end.

(** The libraries [L] with the comparison hushed. *)
Definition lenient (L : Libs) : Libs := {|
  maybe_convert_to_dataset_name := @maybe_convert_to_dataset_name _ L;
  get_output_folder := @get_output_folder _ L;
  nnUNetPredictor := @nnUNetPredictor _ L;
  initialize_from_trained_model_folder :=
    @initialize_from_trained_model_folder _ L;
  load_state_dict := @load_state_dict _ L;
  network_eval := @network_eval _ L;
  torch_rand := @torch_rand _ L;
  forward := @forward _ L;
  torch_onnx_export := @torch_onnx_export _ L;
  onnx_load := @onnx_load _ L;
  check_model := @check_model _ L;
  new_session := @new_session _ L;
  first_input_name := @first_input_name _ L;
  session_run := @session_run _ L;
  assert_allclose := λ x y, hush (@assert_allclose _ L x y);
|}.

(** Two worlds that differ by warnings only. *)
Definition same_but_warnings (w w' : world) : Prop :=
  fs w = fs w' ∧ rng w = rng w' ∧ quiet (trace w) (trace w').

(** Two computations that do the same up to warnings. *)
Definition agree {A} (m m' : M A) : Prop :=
  ∀ w w', same_but_warnings w w' →
    (m w).1 = (m' w').1 ∧ same_but_warnings (m w).2 (m' w').2.

(** What follows a comparison whose outputs differ: the warning, then
    the message that the artifact is exported and the opening of the
    metadata file. *)
Definition warned (L : Libs) (e : event) (post : list event) : Prop :=
  match e with
  | EvCompare y o =>
      ∀ report, @assert_allclose _ L y o = NotClose report →
        ∃ d name rest,
          post = warning report
                 ++ EvPrint ("Exported " +:+ path_str (joinpath d name))
                 :: EvOpenW (joinpath d "config.json") :: rest
  | _ => True
  end.

End Parity.

(* ================================================================== *)
(** ** What a run changes in the file system *)

Section FsDefinitions.
Context `{TorchTypes}.

(** [changes_within D n n']: the trees [n] and [n'] have the same node at
    every path that is neither an entry of a directory of [D], nor such a
    directory, nor one of its ancestors. *)
Definition changes_within (D : path → Prop) (n n' : node) : Prop :=
  ∀ q, (∀ d x, D d → ¬ q `prefix_of` d ++ [x]) →
       lookup_path n' q = lookup_path n q.

(** [moves n R m]: run from a world whose file system is [n], [m] ends
    with a result and a file system that satisfy [R]. *)
Definition moves {A} (n : node) (R : result A → node → Prop) (m : M A)
  : Prop :=
  ∀ w, fs w = n → R (m w).1 (fs (m w).2).

End FsDefinitions.

Section FsScopes.
Context `{TorchTypes} `{!Libs}.

(** The directories of the requested configuration/fold pairs. *)
Definition fold_dirs (a : args) (d : path) : Prop :=
  ∃ c f, c ∈ configurations a ∧ f ∈ folds a ∧
         d = fold_dir (output_dir a) c f.

(** What the loops keep: a property of the file system that every fold of
    a requested pair keeps. *)
Definition kept_by_folds (a : args) (I : node → Prop) : Prop :=
  ∀ dyn c ds dataset_json fip name config fold params net n,
    c ∈ configurations a → fold ∈ folds a → I n →
    moves n (λ _ n', I n')
      (export_fold a dyn c ds dataset_json fip name config (fold, params)
         net).

End FsScopes.

(* ================================================================== *)
(** ** What the output tree holds after a run *)

Section RunsDefinitions.
Context `{TorchTypes}.

(** [runs n R m]: run from a world whose file system is [n], [m] appends
    some events [Δ] to the trace, and [R] holds of its result, of the file
    system it leaves and of [Δ]. *)
Definition runs {A} (n : node) (R : result A → node → list event → Prop)
    (m : M A) : Prop :=
  ∀ w, fs w = n →
    ∃ Δ, trace (m w).2 = trace w ++ Δ ∧ R (m w).1 (fs (m w).2) Δ.

(** [delivered out n Δ]: for every metadata dump of [Δ], the tree [n] holds
    the dumped object in the config.json of a fold directory, and the
    artifact that [Δ] exported into that directory. *)
Definition delivered (out : path) (n : node) (Δ : list event) : Prop :=
  ∀ p j, EvJsonDump p j ∈ Δ →
    ∃ c f name x dyn,
      p = joinpath (fold_dir out c f) "config.json"
      ∧ lookup_path n p = Some (File (JsonDoc j))
      ∧ EvExport (joinpath (fold_dir out c f) name) x dyn ∈ Δ
      ∧ (name ≠ "config.json" →
         ∃ b, lookup_path n (joinpath (fold_dir out c f) name)
              = Some (File (OnnxFile b))).

End RunsDefinitions.

Section DeliveredDefinitions.
Context `{TorchTypes}.

(** Traces without a metadata dump. *)
Definition is_dump (e : event) : bool :=
  match e with EvJsonDump _ _ => true | _ => false end.

Definition no_dump (Δ : list event) : bool :=
  forallb (λ e, negb (is_dump e)) Δ.

End DeliveredDefinitions.


(* ================================================================== *)
(** ** Which events a configuration may leave *)

Section ExhaustedNames.
Context `{TorchTypes}.

(** The events of a configuration for which nothing is exported. *)
Definition idle (e : event) : bool :=
  match e with
  | EvInitPredictor _ _ _ | EvLoadStateDict _ | EvMkdir _ | EvExport _ _ _
  | EvOpenW _ | EvJsonDump _ _ => false
  | _ => true
  end.

(** The events of configuration [c]: what is created, exported or dumped
    is in a fold directory of [c]. *)
Definition within_configuration (out : path) (c : string) (e : event)
  : Prop :=
  match e with
  | EvMkdir p => ∃ f, p = fold_dir out c f
  | EvExport p _ _ => ∃ f name, p = joinpath (fold_dir out c f) name
  | EvOpenW p | EvJsonDump p _ =>
      ∃ f, p = joinpath (fold_dir out c f) "config.json"
  | _ => True
  end.

End ExhaustedNames.

(* ================================================================== *)
(** ** Further properties: metadata, arguments and exports *)

(** The inputs from which the metadata can be built: dataset.json has an
    object under "channel_names" and under "labels", the foreground
    properties can be subscripted with every channel, and every label
    value can be a dict key. *)
Definition metadata_inputs_ok (dataset_json fip : json) : bool :=
  match subscript dataset_json "channel_names",
        subscript dataset_json "labels" with
  | Ok (JObj channel_names), Ok (JObj labels) =>
      forallb (λ kv, is_ok (subscript fip kv.1)) channel_names
      && forallb (λ kv, is_ok (class_key kv.2)) labels
  | _, _ => false
  end.

(** The exceptions of a subscript, an attribute access or a dict key. *)
Definition lookup_error (e : exn) : bool :=
  match e with
  | KeyError _ | TypeError _ | AttributeError _ => true
  | _ => false
  end.

(** One entry of "channels" and of "class_names". *)
Definition channel_entry (fip : dict) (kv : string * json)
  : string * json :=
  (kv.1, JObj [("name", kv.2);
               ("foreground_properties", default JNull (dict_get kv.1 fip))]).

Definition class_entry (kz : string * Z) : string * json :=
  (pretty kz.2, JStr kz.1).

Section ToldDefinitions.
Context `{TorchTypes}.

(** The batch dimension of a run: 1 and a dynamic axis when [batch_size]
    is 0, [batch_size] and fixed axes otherwise. *)
Definition batch_dimension (a : args) : Z :=
  if bool_decide (batch_size a = 0)%Z then 1%Z else batch_size a.

(** What the calls of a run say about the batch size: the shape of the
    random input, the dynamic axes of the export, and the "batch_size" of
    the metadata. *)
Definition batch_told (a : args) (e : event) : Prop :=
  match e with
  | EvRand shape => ∃ patch, shape = batch_dimension a :: 1%Z :: patch
  | EvExport _ _ dyn => dyn = bool_decide (batch_size a = 0)%Z
  | EvJsonDump _ j =>
      member "batch_size" (member "model_parameters" j)
      = if bool_decide (batch_size a = 0)%Z
        then JStr "dynamic" else JInt (batch_size a)
  | _ => True
  end.

(** What the calls that follow the conversion of the dataset name say
    about it: the name [ds] it returned is the one the model folders are
    resolved from and the one the metadata records; the conversion is not
    made again. *)
Definition dataset_told (a : args) (ds : string) (e : event) : Prop :=
  match e with
  | EvDatasetName _ => False
  | EvOutputFolder ds' tr plans c =>
      ds' = ds ∧ tr = trainer a ∧ plans = plans_identifier a
      ∧ c ∈ configurations a
  | EvInitPredictor _ use_folds cp =>
      use_folds = folds a ∧ cp ∈ save_checkpoints a
  | EvJsonDump _ j =>
      member "dataset_name" (member "dataset_parameters" j) = JStr ds
  | _ => True
  end.

End ToldDefinitions.

(** The arguments [a] with another value for [strict]. *)
Definition with_strict (b : bool) (a : args) : args := {|
  dataset_name_or_id := dataset_name_or_id a;
  output_dir := output_dir a;
  configurations := configurations a;
  batch_size := batch_size a;
  trainer := trainer a;
  plans_identifier := plans_identifier a;
  folds := folds a;
  strict := b;
  save_checkpoints := save_checkpoints a;
  output_names := output_names a;
  verbose := verbose a;
|}.

Section CoversDefinitions.
Context `{TorchTypes}.

(** [dumped out c f Δ]: among the events [Δ] is the dump, into the
    config.json of the directory of the pair ([c], [f]), of a metadata
    object of that configuration and that fold. *)
Definition dumped (out : path) (c : string) (f : int_or_str)
    (Δ : list event) : Prop :=
  ∃ j, EvJsonDump (joinpath (fold_dir out c f) "config.json") j ∈ Δ
       ∧ member "configuration" j = JStr c
       ∧ member "fold" j = json_of_int_or_str f.

End CoversDefinitions.

(** The arguments [a] with other configurations. *)
Definition with_configurations (cs : list string) (a : args) : args := {|
  dataset_name_or_id := dataset_name_or_id a;
  output_dir := output_dir a;
  configurations := cs;
  batch_size := batch_size a;
  trainer := trainer a;
  plans_identifier := plans_identifier a;
  folds := folds a;
  strict := strict a;
  save_checkpoints := save_checkpoints a;
  output_names := output_names a;
  verbose := verbose a;
|}.

Section OnceDefinitions.
Context `{TorchTypes}.

(** The directory an export call writes into, and those of a trace. *)
Definition export_dir (e : event) : option path :=
  match e with
  | EvExport p _ _ => Some (removelast p)
  | _ => None
  end.

Definition export_dirs (Δ : list event) : list path := omap export_dir Δ.

(** A directory with an entry, and one without. *)
Definition occupied (n : node) (d : path) : Prop :=
  ∃ x, exists_ n (joinpath d x) = true.

Definition free (n : node) (d : path) : Prop :=
  ∀ x, exists_ n (joinpath d x) = false.

(** The exports so far went into different directories, which all have
    an entry now. *)
Definition once (n : node) (Δ : list event) : Prop :=
  NoDup (export_dirs Δ) ∧ ∀ d, d ∈ export_dirs Δ → occupied n d.

(** [m] keeps exporting into different directories, whether it returns
    or raises. *)
Definition exports_once {A} (m : M A) : Prop :=
  ∀ n Δ0, once n Δ0 →
    runs n (λ r n' Δ1, NoDup (export_dirs (Δ0 ++ Δ1))
                       ∧ (is_ok r = true → once n' (Δ0 ++ Δ1))) m.

End OnceDefinitions.

Section LeftOpenDefinitions.
Context `{TorchTypes}.

(** How a computation ends with respect to the metadata file: when it
    returns, its last call is not the opening of a metadata file; when it
    raises just after opening one, that file is left empty and the
    exception is one of the construction of the metadata. *)
Definition left_open {A} (r : result A) (n' : node) (Δ : list event)
  : Prop :=
  match r with
  | Ok _ => ∀ p, last Δ ≠ Some (EvOpenW p)
  | Err e =>
      ∀ p, last Δ = Some (EvOpenW p) →
           lookup_path n' p = Some (File (Text ""))
           ∧ lookup_error e = true
  end.

Definition leaves_open {A} (m : M A) : Prop := ∀ n, runs n left_open m.

Definition opens (e : event) : bool :=
  match e with EvOpenW _ => true | _ => false end.

End LeftOpenDefinitions.

Section InOrderDefinitions.
Context `{TorchTypes}.

(** The configuration whose model folder a call resolves, and those of a
    trace, in the order of the calls. *)
Definition resolved (e : event) : option string :=
  match e with
  | EvOutputFolder _ _ _ c => Some c
  | _ => None
  end.

Definition resolved_configurations (Δ : list event) : list string :=
  omap resolved Δ.

End InOrderDefinitions.

Section PairedDefinitions.
Context `{TorchTypes}.

(** With the output names [names]: a predictor is initialised from a
    checkpoint that [zip] pairs with a name, and an artifact is exported
    under a name that [zip] pairs with a checkpoint. *)
Definition paired_told (a : args) (names : list string) (e : event)
  : Prop :=
  match e with
  | EvInitPredictor _ _ cp =>
      ∃ name, (cp, name) ∈ zip (save_checkpoints a) names
  | EvExport p _ _ =>
      ∃ d cp name,
        p = joinpath d name ∧ (cp, name) ∈ zip (save_checkpoints a) names
  | _ => True
  end.

End PairedDefinitions.

Section OpenedDefinitions.
Context `{TorchTypes}.



End OpenedDefinitions.

(** More trees for the scenario. *)
Module MoreDemo.
Import Demo.

(** "2d" is trained, and the output directory is a regular file. *)
Definition blocked_tree : node :=
  Dir {[ "results" := Dir {[ "Dataset001_Demo" := Dir {[
           "nnUNetTrainer__nnUNetPlans__2d" := trained_model ]} ]};
         "out" := File (Text "") ]}.

(** "2d" is trained, but its plans.json has no foreground intensity
    properties. *)
Definition bare_plans_tree : node :=
  Dir {[ "results" := Dir {[ "Dataset001_Demo" := Dir {[
    "nnUNetTrainer__nnUNetPlans__2d" :=
      Dir {[ "dataset.json" := File (JsonDoc dataset_json);
             "plans.json" := File (JsonDoc (JObj [])) ]} ]} ]} ]}.

(** "2d" is trained on regions: a label is a list of integers. *)
Definition region_dataset_json : json :=
  JObj [("channel_names", JObj [("0", JStr "CT")]);
        ("labels", JObj [("background", JInt 0);
                         ("whole_tumor", JArr [JInt 1; JInt 2])])].

Definition region_tree : node :=
  Dir {[ "results" := Dir {[ "Dataset001_Demo" := Dir {[
    "nnUNetTrainer__nnUNetPlans__2d" :=
      Dir {[ "dataset.json" := File (JsonDoc region_dataset_json);
             "plans.json" := File (JsonDoc plans_json) ]} ]} ]} ]}.

End MoreDemo.

(* ================================================================== *)
(** * Proofs *)

(* ================================================================== *)
(** ** Reasoning about the trace of a computation *)

Section Traces.
Context `{TorchTypes}.

Lemma produces_ret {A} (a : A) Φ : Φ (Ok a) [] → produces (ret a) Φ.
Proof. intros HΦ w. exists []. by rewrite app_nil_r. Qed.

Lemma produces_raise {A} e (Φ : result A → list event → Prop) :
  Φ (Err e) [] → produces (raise e) Φ.
Proof. intros HΦ w. exists []. by rewrite app_nil_r. Qed.

Lemma produces_conseq {A} (m : M A) (Φ Ψ : result A → list event → Prop) :
  produces m Φ → (∀ r Δ, Φ r Δ → Ψ r Δ) → produces m Ψ.
Proof.
  intros Hm Himp w. destruct (Hm w) as (Δ & Ht & HΦ). exists Δ. eauto.
Qed.

Lemma produces_bind {A B} (m : M A) (k : A → M B) Φ1 Φ :
  produces m Φ1 →
  (∀ e Δ, Φ1 (Err e) Δ → Φ (Err e) Δ) →
  (∀ a Δ1, Φ1 (Ok a) Δ1 → produces (k a) (λ r Δ2, Φ r (Δ1 ++ Δ2))) →
  produces (bind m k) Φ.
Proof.
  intros Hm Herr Hk w. destruct (Hm w) as (Δ1 & Ht & HΦ). unfold bind.
  destruct (m w) as [[a|e] w1]; simpl in *.
  - destruct (Hk a Δ1 HΦ w1) as (Δ2 & Ht2 & H2).
    exists (Δ1 ++ Δ2). by rewrite Ht2, Ht, app_assoc.
  - exists Δ1. eauto.
Qed.

Lemma produces_assoc {A B C} (m : M A) (k : A → M B) (k' : B → M C) Φ :
  produces (bind m (λ a, bind (k a) k')) Φ →
  produces (bind (bind m k) k') Φ.
Proof.
  intros Hm w. destruct (Hm w) as (Δ & Ht & HΦ). exists Δ.
  unfold bind in *. destruct (m w) as [[a|e] w1]; simpl in *; done.
Qed.

Lemma produces_emit_bind {B} e (k : unit → M B) Φ :
  produces (k ()) (λ r Δ, Φ r (e :: Δ)) → produces (bind (emit e) k) Φ.
Proof.
  intros Hk w. unfold bind, emit.
  destruct (Hk (World (fs w) (trace w ++ [e]) (rng w))) as (Δ & Ht & HΦ).
  exists (e :: Δ). split; [|done]. rewrite Ht. simpl. by rewrite <- app_assoc.
Qed.

Lemma produces_ret_bind {A B} (a : A) (k : A → M B) Φ :
  produces (k a) Φ → produces (bind (ret a) k) Φ.
Proof. intros Hk w. apply Hk. Qed.

Lemma produces_raise_bind {A B} e (k : A → M B) Φ :
  Φ (Err e) [] → produces (bind (raise e) k) Φ.
Proof. intros HΦ w. exists []. by rewrite app_nil_r. Qed.

Lemma produces_lift_bind {A B} (r : result A) (k : A → M B) Φ :
  (∀ e, r = Err e → Φ (Err e) []) →
  (∀ a, r = Ok a → produces (k a) Φ) →
  produces (bind (lift r) k) Φ.
Proof.
  intros Herr Hk w. unfold bind, lift. destruct r as [a|e].
  - by apply Hk.
  - exists []. rewrite app_nil_r. eauto.
Qed.

Lemma produces_call_bind {A B} callee (o : outcome A) (k : A → M B) Φ :
  (∀ e, o = Raises e → Φ (Err (LibraryError callee e)) []) →
  (∀ a, o = Returns a → produces (k a) Φ) →
  produces (bind (call callee o) k) Φ.
Proof.
  intros Herr Hk w. unfold bind, call. destruct o as [a|info].
  - by apply Hk.
  - exists []. rewrite app_nil_r. simpl. eauto.
Qed.

Lemma produces_get_fs_bind {B} (k : node → M B) Φ :
  (∀ n, produces (k n) Φ) → produces (bind get_fs k) Φ.
Proof. intros Hk w. apply Hk. Qed.

Lemma produces_put_fs_bind {B} n (k : unit → M B) Φ :
  produces (k ()) Φ → produces (bind (put_fs n) k) Φ.
Proof. intros Hk w. apply (Hk (World n (trace w) (rng w))). Qed.

Lemma produces_next_seed_bind {B} (k : nat → M B) Φ :
  (∀ seed, produces (k seed) Φ) → produces (bind next_seed k) Φ.
Proof.
  intros Hk w. apply (Hk (rng w) (World (fs w) (trace w) (S (rng w)))).
Qed.

(* ---------------------------------------------------------------- *)
(** Loops.  [T] is what holds of the events of the loop: it depends on
    the exception that ended the loop, if any, and it is closed under
    running one more iteration after iterations that returned. *)

Lemma produces_for_each {A S} (l : list A) (body : A → S → M S)
    (T : option exn → list event → Prop) (I : S → Prop) :
  loop_closed T →
  (∀ x s, x ∈ l → I s →
     produces (body x s) (λ r Δ, T (raised r) Δ ∧ ∀ s', r = Ok s' → I s')) →
  ∀ s, I s →
  produces (for_each l s body)
    (λ r Δ, T (raised r) Δ ∧ ∀ s', r = Ok s' → I s').
Proof.
  intros [Hnil Happ]. induction l as [|x l IH]; intros Hbody s Hs; simpl.
  - apply produces_ret. split; [done|]. by intros ? [= <-].
  - eapply produces_bind.
    + apply Hbody; [left|done].
    + by intros e Δ [HT _].
    + intros s' Δ1 [HT1 Hs']. eapply produces_conseq.
      * apply IH; [|by apply Hs'].
        intros y s0 Hy. apply Hbody. by right.
      * intros r Δ2 [HT2 HI]. split; [|done]. by apply Happ.
Qed.

Lemma produces_for_zip (cps : list string)
    (body : string → string → M unit)
    (T : option exn → list event → Prop) (I : output_names_t → Prop) :
  loop_closed T →
  (∀ it name it', I it → next_name it = Some (name, it') → I it') →
  (∀ cp it name it', cp ∈ cps → I it → next_name it = Some (name, it') →
     produces (body cp name) (λ r Δ, T (raised r) Δ)) →
  ∀ it, I it →
  produces (for_zip cps it body)
    (λ r Δ, T (raised r) Δ ∧ ∀ it', r = Ok it' → I it').
Proof.
  intros [Hnil Happ] Hnext.
  induction cps as [|cp cps IH]; intros Hbody it Hit; simpl.
  - apply produces_ret. split; [done|]. by intros ? [= <-].
  - destruct (next_name it) as [[name it']|] eqn:Hn.
    + eapply produces_bind.
      * eapply Hbody; [left|done..].
      * intros e Δ HT. split; [done|]. by intros ? [=].
      * intros [] Δ1 HT1. eapply produces_conseq.
        -- apply IH; [|by eapply Hnext].
           intros cp' it0 name0 it0' Hcp. apply Hbody. by right.
        -- intros r Δ2 [HT2 HI]. split; [|done]. by apply Happ.
    + apply produces_ret. split; [done|]. by intros ? [= <-].
Qed.

(* ---------------------------------------------------------------- *)
(** [guarded P pre Δ]: every event of [Δ] satisfies [P], given the
    events that came before it ([pre], then the earlier events of [Δ]). *)

Lemma guarded_app P pre Δ1 Δ2 :
  guarded P pre (Δ1 ++ Δ2) ↔ guarded P pre Δ1 ∧ guarded P (pre ++ Δ1) Δ2.
Proof.
  revert pre. induction Δ1 as [|e Δ1 IH]; intros pre; simpl.
  - rewrite app_nil_r. tauto.
  - rewrite IH, <- app_assoc. simpl. tauto.
Qed.

Lemma guarded_transfer P P' front pre Δ :
  (∀ t e, P t e → P' (front ++ t) e) →
  guarded P pre Δ → guarded P' (front ++ pre) Δ.
Proof.
  intros Himp. revert pre. induction Δ as [|e Δ IH]; intros pre; simpl.
  - done.
  - intros [He HΔ]. split; [by apply Himp|].
    rewrite <- app_assoc. by apply IH.
Qed.

Lemma guarded_split P Δ pre e post :
  guarded P [] Δ → Δ = pre ++ e :: post → P pre e.
Proof.
  intros HΔ ->. apply guarded_app in HΔ as [_ HΔ]. simpl in HΔ. tauto.
Qed.

Lemma guarded_loop_closed P :
  (∀ front t e, P t e → P (front ++ t) e) →
  loop_closed (λ _ Δ, guarded P [] Δ).
Proof.
  intros Hext. split; [done|]. intros Δ1 _ Δ2 H1 H2.
  apply guarded_app. split; [done|]. simpl.
  rewrite <- (app_nil_r Δ1). apply guarded_transfer with (P := P); [|done].
  intros t e. apply Hext.
Qed.

Lemma produces_emit_bind_guarded {B} P pre Post e (k : unit → M B) :
  P pre e →
  produces (k ()) (λ r Δ, guarded P (pre ++ [e]) Δ ∧ Post r) →
  produces (bind (emit e) k) (λ r Δ, guarded P pre Δ ∧ Post r).
Proof.
  intros He Hk. apply produces_emit_bind.
  eapply produces_conseq; [apply Hk|]. simpl. tauto.
Qed.

End Traces.

(** One step of a walk through a computation, statement by statement. *)
Ltac walk_step :=
  cbv beta;
  lazymatch goal with
  | |- produces (bind (bind _ _) _) _ => apply produces_assoc
  | |- produces (bind (emit _) _) _ => apply produces_emit_bind
  | |- produces (bind (print _) _) _ => apply produces_emit_bind
  | |- produces (bind (ret _) _) _ => apply produces_ret_bind
  | |- produces (bind (raise _) _) _ => apply produces_raise_bind
  | |- produces (bind (lift _) _) _ =>
      apply produces_lift_bind; [intros ?e ?Herr | intros ?a ?Hok]
  | |- produces (bind (call _ _) _) _ =>
      apply produces_call_bind; [intros ?info ?Herr | intros ?a ?Hok]
  | |- produces (bind get_fs _) _ => apply produces_get_fs_bind; intros ?n
  | |- produces (bind (put_fs _) _) _ => apply produces_put_fs_bind
  | |- produces (bind next_seed _) _ =>
      apply produces_next_seed_bind; intros ?seed
  | |- produces (bind (rand _) _) _ => unfold rand
  | |- produces (bind (store _ _) _) _ => unfold store
  | |- produces (bind (export _ _ _ _ _) _) _ => unfold export
  | |- produces (bind (read_onnx _ _) _) _ => unfold read_onnx
  | |- produces (bind (if ?b then _ else _) _) _ => destruct b eqn:?
  | |- produces (bind (match ?x with _ => _ end) _) _ => destruct x eqn:?
  | |- produces (match ?x with _ => _ end) _ => destruct x eqn:?
  | |- produces (ret _) _ => apply produces_ret
  | |- produces (raise _) _ => apply produces_raise
  end.

Section LayoutProofs.
Context `{TorchTypes}.

Lemma well_placed_transfer out σ σ' front pre e :
  (∀ c, in_configs σ c → in_configs σ' c) →
  (∀ f, in_folds σ f → in_folds σ' f) →
  (∀ n, in_names σ n → in_names σ' n) →
  (∀ c ctx, in_configs σ c → in_context σ c ctx →
     ∃ hdr, in_context σ' c (hdr ++ ctx) ∧ hdr `sublist_of` front) →
  well_placed out σ pre e → well_placed out σ' (front ++ pre) e.
Proof.
  intros Hc Hf Hn Hctx. destruct e; simpl; try done.
  - intros (c & fold & ? & ? & ?). exists c, fold. split_and!; eauto.
  - intros [(c & fold & name & ? & ? & ? & ?) Hlast]. split.
    + exists c, fold, name. split_and!; eauto.
    + rewrite last_app, Hlast. done.
  - intros (c & fold & name & ctx & params & x & dyn & m & s & nm & y & o
            & ? & ? & ? & Hin & ? & Hsub).
    destruct (Hctx c ctx) as (hdr & ? & Hhdr); [done..|].
    exists c, fold, name, (hdr ++ ctx), params, x, dyn, m, s, nm, y, o.
    split_and!; eauto.
    rewrite <- app_assoc. by apply sublist_app.
  - intros (c & fold & name & ctx & params & x & dyn & m & s & nm & y & o
            & ? & ? & ? & Hin & ? & ? & ? & ? & Hsub).
    destruct (Hctx c ctx) as (hdr & ? & Hhdr); [done..|].
    exists c, fold, name, (hdr ++ ctx), params, x, dyn, m, s, nm, y, o.
    split_and!; eauto.
    rewrite <- app_assoc. by apply sublist_app.
Qed.

Lemma well_placed_extend out σ front pre e :
  well_placed out σ pre e → well_placed out σ (front ++ pre) e.
Proof.
  apply well_placed_transfer; try done.
  intros c ctx _ ?. exists []. split; [done|]. apply sublist_nil_l.
Qed.

End LayoutProofs.

Section MetadataProofs.
Context `{TorchTypes}.

Lemma forallb_dict_set (f : json → bool) k v (d : dict) :
  f v = true →
  forallb (λ kv, f kv.2) d = true →
  forallb (λ kv, f kv.2) (dict_set k v d) = true.
Proof.
  intros Hv. induction d as [|[k' v'] d IH]; simpl.
  - by rewrite Hv.
  - intros [Hv' Hd]%andb_prop. destruct (String.eqb k k'); simpl.
    + by rewrite Hv, Hd.
    + by rewrite Hv', IH.
Qed.

Lemma channels_dict_complete fip names acc chans :
  channels_dict fip names acc = Ok chans →
  forallb (λ kv, has_keys ["name"; "foreground_properties"] kv.2) acc
    = true →
  forallb (λ kv, has_keys ["name"; "foreground_properties"] kv.2) chans
    = true.
Proof.
  revert acc. induction names as [|[k v] names IH]; intros acc; simpl.
  - by intros [= <-].
  - destruct (subscript fip k) as [props|]; simpl; [|done].
    intros Hrec Hacc. eapply IH; [done|].
    by apply forallb_dict_set.
Qed.

Lemma config_dict_complete c fold bs dyn config ds dataset_json fip j :
  config_dict c fold bs dyn config ds dataset_json fip = Ok j →
  metadata_complete j = true
  ∧ member "configuration" j = JStr c
  ∧ member "fold" j = json_of_int_or_str fold.
Proof.
  unfold config_dict.
  repeat (match goal with
          | |- rbind ?r _ = _ → _ => destruct r eqn:?; simpl; [|done]
          end).
  intros [= <-]. split; [|done].
  unfold metadata_complete. simpl.
  match goal with
  | Hc : channels_dict _ _ _ = Ok _ |- _ =>
      exact (channels_dict_complete _ _ _ _ Hc eq_refl)
  end.
Qed.

End MetadataProofs.

Ltac solve_sublist :=
  unfold fold_script; simpl;
  repeat first [ apply sublist_nil | apply sublist_skip | apply sublist_cons ].

(** The side conditions of a walk through one fold. *)
Ltac fold_side :=
  simpl;
  first
    [ exact I
    | match goal with
      | Hc : config_dict _ _ _ _ _ _ _ _ = Ok _ |- _ =>
          destruct (config_dict_complete _ _ _ _ _ _ _ _ _ Hc) as (? & ? & ?);
          eexists _, _, _, [], _, _, _, _, _, _, _, _;
          split_and!;
          [ reflexivity | reflexivity | reflexivity | reflexivity
          | reflexivity | eassumption | eassumption | eassumption
          | solve_sublist ]
      end
    | eexists _, _, _, [], _, _, _, _, _, _, _, _;
      split_and!;
      [ reflexivity | reflexivity | reflexivity | reflexivity
      | reflexivity | solve_sublist ]
    | by split; [eexists _, _, _|]
    | by eexists _, _ ].

(** A walk that checks [guarded P] event by event. *)
Ltac walk_guarded side :=
  repeat first
    [ progress (cbv beta;
        lazymatch goal with
        | |- produces (bind (emit _) _) _ =>
            apply produces_emit_bind_guarded; [side | cbn [app]]
        | |- produces (bind (print _) _) _ =>
            apply produces_emit_bind_guarded; [side | cbn [app]]
        | |- produces (ret _) _ => apply produces_ret; split; [exact I|]
        end)
    | walk_step ].

Section Walks.
Context `{TorchTypes} `{!Libs}.

Lemma produces_bind_guarded {A B} (m : M A) (k : A → M B)
    (P0 P : list event → event → Prop) pre
    (Post1 : result A → Prop) (Post : result B → Prop) :
  produces m (λ r Δ, guarded P0 [] Δ ∧ Post1 r) →
  (∀ t e, P0 t e → P (pre ++ t) e) →
  (∀ e, Post1 (Err e) → Post (Err e)) →
  (∀ a Δ1, Post1 (Ok a) →
     produces (k a) (λ r Δ, guarded P (pre ++ Δ1) Δ ∧ Post r)) →
  produces (bind m k) (λ r Δ, guarded P pre Δ ∧ Post r).
Proof.
  intros Hm Himp Herr Hk. eapply produces_bind; [apply Hm|..].
  - intros e Δ [HΔ HP]. split; [|by apply Herr].
    rewrite <- (app_nil_r pre). by apply guarded_transfer with (P := P0).
  - intros a Δ1 [HΔ HP]. eapply produces_conseq; [by apply Hk|].
    intros r Δ2 [HΔ2 HPost]. split; [|done].
    apply guarded_app. split; [|done].
    rewrite <- (app_nil_r pre). by apply guarded_transfer with (P := P0).
Qed.

Lemma export_fold_well_placed a dyn c ds dataset_json fip name config
    fold params net :
  produces
    (export_fold a dyn c ds dataset_json fip name config (fold, params) net)
    (λ r Δ, guarded (well_placed (output_dir a) (fold_scope c name fold))
              [] Δ ∧ True).
Proof.
  unfold export_fold.
  walk_guarded ltac:(fold_side).
  all: try done.
Qed.

Lemma export_checkpoint_well_placed a dyn c ds dir dataset_json fip cp name :
  produces (export_checkpoint a dyn c ds dir dataset_json fip cp name)
    (λ r Δ, guarded (well_placed (output_dir a)
                       (checkpoint_scope a c cp name)) [] Δ ∧ True).
Proof.
  unfold export_checkpoint.
  walk_guarded ltac:(fold_side); try done.
  eapply produces_bind_guarded
    with (P0 := well_placed (output_dir a) (folds_scope a c name))
         (Post1 := λ r, ∀ s', r = Ok s' → True).
  - apply (produces_for_each _ _
             (λ _ Δ, guarded (well_placed (output_dir a)
                                (folds_scope a c name)) [] Δ)
             (λ _, True)); [|  |done].
    + apply guarded_loop_closed. intros. by apply well_placed_extend.
    + intros [fold params] net Hin _.
      eapply produces_conseq; [apply export_fold_well_placed|].
      simpl. intros r Δ [HΔ _]. split; [|done].
      change (@nil event) with ([] ++ @nil event).
      eapply guarded_transfer; [|exact HΔ].
      intros t e. apply well_placed_transfer; simpl; try done.
      * intros f ->. by eapply elem_of_zip_l.
      * intros _ ctx _ ->. exists []. split; [done|]. apply sublist_nil.
  - intros t e. apply well_placed_transfer; simpl; try done.
    intros _ ctx _ ->. eexists [_]. split; [by eexists|]. done.
  - done.
  - intros net Δ1 _. walk_guarded ltac:(fold_side). done.
Qed.

Lemma next_name_within a it name it' :
  names_within a it → next_name it = Some (name, it') →
  name ∈ candidate_names a ∧ names_within a it'.
Proof.
  unfold names_within.
  destruct it as [[|x l]|[|cp l]]; simpl; intros Hsub [= <- <-]; simpl.
  all: split; [apply Hsub; left | intros y Hy; apply Hsub; by right].
Qed.

Lemma export_configuration_well_placed a dyn ds c names :
  names_within a names →
  produces (export_configuration a dyn ds c names)
    (λ r Δ, guarded (well_placed (output_dir a)
                       (configuration_scope a ds c)) [] Δ
            ∧ ∀ names', r = Ok names' → names_within a names').
Proof.
  intros Hnames. unfold export_configuration.
  walk_guarded ltac:(fold_side); try done.
  - by intros ? [= <-].
  - eapply produces_bind_guarded
      with (P0 := well_placed (output_dir a) (checkpoints_scope a c))
           (Post1 := λ r, ∀ it, r = Ok it → names_within a it).
    + apply (produces_for_zip _ _
               (λ _ Δ, guarded (well_placed (output_dir a)
                                  (checkpoints_scope a c)) [] Δ)
               (names_within a)); [| | |done].
      * apply guarded_loop_closed. intros. by apply well_placed_extend.
      * intros it name it' Hit Hn.
        by destruct (next_name_within _ _ _ _ Hit Hn).
      * intros cp it name it' Hcp Hit Hn.
        destruct (next_name_within _ _ _ _ Hit Hn) as [Hname _].
        eapply produces_conseq; [apply export_checkpoint_well_placed|].
        simpl. intros r Δ [HΔ _].
        change (@nil event) with ([] ++ @nil event).
        eapply guarded_transfer; [|exact HΔ].
        intros t e. apply well_placed_transfer; simpl; try done.
        -- by intros nm ->.
        -- intros _ ctx _ [dir ->]. exists []. split; [|apply sublist_nil].
           by exists dir, cp.
    + intros t e. apply well_placed_transfer; simpl; try done.
      intros _ ctx _ (dir & cp & Hcp & ->). eexists [_].
      split; [by exists dir, cp|]. solve_sublist.
    + done.
    + intros it Δ1 Hit. walk_guarded ltac:(fold_side).
      intros ? [= <-]. destruct names; simpl; [done|]. by apply Hit.
Qed.

Lemma initial_names_within a :
  names_within a
    (if not_output_names (output_names a)
     then NamesGenerator (save_checkpoints a)
     else NamesTuple (default [] (output_names a))).
Proof.
  unfold names_within, candidate_names.
  by destruct (not_output_names (output_names a)).
Qed.

Lemma export_onnx_model_well_placed a :
  produces (export_onnx_model a)
    (λ r Δ, guarded (well_placed (output_dir a) (run_scope a)) [] Δ ∧ True).
Proof.
  unfold export_onnx_model.
  destruct (bool_decide (batch_size a < 0)%Z); [by apply produces_raise|].
  walk_guarded ltac:(fold_side); try done.
  rename a0 into ds.
  eapply produces_bind_guarded
    with (P0 := well_placed (output_dir a) (configurations_scope a ds))
         (Post1 := λ r, ∀ it, r = Ok it → names_within a it).
  - apply (produces_for_each _ _
             (λ _ Δ, guarded (well_placed (output_dir a)
                                (configurations_scope a ds)) [] Δ)
             (names_within a)); [| |apply initial_names_within].
    + apply guarded_loop_closed. intros. by apply well_placed_extend.
    + intros c names Hc Hnames.
      eapply produces_conseq;
        [by apply export_configuration_well_placed|].
      simpl. intros r Δ [HΔ Hpost]. split; [|done].
      change (@nil event) with ([] ++ @nil event).
      eapply guarded_transfer; [|exact HΔ].
      intros t e. apply well_placed_transfer; simpl; try done.
      * by intros c' ->.
      * intros c' ctx -> (dir & cp & Hcp & ->). exists [].
        split; [|apply sublist_nil]. by exists dir, cp.
  - intros t e. apply well_placed_transfer; simpl; try done.
    intros c ctx _ (dir & cp & Hcp & ->). eexists [_].
    split; [by exists ds, dir, cp|]. solve_sublist.
  - done.
  - intros it Δ1 Hit. walk_guarded ltac:(fold_side). done.
Qed.

End Walks.

Ltac validation_side :=
  simpl; rewrite ?app_nil_r; simpl; split_and?; try exact I; try done;
  first
    [ left; by eexists _, _, _, _
    | right; split; [by eexists|]; unfold cut_short; eauto 10 ].

Section Validation.
Context `{TorchTypes} `{!Libs}.

Lemma validated_app p x post Δ :
  validated p x post → validated p x (post ++ Δ).
Proof.
  intros (m & s & nm & rest & ->). by exists m, s, nm, (rest ++ Δ).
Qed.

Lemma validation_loop_closed :
  loop_closed (λ o Δ, followed (validation o) Δ).
Proof.
  split; [done|]. intros Δ1 o Δ2 H1 H2.
  induction Δ1 as [|e Δ1 IH]; simpl in *; [done|].
  destruct H1 as [He H1]. split; [|by apply IH].
  destruct e; simpl in *; try done.
  destruct He as [Hv|[[? [=]] _]]. left. by apply validated_app.
Qed.

Lemma followed_split F Δ pre e post :
  followed F Δ → Δ = pre ++ e :: post → F e post.
Proof.
  intros HΔ ->. induction pre as [|e' pre IH]; simpl in HΔ; tauto.
Qed.

Lemma followed_cons_app F e Δ1 Δ2 :
  F e (Δ1 ++ Δ2) → followed F (Δ1 ++ Δ2) → followed F (e :: Δ1 ++ Δ2).
Proof. by split. Qed.

Lemma export_fold_validates a dyn c ds dataset_json fip name config fp net :
  produces (export_fold a dyn c ds dataset_json fip name config fp net)
    (λ r Δ, followed (validation (raised r)) Δ ∧ ∀ s', r = Ok s' → True).
Proof.
  unfold export_fold. destruct fp as [fold params].
  repeat walk_step.
  all: validation_side.
Qed.

Lemma export_checkpoint_validates a dyn c ds dir dataset_json fip cp name :
  produces (export_checkpoint a dyn c ds dir dataset_json fip cp name)
    (λ r Δ, followed (validation (raised r)) Δ).
Proof.
  unfold export_checkpoint. repeat walk_step; try done.
  eapply produces_bind.
  - apply (produces_for_each _ _ (λ o Δ, followed (validation o) Δ)
             (λ _, True)); [apply validation_loop_closed| |done].
    intros fp net _ _. apply export_fold_validates.
  - by intros e Δ [HΔ _].
  - intros net Δ1 [HΔ _]. repeat walk_step. simpl.
    by rewrite app_nil_r.
Qed.

Lemma export_configuration_validates a dyn ds c names :
  produces (export_configuration a dyn ds c names)
    (λ r Δ, followed (validation (raised r)) Δ ∧ ∀ s', r = Ok s' → True).
Proof.
  unfold export_configuration. repeat walk_step; try done.
  eapply produces_bind.
  - apply (produces_for_zip _ _ (λ o Δ, followed (validation o) Δ)
             (λ _, True)); [apply validation_loop_closed|done| |done].
    intros cp it name it' _ _ _. apply export_checkpoint_validates.
  - intros e Δ [HΔ _]. by simpl.
  - intros it Δ1 [HΔ _]. repeat walk_step. simpl.
    by rewrite app_nil_r.
Qed.

Lemma export_onnx_model_validates a :
  produces (export_onnx_model a)
    (λ r Δ, followed (validation (raised r)) Δ).
Proof.
  unfold export_onnx_model.
  destruct (bool_decide (batch_size a < 0)%Z); [by apply produces_raise|].
  repeat walk_step; try done.
  eapply produces_bind.
  - apply (produces_for_each _ _ (λ o Δ, followed (validation o) Δ)
             (λ _, True)); [apply validation_loop_closed| |done].
    intros c names _ _. apply export_configuration_validates.
  - intros e Δ [HΔ _]. by simpl.
  - intros it Δ1 [HΔ _]. repeat walk_step. simpl.
    by rewrite app_nil_r.
Qed.

End Validation.

(* ================================================================== *)
(** ** Errors of the file system *)

Section NonEmptyDirectory.
Context `{TorchTypes} `{!Libs}.

Lemma iterdir_nonempty n p es :
  lookup_path n p = Some (Dir es) → es ≠ ∅ →
  ∃ entries, iterdir n p = Ok entries ∧ 0 < length entries.
Proof.
  intros Hp Hes. unfold iterdir. rewrite Hp. eexists. split; [done|].
  rewrite length_fmap.
  destruct (map_to_list es) as [|kv l] eqn:Hl; simpl; [|lia].
  by apply map_to_list_empty_iff in Hl.
Qed.

(** Lines 88-95: a fold whose output directory exists and has an entry
    raises before it touches anything. *)
Lemma export_fold_occupied
    (a : args) (dyn : bool) (c ds : string) (dataset_json fip : json)
    (name : string) (config : ConfigurationManager) (fold : int_or_str)
    (params : StateDict) (net : Network) (w : world)
    (entries : list string) :
  exists_ (fs w) (fold_dir (output_dir a) c fold) = true →
  iterdir (fs w) (fold_dir (output_dir a) c fold) = Ok entries →
  0 < length entries →
  let run := export_fold a dyn c ds dataset_json fip name config
               (fold, params) net w in
  is_ok run.1 = false
  ∧ fs run.2 = fs w
  ∧ (trace run.2 = trace w ++ [EvLoadStateDict params]
     ∨ trace run.2 = trace w ++ [EvLoadStateDict params; EvEval])
  ∧ (∀ net', load_state_dict net params = Returns net' →
       run.1 = Err (RuntimeError
                      ("Output directory "
                       +:+ path_str (fold_dir (output_dir a) c fold)
                       +:+ " is not empty"))).
Proof.
  intros Hexists Hentries Hlen.
  unfold export_fold, bind, emit, call, get_fs, lift, raise, ret. simpl.
  destruct (load_state_dict net params) as [net'|info] eqn:Hload; simpl.
  - rewrite Hexists. simpl. rewrite Hentries. simpl.
    rewrite bool_decide_eq_true_2 by done. simpl.
    split_and!; [done|done|right; by rewrite <- app_assoc|done].
  - split_and!; [done|done|by left|done].
Qed.

End NonEmptyDirectory.

Section FsProofs.
Context `{TorchTypes}.

Lemma lookup_path_app n p q :
  lookup_path n (p ++ q) = lookup_path n p ≫= λ n', lookup_path n' q.
Proof.
  revert n. induction p as [|x p IH]; intros n; simpl; [done|].
  destruct n as [c|es]; [done|]. destruct (es !! x); [apply IH|done].
Qed.

Lemma lookup_path_file c q : q ≠ [] → lookup_path (File c) q = None.
Proof. by destruct q. Qed.

Lemma lookup_path_fresh_dirs p q :
  ¬ q `prefix_of` p → lookup_path (fresh_dirs p) q = None.
Proof.
  revert q. induction p as [|x p IH]; intros [|y q] Hq; simpl.
  - destruct Hq. apply prefix_nil.
  - by rewrite lookup_empty.
  - destruct Hq. apply prefix_nil.
  - destruct (decide (x = y)) as [->|Hne].
    + rewrite lookup_singleton_eq. apply IH. intros Hp. apply Hq.
      by apply prefix_cons.
    + by rewrite lookup_singleton_ne.
Qed.

Lemma mkdir_from_frame full n p n' q :
  mkdir_from full n p = Ok n' → ¬ q `prefix_of` p →
  lookup_path n' q = lookup_path n q.
Proof.
  revert n n' q. induction p as [|x p IH]; intros n n' q; simpl; [done|].
  destruct n as [c|es]; [done|].
  destruct q as [|y q]; [intros _ []; apply prefix_nil|].
  destruct (es !! x) as [n0|] eqn:Hx.
  - destruct (mkdir_from full n0 p) as [n1|] eqn:Hrec; simpl; [|done].
    intros [= <-] Hq. simpl. destruct (decide (x = y)) as [->|Hne].
    + rewrite lookup_insert_eq, Hx. eapply IH; [done|].
      intros Hp. apply Hq. by apply prefix_cons.
    + by rewrite lookup_insert_ne.
  - intros [= <-] Hq. simpl. destruct (decide (x = y)) as [->|Hne].
    + rewrite lookup_insert_eq, Hx. apply lookup_path_fresh_dirs.
      intros Hp. apply Hq. by apply prefix_cons.
    + by rewrite lookup_insert_ne.
Qed.

Lemma write_from_frame full n p c n' q :
  write_from full n p c = Ok n' → ¬ q `prefix_of` p →
  lookup_path n' q = lookup_path n q.
Proof.
  revert n n' q. induction p as [|x p IH]; intros n n' q; simpl; [done|].
  destruct n as [c0|es]; [done|].
  destruct q as [|y q]; [intros _ []; apply prefix_nil|].
  destruct p as [|z p].
  - intros Hw Hq. assert (n' = Dir (<[x:=File c]> es)
                          ∧ ∀ es', es !! x ≠ Some (Dir es')) as [-> Hx].
    { destruct (es !! x) as [[|]|]; simplify_eq; done. }
    simpl. destruct (decide (x = y)) as [->|Hne].
    + rewrite lookup_insert_eq.
      assert (q ≠ []) as Hne by (intros ->; by apply Hq).
      rewrite lookup_path_file by done.
      destruct (es !! y) as [[|]|] eqn:Hy; [|by destruct (Hx entries)|done].
      by rewrite lookup_path_file.
    + by rewrite lookup_insert_ne.
  - destruct (es !! x) as [n0|] eqn:Hx; [|done].
    destruct (write_from full n0 (z :: p) c) as [n1|] eqn:Hrec; simpl;
      [|done].
    intros [= <-] Hq. simpl. destruct (decide (x = y)) as [->|Hne].
    + rewrite lookup_insert_eq, Hx. eapply IH; [done|].
      intros Hp. apply Hq. by apply prefix_cons.
    + by rewrite lookup_insert_ne.
Qed.

Lemma changes_within_refl D n : changes_within D n n.
Proof. by intros q _. Qed.

Lemma changes_within_trans D n1 n2 n3 :
  changes_within D n1 n2 → changes_within D n2 n3 → changes_within D n1 n3.
Proof. intros H12 H23 q Hq. by rewrite H23, H12. Qed.

Lemma changes_within_mono (D D' : path → Prop) n n' :
  (∀ d, D d → D' d) → changes_within D n n' → changes_within D' n n'.
Proof. intros HD Hn q Hq. apply Hn. intros d x Hd. by apply Hq, HD. Qed.

Lemma changes_within_mkdir (D : path → Prop) d n n' :
  D d → mkdir_parents n d = Ok n' → changes_within D n n'.
Proof.
  intros Hd Hmk q Hq. eapply mkdir_from_frame; [exact Hmk|].
  intros Hp. apply (Hq d "" Hd). by apply prefix_app_r.
Qed.

Lemma changes_within_write (D : path → Prop) d x c n n' :
  D d → write_file n (joinpath d x) c = Ok n' → changes_within D n n'.
Proof.
  intros Hd Hw q Hq. eapply write_from_frame; [exact Hw|]. by apply Hq.
Qed.

(** Rules of [moves]. *)

Lemma moves_ret {A} n (R : result A → node → Prop) (a : A) :
  R (Ok a) n → moves n R (ret a).
Proof. by intros HR w <-. Qed.

Lemma moves_raise {A} n (R : result A → node → Prop) e :
  R (Err e) n → moves n R (raise e).
Proof. by intros HR w <-. Qed.

Lemma moves_conseq {A} n (R R' : result A → node → Prop) m :
  moves n R m → (∀ r n', R r n' → R' r n') → moves n R' m.
Proof. intros Hm HR w Hw. by apply HR, Hm. Qed.

Lemma moves_bind {A B} n (m : M A) (k : A → M B) R1 R :
  moves n R1 m →
  (∀ e n1, R1 (Err e) n1 → R (Err e) n1) →
  (∀ a n1, R1 (Ok a) n1 → moves n1 R (k a)) →
  moves n R (bind m k).
Proof.
  intros Hm Herr Hk w Hw. specialize (Hm w Hw). unfold bind.
  destruct (m w) as [[a|e] w1]; simpl in *.
  - by eapply Hk.
  - by apply Herr.
Qed.

Lemma moves_assoc {A B C} n (m : M A) (k : A → M B) (k' : B → M C) R :
  moves n R (bind m (λ a, bind (k a) k')) → moves n R (bind (bind m k) k').
Proof.
  intros Hm w Hw. specialize (Hm w Hw). unfold bind in *.
  by destruct (m w) as [[a|e] w1].
Qed.

Lemma moves_emit_bind {B} n e (k : unit → M B) R :
  moves n R (k ()) → moves n R (bind (emit e) k).
Proof. intros Hk w Hw. by apply Hk. Qed.

Lemma moves_ret_bind {A B} n (a : A) (k : A → M B) R :
  moves n R (k a) → moves n R (bind (ret a) k).
Proof. intros Hk w Hw. by apply Hk. Qed.

Lemma moves_raise_bind {A B} n e (k : A → M B) R :
  R (Err e) n → moves n R (bind (raise e) k).
Proof. by intros HR w <-. Qed.

Lemma moves_lift_bind {A B} n (r : result A) (k : A → M B) R :
  (∀ e, r = Err e → R (Err e) n) →
  (∀ a, r = Ok a → moves n R (k a)) →
  moves n R (bind (lift r) k).
Proof.
  intros Herr Hk w Hw. unfold bind, lift. destruct r as [a|e]; simpl.
  - by apply Hk.
  - rewrite Hw. by apply Herr.
Qed.

Lemma moves_call_bind {A B} n callee (o : outcome A) (k : A → M B) R :
  (∀ e, o = Raises e → R (Err (LibraryError callee e)) n) →
  (∀ a, o = Returns a → moves n R (k a)) →
  moves n R (bind (call callee o) k).
Proof.
  intros Herr Hk w Hw. unfold bind, call. destruct o as [a|e]; simpl.
  - by apply Hk.
  - rewrite Hw. by apply Herr.
Qed.

Lemma moves_get_fs_bind {B} n (k : node → M B) R :
  moves n R (k n) → moves n R (bind get_fs k).
Proof. intros Hk w Hw. unfold bind, get_fs. rewrite Hw. by apply Hk. Qed.

Lemma moves_put_fs_bind {B} n n' (k : unit → M B) R :
  moves n' R (k ()) → moves n R (bind (put_fs n') k).
Proof. intros Hk w Hw. by apply Hk. Qed.

Lemma moves_next_seed_bind {B} n (k : nat → M B) R :
  (∀ seed, moves n R (k seed)) → moves n R (bind next_seed k).
Proof. intros Hk w Hw. by apply Hk. Qed.

Lemma moves_for_each {A S} (l : list A) (body : A → S → M S)
    (I : node → Prop) :
  (∀ x s n, x ∈ l → I n → moves n (λ _ n', I n') (body x s)) →
  ∀ s n, I n → moves n (λ _ n', I n') (for_each l s body).
Proof.
  induction l as [|x l IH]; intros Hbody s n Hn; simpl.
  - by apply moves_ret.
  - eapply moves_bind; [apply Hbody; [left|done]|..].
    + by intros e n1 Hn1.
    + intros s' n1 Hn1. apply IH; [|done].
      intros y s0 n0 Hy. apply Hbody. by right.
Qed.

Lemma moves_for_zip cps it (body : string → string → M unit)
    (I : node → Prop) :
  (∀ cp name n, cp ∈ cps → I n → moves n (λ _ n', I n') (body cp name)) →
  ∀ n, I n → moves n (λ _ n', I n') (for_zip cps it body).
Proof.
  revert it. induction cps as [|cp cps IH]; intros it Hbody n Hn; simpl.
  - by apply moves_ret.
  - destruct (next_name it) as [[name it']|]; [|by apply moves_ret].
    eapply moves_bind; [apply Hbody; [left|done]|..].
    + by intros e n1 Hn1.
    + intros [] n1 Hn1. apply IH; [|done].
      intros cp' name' n0 Hcp. apply Hbody. by right.
Qed.
End FsProofs.

Ltac moves_step :=
  cbv beta;
  lazymatch goal with
  | |- moves _ _ (bind (bind _ _) _) => apply moves_assoc
  | |- moves _ _ (bind (emit _) _) => apply moves_emit_bind
  | |- moves _ _ (bind (print _) _) => apply moves_emit_bind
  | |- moves _ _ (bind (ret _) _) => apply moves_ret_bind
  | |- moves _ _ (bind (raise _) _) => apply moves_raise_bind
  | |- moves _ _ (bind (lift _) _) =>
      apply moves_lift_bind; [intros ?e ?Herr | intros ?a ?Hok]
  | |- moves _ _ (bind (call _ _) _) =>
      apply moves_call_bind; [intros ?e ?Herr | intros ?a ?Hok]
  | |- moves _ _ (bind get_fs _) => apply moves_get_fs_bind
  | |- moves _ _ (bind (put_fs _) _) => apply moves_put_fs_bind
  | |- moves _ _ (bind next_seed _) =>
      apply moves_next_seed_bind; intros ?seed
  | |- moves _ _ (bind (rand _) _) => unfold rand
  | |- moves _ _ (bind (store _ _) _) => unfold store
  | |- moves _ _ (bind (export _ _ _ _ _) _) => unfold export
  | |- moves _ _ (bind (read_onnx _ _) _) => unfold read_onnx
  | |- moves _ _ (bind (if ?b then _ else _) _) => destruct b eqn:?
  | |- moves _ _ (bind (match ?x with _ => _ end) _) => destruct x eqn:?
  | |- moves _ _ (match ?x with _ => _ end) => destruct x eqn:?
  | |- moves _ _ (ret _) => apply moves_ret
  | |- moves _ _ (raise _) => apply moves_raise
  end.

Ltac changes_side :=
  repeat match goal with
  | |- changes_within _ ?n ?n => apply changes_within_refl
  | Hw : write_file ?m (joinpath _ _) _ = Ok ?n' |- changes_within _ ?n ?n' =>
      apply (changes_within_trans _ n m n');
      [|by eapply changes_within_write]
  | Hm : mkdir_parents ?m _ = Ok ?n' |- changes_within _ ?n ?n' =>
      apply (changes_within_trans _ n m n');
      [|by eapply changes_within_mkdir]
  end.

Section FsWalks.
Context `{TorchTypes} `{!Libs}.

Lemma export_fold_changes a dyn c ds dataset_json fip name config fold
    params net n :
  moves n (λ _ n', changes_within (λ d, d = fold_dir (output_dir a) c fold)
                     n n')
    (export_fold a dyn c ds dataset_json fip name config (fold, params) net).
Proof.
  unfold export_fold.
  repeat moves_step.
  all: changes_side.
Qed.

Lemma export_checkpoint_keeps a I dyn c ds dir dataset_json fip cp name n :
  kept_by_folds a I → c ∈ configurations a → I n →
  moves n (λ _ n', I n')
    (export_checkpoint a dyn c ds dir dataset_json fip cp name).
Proof.
  intros Hkept Hc Hn. unfold export_checkpoint.
  repeat moves_step; try done.
  eapply moves_bind.
  - apply (moves_for_each _ _ I); [|done].
    intros [fold params] net n0 Hin Hn0. apply Hkept; [done| |done].
    by eapply elem_of_zip_l.
  - by intros e n1 Hn1.
  - intros net n1 Hn1. by apply moves_ret.
Qed.

Lemma export_configuration_keeps a I dyn ds c names n :
  kept_by_folds a I → c ∈ configurations a → I n →
  moves n (λ _ n', I n') (export_configuration a dyn ds c names).
Proof.
  intros Hkept Hc Hn. unfold export_configuration.
  repeat moves_step; try done.
  eapply moves_bind.
  - apply (moves_for_zip _ _ _ I); [|done].
    intros cp name n0 _ Hn0. by apply export_checkpoint_keeps.
  - by intros e n1 Hn1.
  - intros it n1 Hn1. by apply moves_ret.
Qed.

Lemma export_onnx_model_keeps a I n :
  kept_by_folds a I → I n → moves n (λ _ n', I n') (export_onnx_model a).
Proof.
  intros Hkept Hn. unfold export_onnx_model.
  destruct (bool_decide (batch_size a < 0)%Z); [by apply moves_raise|].
  repeat moves_step; try done.
  eapply moves_bind.
  - apply (moves_for_each _ _ I); [|done].
    intros c names n0 Hc Hn0. by apply export_configuration_keeps.
  - by intros e n1 Hn1.
  - intros it n1 Hn1. by apply moves_ret.
Qed.

Lemma changes_within_kept a n0 :
  kept_by_folds a (changes_within (fold_dirs a) n0).
Proof.
  intros dyn c ds dataset_json fip name config fold params net n Hc Hf Hn.
  eapply moves_conseq; [apply export_fold_changes|]. simpl.
  intros _ n' Hn'. eapply changes_within_trans; [exact Hn|].
  eapply changes_within_mono; [|exact Hn']. intros d ->. by exists c, fold.
Qed.

Lemma fold_dir_length out c f : length (fold_dir out c f) = length out + 2.
Proof. unfold fold_dir, joinpath. rewrite !length_app. simpl. lia. Qed.

Lemma fold_dir_not_prefix out c f c0 f0 x :
  fold_dir out c f ≠ fold_dir out c0 f0 →
  ¬ fold_dir out c0 f0 `prefix_of` fold_dir out c f ++ [x].
Proof.
  intros Hne [k Hk].
  assert (length k = 1) as Hlen.
  { apply (f_equal length) in Hk. rewrite !length_app, !fold_dir_length in Hk.
    simpl in Hk. lia. }
  destruct k as [|y [|? ?]]; simplify_eq/=.
  apply app_inj_tail in Hk as [Hk _]. done.
Qed.

(** A fold directory that has an entry is left alone by every fold. *)
Lemma occupied_kept a c0 f0 es :
  es ≠ ∅ →
  kept_by_folds a
    (λ n, lookup_path n (fold_dir (output_dir a) c0 f0) = Some (Dir es)).
Proof.
  intros Hes dyn c ds dataset_json fip name config fold params net n _ _ Hn.
  destruct (decide (fold_dir (output_dir a) c fold
                    = fold_dir (output_dir a) c0 f0)) as [Heq|Hne].
  - intros w Hw. simpl. rewrite <- Heq, <- Hw in Hn.
    destruct (iterdir_nonempty _ _ _ Hn Hes) as (entries & Hit & Hlen).
    assert (exists_ (fs w) (fold_dir (output_dir a) c fold) = true) as Hex
      by (unfold exists_; by rewrite Hn).
    destruct (export_fold_occupied a dyn c ds dataset_json fip name
                config fold params net w entries Hex Hit Hlen)
      as (_ & Hfs & _).
    simpl in Hfs. rewrite Hfs. by rewrite <- Heq.
  - eapply moves_conseq; [apply export_fold_changes|]. simpl.
    intros _ n' Hn'. rewrite <- Hn. apply Hn'.
    intros d x ->. by apply fold_dir_not_prefix.
Qed.
End FsWalks.

Section RunsProofs.
Context `{TorchTypes}.

Lemma runs_ret {A} n (R : result A → node → list event → Prop) (a : A) :
  R (Ok a) n [] → runs n R (ret a).
Proof. intros HR w <-. exists []. by rewrite app_nil_r. Qed.

Lemma runs_raise {A} n (R : result A → node → list event → Prop) e :
  R (Err e) n [] → runs n R (raise e).
Proof. intros HR w <-. exists []. by rewrite app_nil_r. Qed.

Lemma runs_conseq {A} n (R R' : result A → node → list event → Prop) m :
  runs n R m → (∀ r n' Δ, R r n' Δ → R' r n' Δ) → runs n R' m.
Proof.
  intros Hm HR w Hw. destruct (Hm w Hw) as (Δ & Ht & HΔ). exists Δ. eauto.
Qed.

Lemma runs_bind {A B} n (m : M A) (k : A → M B) R1 R :
  runs n R1 m →
  (∀ e n1 Δ1, R1 (Err e) n1 Δ1 → R (Err e) n1 Δ1) →
  (∀ a n1 Δ1, R1 (Ok a) n1 Δ1 →
     runs n1 (λ r n2 Δ2, R r n2 (Δ1 ++ Δ2)) (k a)) →
  runs n R (bind m k).
Proof.
  intros Hm Herr Hk w Hw. destruct (Hm w Hw) as (Δ1 & Ht & HΔ).
  unfold bind. destruct (m w) as [[a|e] w1]; simpl in *.
  - destruct (Hk a _ Δ1 HΔ w1 eq_refl) as (Δ2 & Ht2 & H2).
    exists (Δ1 ++ Δ2). by rewrite Ht2, Ht, app_assoc.
  - exists Δ1. eauto.
Qed.

Lemma runs_assoc {A B C} n (m : M A) (k : A → M B) (k' : B → M C) R :
  runs n R (bind m (λ a, bind (k a) k')) → runs n R (bind (bind m k) k').
Proof.
  intros Hm w Hw. destruct (Hm w Hw) as (Δ & Ht & HΔ). exists Δ.
  unfold bind in *. by destruct (m w) as [[a|e] w1].
Qed.

Lemma runs_emit_bind {B} n e (k : unit → M B) R :
  runs n (λ r n' Δ, R r n' (e :: Δ)) (k ()) → runs n R (bind (emit e) k).
Proof.
  intros Hk w Hw. unfold bind, emit.
  destruct (Hk (World (fs w) (trace w ++ [e]) (rng w)) Hw) as (Δ & Ht & HΔ).
  exists (e :: Δ). split; [|done]. rewrite Ht. simpl. by rewrite <- app_assoc.
Qed.

Lemma runs_ret_bind {A B} n (a : A) (k : A → M B) R :
  runs n R (k a) → runs n R (bind (ret a) k).
Proof. intros Hk w Hw. by apply Hk. Qed.

Lemma runs_raise_bind {A B} n e (k : A → M B) R :
  R (Err e) n [] → runs n R (bind (raise e) k).
Proof. intros HR w <-. exists []. by rewrite app_nil_r. Qed.

Lemma runs_lift_bind {A B} n (r : result A) (k : A → M B) R :
  (∀ e, r = Err e → R (Err e) n []) →
  (∀ a, r = Ok a → runs n R (k a)) →
  runs n R (bind (lift r) k).
Proof.
  intros Herr Hk w Hw. unfold bind, lift. destruct r as [a|e]; simpl.
  - by apply Hk.
  - exists []. rewrite app_nil_r, Hw. eauto.
Qed.

Lemma runs_call_bind {A B} n callee (o : outcome A) (k : A → M B) R :
  (∀ e, o = Raises e → R (Err (LibraryError callee e)) n []) →
  (∀ a, o = Returns a → runs n R (k a)) →
  runs n R (bind (call callee o) k).
Proof.
  intros Herr Hk w Hw. unfold bind, call. destruct o as [a|e]; simpl.
  - by apply Hk.
  - exists []. rewrite app_nil_r, Hw. eauto.
Qed.

Lemma runs_get_fs_bind {B} n (k : node → M B) R :
  runs n R (k n) → runs n R (bind get_fs k).
Proof. intros Hk w Hw. unfold bind, get_fs. rewrite Hw. by apply Hk. Qed.

Lemma runs_put_fs_bind {B} n n' (k : unit → M B) R :
  runs n' R (k ()) → runs n R (bind (put_fs n') k).
Proof. intros Hk w Hw. by apply (Hk (World n' (trace w) (rng w))). Qed.

Lemma runs_next_seed_bind {B} n (k : nat → M B) R :
  (∀ seed, runs n R (k seed)) → runs n R (bind next_seed k).
Proof.
  intros Hk w Hw. by apply (Hk (rng w) (World (fs w) (trace w) (S (rng w)))).
Qed.

(** Loops: [J] holds of the file system and of the events so far. *)
Lemma runs_for_each {A S} (l : list A) (body : A → S → M S)
    (J : node → list event → Prop) :
  (∀ x s n Δ0, x ∈ l → J n Δ0 →
     runs n (λ _ n' Δ1, J n' (Δ0 ++ Δ1)) (body x s)) →
  ∀ s n Δ0, J n Δ0 →
  runs n (λ _ n' Δ1, J n' (Δ0 ++ Δ1)) (for_each l s body).
Proof.
  induction l as [|x l IH]; intros Hbody s n Δ0 Hn; simpl.
  - apply runs_ret. by rewrite app_nil_r.
  - eapply runs_bind; [apply Hbody; [left|exact Hn]|..].
    + by intros e n1 Δ1 Hn1.
    + intros s' n1 Δ1 Hn1. eapply runs_conseq.
      * apply IH; [|exact Hn1]. intros y s0 n0 Δ Hy. apply Hbody. by right.
      * intros r n2 Δ2. simpl. by rewrite app_assoc.
Qed.

Lemma runs_for_zip cps it (body : string → string → M unit)
    (J : node → list event → Prop) :
  (∀ cp name n Δ0, cp ∈ cps → J n Δ0 →
     runs n (λ _ n' Δ1, J n' (Δ0 ++ Δ1)) (body cp name)) →
  ∀ n Δ0, J n Δ0 →
  runs n (λ _ n' Δ1, J n' (Δ0 ++ Δ1)) (for_zip cps it body).
Proof.
  revert it. induction cps as [|cp cps IH]; intros it Hbody n Δ0 Hn; simpl.
  - apply runs_ret. by rewrite app_nil_r.
  - destruct (next_name it) as [[name it']|];
      [|apply runs_ret; by rewrite app_nil_r].
    eapply runs_bind; [apply Hbody; [left|exact Hn]|..].
    + by intros e n1 Δ1 Hn1.
    + intros [] n1 Δ1 Hn1. eapply runs_conseq.
      * apply IH; [|exact Hn1]. intros cp' nm n0 Δ Hy. apply Hbody. by right.
      * intros r n2 Δ2. simpl. by rewrite app_assoc.
Qed.

(** Reading back what was written. *)

Lemma write_from_lookup full n p c n' :
  write_from full n p c = Ok n' → lookup_path n' p = Some (File c).
Proof.
  revert n n'. induction p as [|x p IH]; intros n n'; simpl; [done|].
  destruct n as [c0|es]; [done|]. destruct p as [|z p].
  - intros Hw. assert (n' = Dir (<[x:=File c]> es)) as ->.
    { destruct (es !! x) as [[|]|]; by simplify_eq. }
    simpl. by rewrite lookup_insert_eq.
  - destruct (es !! x) as [n0|] eqn:Hx; [|done].
    destruct (write_from full n0 (z :: p) c) as [n1|] eqn:Hrec; simpl;
      [|done].
    intros [= <-]. cbn [lookup_path]. rewrite lookup_insert_eq.
    by apply (IH n0).
Qed.

Lemma write_from_below full es x z p c :
  write_from full (Dir es) (x :: z :: p) c
  = match es !! x with
    | Some n' =>
        rbind (write_from full n' (z :: p) c)
              (λ n'', Ok (Dir (<[x := n'']> es)))
    | None => Err (FileNotFoundError full)
    end.
Proof. reflexivity. Qed.

Lemma write_from_again full n p c c' n' :
  write_from full n p c = Ok n' → is_ok (write_from full n' p c') = true.
Proof.
  revert n n'. induction p as [|x p IH]; intros n n' Hw; [done|].
  destruct n as [c0|es]; [done|]. destruct p as [|z p].
  - assert (n' = Dir (<[x:=File c]> es)) as ->.
    { simpl in Hw. destruct (es !! x) as [[|]|]; by simplify_eq. }
    simpl. by rewrite lookup_insert_eq.
  - rewrite write_from_below in Hw.
    destruct (es !! x) as [n0|] eqn:Hx; [|done].
    destruct (write_from full n0 (z :: p) c) as [n1|] eqn:Hrec; [|done].
    injection Hw as <-. rewrite write_from_below, lookup_insert_eq.
    specialize (IH _ _ Hrec).
    by destruct (write_from full n1 (z :: p) c').
Qed.
End RunsProofs.

Section DeliveredProofs.
Context `{TorchTypes}.

Lemma no_dump_elem_of Δ p j : no_dump Δ = true → EvJsonDump p j ∉ Δ.
Proof.
  intros Hno Hin. unfold no_dump in Hno. rewrite forallb_forall in Hno.
  apply list_elem_of_In in Hin. by specialize (Hno _ Hin).
Qed.

Lemma delivered_nil out n : delivered out n [].
Proof. intros p j Hin. by apply elem_of_nil in Hin. Qed.

(** Events that are not dumps change nothing. *)
Lemma delivered_nodump out n Δ0 Δ1 :
  delivered out n Δ0 → no_dump Δ1 = true → delivered out n (Δ0 ++ Δ1).
Proof.
  intros H0 Hno p j [Hin|Hin]%elem_of_app.
  - destruct (H0 p j Hin) as (c & f & name & x & dyn & ? & ? & ? & ?).
    exists c, f, name, x, dyn. split_and!; [done..| |done].
    apply elem_of_app. by left.
  - by apply no_dump_elem_of in Hin.
Qed.

Lemma joinpath_prefix (d d' : path) x y :
  length d = length d' →
  joinpath d x `prefix_of` d' ++ [y] → d = d' ∧ x = y.
Proof.
  intros Hlen [k Hk]. unfold joinpath in Hk.
  assert (k = []) as ->.
  { apply (f_equal length) in Hk. rewrite !length_app in Hk. simpl in Hk.
    destruct k; [done|simpl in Hk; lia]. }
  rewrite app_nil_r in Hk. by apply app_inj_tail in Hk as [-> ->].
Qed.

Lemma fold_dir_same_length out c f c' f' :
  length (fold_dir out c f) = length (fold_dir out c' f').
Proof. unfold fold_dir, joinpath. rewrite !length_app. done. Qed.

Lemma lookup_path_below n d x y v :
  lookup_path n (joinpath d x) = Some v → lookup_path n (joinpath d y) = None →
  ∃ es, lookup_path n d = Some (Dir es).
Proof.
  unfold joinpath. rewrite !lookup_path_app.
  destruct (lookup_path n d) as [[c|es]|]; simpl; [done| |done]. by exists es.
Qed.

(** What is delivered stays, when a fold works in a directory that had no
    config.json. *)
Lemma delivered_kept out c f n n' Δ0 Δ1 :
  delivered out n Δ0 →
  lookup_path n (fold_dir out c f) ≫= (λ d, lookup_path d ["config.json"])
    = None →
  changes_within (λ d, d = fold_dir out c f) n n' →
  no_dump Δ1 = true →
  delivered out n' (Δ0 ++ Δ1).
Proof.
  intros H0 Hfree Hch Hno p j [Hin|Hin]%elem_of_app;
    [|by apply no_dump_elem_of in Hin].
  destruct (H0 p j Hin) as (c0 & f0 & name & x & dyn & -> & Hcfg & Hex & Hart).
  assert (fold_dir out c0 f0 ≠ fold_dir out c f) as Hne.
  { intros Heq. unfold joinpath in Hcfg.
    rewrite lookup_path_app, Heq, Hfree in Hcfg. done. }
  exists c0, f0, name, x, dyn. split_and!; [done| | |].
  - rewrite <- Hcfg. apply Hch. intros d y -> Hp.
    apply joinpath_prefix in Hp as [? _]; [done|].
    apply fold_dir_same_length.
  - apply elem_of_app. by left.
  - intros Hname. destruct (Hart Hname) as [b Hb]. exists b.
    rewrite <- Hb. apply Hch. intros d y -> Hp.
    apply joinpath_prefix in Hp as [? _]; [done|].
    apply fold_dir_same_length.
Qed.

(** What a completed fold delivers. *)
Lemma delivered_done out c f name n n1 n2 n3 n4 b j x dyn Δ0 Δ1 :
  delivered out n Δ0 →
  write_file n3 (joinpath (fold_dir out c f) "config.json") (JsonDoc j)
    = Ok n4 →
  write_file n2 (joinpath (fold_dir out c f) "config.json") (Text "")
    = Ok n3 →
  write_file n1 (joinpath (fold_dir out c f) name) (OnnxFile b) = Ok n2 →
  changes_within (λ d, d = fold_dir out c f) n n1 →
  lookup_path n (fold_dir out c f) ≫= (λ d, lookup_path d ["config.json"])
    = None →
  EvExport (joinpath (fold_dir out c f) name) x dyn ∈ Δ1 →
  (∀ p' j', EvJsonDump p' j' ∈ Δ1 →
     p' = joinpath (fold_dir out c f) "config.json" ∧ j' = j) →
  delivered out n4 (Δ0 ++ Δ1).
Proof.
  intros H0 Hw4 Hw3 Hw2 Hch Hfree Hex Hdump.
  assert (changes_within (λ d, d = fold_dir out c f) n n4) as Hch4.
  { eapply changes_within_trans; [exact Hch|].
    eapply changes_within_trans; [by eapply changes_within_write|].
    eapply changes_within_trans; by eapply changes_within_write. }
  intros p' j' [Hin|Hin]%elem_of_app.
  - destruct (delivered_kept out c f n n4 Δ0 [] H0 Hfree Hch4 eq_refl p' j')
      as (c0 & f0 & name0 & x0 & dyn0 & ? & ? & Hex0 & ?).
    { rewrite app_nil_r. done. }
    exists c0, f0, name0, x0, dyn0. split_and!; [done..| |done].
    rewrite app_nil_r in Hex0. apply elem_of_app. by left.
  - destruct (Hdump _ _ Hin) as [-> ->].
    exists c, f, name, x, dyn. split_and!; [done| | |].
    + by eapply write_from_lookup.
    + apply elem_of_app. by right.
    + intros Hname. exists b.
      rewrite (write_from_frame _ _ _ _ _ _ Hw4),
              (write_from_frame _ _ _ _ _ _ Hw3).
      * by eapply write_from_lookup.
      * intros Hp. apply (joinpath_prefix _ _ _ "config.json") in Hp
          as [_ ?]; done.
      * intros Hp. apply (joinpath_prefix _ _ _ "config.json") in Hp
          as [_ ?]; done.
Qed.

Lemma free_of_missing n d :
  negb (exists_ n d) = true →
  lookup_path n d ≫= (λ d', lookup_path d' ["config.json"]) = None.
Proof. unfold exists_. by destruct (lookup_path n d). Qed.

Lemma free_of_empty n d entries :
  iterdir n d = Ok entries → bool_decide (0 < length entries) = false →
  lookup_path n d ≫= (λ d', lookup_path d' ["config.json"]) = None.
Proof.
  unfold iterdir. destruct (lookup_path n d) as [[c|es]|]; [done| |done].
  intros [= <-] Hlen%bool_decide_eq_false. simpl.
  rewrite length_fmap in Hlen.
  destruct (map_to_list es) as [|kv l] eqn:Hl; [|simpl in Hlen; lia].
  apply map_to_list_empty_iff in Hl as ->. by rewrite lookup_empty.
Qed.
End DeliveredProofs.

Ltac runs_step :=
  cbv beta;
  lazymatch goal with
  | |- runs _ _ (bind (bind _ _) _) => apply runs_assoc
  | |- runs _ _ (bind (emit _) _) => apply runs_emit_bind
  | |- runs _ _ (bind (print _) _) => apply runs_emit_bind
  | |- runs _ _ (bind (ret _) _) => apply runs_ret_bind
  | |- runs _ _ (bind (raise _) _) => apply runs_raise_bind
  | |- runs _ _ (bind (lift _) _) =>
      apply runs_lift_bind; [intros ?e ?Herr | intros ?a ?Hok]
  | |- runs _ _ (bind (call _ _) _) =>
      apply runs_call_bind; [intros ?e ?Herr | intros ?a ?Hok]
  | |- runs _ _ (bind get_fs _) => apply runs_get_fs_bind
  | |- runs _ _ (bind (put_fs _) _) => apply runs_put_fs_bind
  | |- runs _ _ (bind next_seed _) =>
      apply runs_next_seed_bind; intros ?seed
  | |- runs _ _ (bind (rand _) _) => unfold rand
  | |- runs _ _ (bind (store _ _) _) => unfold store
  | |- runs _ _ (bind (export _ _ _ _ _) _) => unfold export
  | |- runs _ _ (bind (read_onnx _ _) _) => unfold read_onnx
  | |- runs _ _ (bind (if ?b then _ else _) _) => destruct b eqn:?
  | |- runs _ _ (bind (match ?x with _ => _ end) _) => destruct x eqn:?
  | |- runs _ _ (match ?x with _ => _ end) => destruct x eqn:?
  | |- runs _ _ (ret _) => apply runs_ret
  | |- runs _ _ (raise _) => apply runs_raise
  end.

Ltac free_side :=
  first [ by eapply free_of_missing | by eapply free_of_empty ].

Ltac events_side :=
  first
    [ by repeat first [ apply list_elem_of_here | apply list_elem_of_further ]
    | let Hin := fresh in
      intros ? ? Hin;
      repeat (apply elem_of_cons in Hin as [Hin|Hin];
              [by simplify_eq|]);
      by apply elem_of_nil in Hin ].

Ltac delivered_side :=
  first
    [ by apply delivered_nodump
    | exfalso;
      match goal with
      | Hok : write_file ?n ?p _ = Ok ?n',
        Herr : write_file ?n' ?p ?c' = Err _ |- _ =>
          let Hag := fresh in
          pose proof (write_from_again p n p _ c' n' Hok) as Hag;
          unfold write_file in Herr; rewrite Herr in Hag; discriminate Hag
      end
    | eapply delivered_kept; [eassumption|free_side|changes_side|reflexivity]
    | eapply delivered_done;
      [eassumption|eassumption|eassumption|eassumption
      |changes_side|free_side|events_side|events_side] ].

Section Delivery.
Context `{TorchTypes} `{!Libs}.

Lemma export_fold_delivers a dyn c ds dataset_json fip name config fold
    params net n Δ0 :
  delivered (output_dir a) n Δ0 →
  runs n (λ _ n' Δ1, delivered (output_dir a) n' (Δ0 ++ Δ1))
    (export_fold a dyn c ds dataset_json fip name config (fold, params) net).
Proof.
  intros Hold. unfold export_fold.
  repeat runs_step.
  all: delivered_side.
Qed.
(** A loop over deliveries, entered after events that are not dumps. *)
Lemma runs_deliveries {A B} out n Δ0 pre (m : M A) (k : A → B) :
  delivered out n Δ0 → no_dump pre = true →
  (∀ Δ, delivered out n Δ →
     runs n (λ _ n' Δ1, delivered out n' (Δ ++ Δ1)) m) →
  runs n (λ _ n' Δ1, delivered out n' (Δ0 ++ pre ++ Δ1))
    (bind m (λ x, ret (k x))).
Proof.
  intros Hold Hpre Hm. eapply runs_bind.
  - apply Hm. by apply delivered_nodump.
  - intros e n1 Δ1 H1. cbv beta in H1. by rewrite <- app_assoc in H1.
  - intros x n1 Δ1 H1. cbv beta in H1. apply runs_ret.
    by rewrite app_nil_r, app_assoc.
Qed.

Lemma export_checkpoint_delivers a dyn c ds dir dataset_json fip cp name
    n Δ0 :
  delivered (output_dir a) n Δ0 →
  runs n (λ _ n' Δ1, delivered (output_dir a) n' (Δ0 ++ Δ1))
    (export_checkpoint a dyn c ds dir dataset_json fip cp name).
Proof.
  intros Hold. unfold export_checkpoint.
  repeat runs_step; try delivered_side.
  apply (runs_deliveries _ _ _ [_]); [done..|].
  intros Δ HΔ. apply (runs_for_each _ _ (delivered (output_dir a))); [|done].
  intros [fold params] net n0 Δ' _ Hn0. by apply export_fold_delivers.
Qed.

Lemma export_configuration_delivers a dyn ds c names n Δ0 :
  delivered (output_dir a) n Δ0 →
  runs n (λ _ n' Δ1, delivered (output_dir a) n' (Δ0 ++ Δ1))
    (export_configuration a dyn ds c names).
Proof.
  intros Hold. unfold export_configuration.
  repeat runs_step; try delivered_side.
  apply (runs_deliveries _ _ _ [_; _; _; _; _]); [done..|].
  intros Δ HΔ.
  apply (runs_for_zip _ _ _ (delivered (output_dir a))); [|done].
  intros cp name n0 Δ' _ Hn0. by apply export_checkpoint_delivers.
Qed.

Lemma export_onnx_model_delivers a n :
  runs n (λ _ n' Δ, delivered (output_dir a) n' Δ) (export_onnx_model a).
Proof.
  unfold export_onnx_model.
  destruct (bool_decide (batch_size a < 0)%Z).
  { apply runs_raise, delivered_nil. }
  pose proof (delivered_nil (output_dir a) n) as Hold.
  eapply runs_conseq with
    (R := λ _ n' Δ1, delivered (output_dir a) n' ([] ++ Δ1)); [|done].
  repeat runs_step; try delivered_side.
  apply (runs_deliveries _ _ _ [_]); [done..|].
  intros Δ HΔ.
  apply (runs_for_each _ _ (delivered (output_dir a))); [|done].
  intros c names n0 Δ' _ Hn0. by apply export_configuration_delivers.
Qed.
End Delivery.

Section LayoutTheorems.
Context `{TorchTypes} `{!Libs}.

Lemma fold_dir_components out c f name :
  joinpath (fold_dir out c f) name = out ++ [c; "fold_" +:+ py_str f; name].
Proof. unfold fold_dir, joinpath. by rewrite <- !app_assoc. Qed.

Lemma fold_dir_unfold out c f :
  fold_dir out c f = out ++ [c; "fold_" +:+ py_str f].
Proof. unfold fold_dir, joinpath. by rewrite <- !app_assoc. Qed.

Lemma well_placed_of_run a w :
  ∃ Δ, trace (export_onnx_model a w).2 = trace w ++ Δ
       ∧ guarded (well_placed (output_dir a) (run_scope a)) [] Δ.
Proof.
  destruct (export_onnx_model_well_placed a w) as (Δ & Ht & HΔ & _).
  by exists Δ.
Qed.

Lemma delivered_of_run a w :
  ∃ Δ, trace (export_onnx_model a w).2 = trace w ++ Δ
       ∧ guarded (well_placed (output_dir a) (run_scope a)) [] Δ
       ∧ delivered (output_dir a) (fs (export_onnx_model a w).2) Δ.
Proof.
  destruct (well_placed_of_run a w) as (Δ & Ht & HΔ).
  destruct (export_onnx_model_delivers a (fs w) w eq_refl) as (Δ' & Ht' & Hd).
  assert (Δ' = Δ) as -> by (rewrite Ht in Ht'; by simplify_list_eq).
  by exists Δ.
Qed.

(** C4. Whatever the state of the file system, for arguments whose
    names are plain (the components of the output directory, the
    configurations, the directory names of the folds and the artifact
    names are single path components):
    - every call of a run that touches the output tree is directed into a
      directory [output_dir/c/fold_f] of a requested configuration [c] and
      a requested fold [f]: that directory is the one created, the artifact
      is exported to a file of that directory, and the metadata file opened
      and dumped is its [config.json];
    - when the run ends, each metadata file that was dumped is there, in
      the [config.json] of its directory [output_dir/c/fold_f], and beside
      it the artifact exported into that directory (unless the artifact
      was itself named config.json);
    - the run changes the file system nowhere else: a path that is neither
      an entry of such a directory, nor the directory, nor one of its
      ancestors, holds after the run what it held before. *)
Theorem C4_output_directory_scheme (a : args) (w : world)
    (Hplain : plain_args a = true) :
  (∃ Δ, trace (export_onnx_model a w).2 = trace w ++ Δ ∧
     (∀ e, e ∈ Δ →
        match e with
        | EvMkdir p =>
            ∃ c f, c ∈ configurations a ∧ f ∈ folds a ∧
                   p = output_dir a ++ [c; "fold_" +:+ py_str f]
        | EvExport p _ _ =>
            ∃ c f name, c ∈ configurations a ∧ f ∈ folds a ∧
                        p = output_dir a ++ [c; "fold_" +:+ py_str f; name]
        | EvOpenW p | EvJsonDump p _ =>
            ∃ c f, c ∈ configurations a ∧ f ∈ folds a ∧
                   p = output_dir a
                       ++ [c; "fold_" +:+ py_str f; "config.json"]
        | _ => True
        end)
     ∧ (∀ p j, EvJsonDump p j ∈ Δ →
          ∃ c f name x dyn,
            p = output_dir a ++ [c; "fold_" +:+ py_str f; "config.json"]
            ∧ lookup_path (fs (export_onnx_model a w).2) p
              = Some (File (JsonDoc j))
            ∧ EvExport (output_dir a ++ [c; "fold_" +:+ py_str f; name])
                x dyn ∈ Δ
            ∧ (name ≠ "config.json" →
               ∃ b, lookup_path (fs (export_onnx_model a w).2)
                      (output_dir a ++ [c; "fold_" +:+ py_str f; name])
                    = Some (File (OnnxFile b)))))
  ∧ (∀ q,
       (∀ c f x, c ∈ configurations a → f ∈ folds a →
          ¬ q `prefix_of` output_dir a ++ [c; "fold_" +:+ py_str f; x]) →
       lookup_path (fs (export_onnx_model a w).2) q = lookup_path (fs w) q).
Proof.
  split.
  - destruct (delivered_of_run a w) as (Δ & Ht & HΔ & Hd).
    exists Δ. split_and!; [done| |].
    + intros e [pre [post ->]]%list_elem_of_split.
      pose proof (guarded_split _ _ _ _ _ HΔ eq_refl) as He.
      destruct e; simpl in He; try done.
      * destruct He as (c & f & ? & ? & ->). exists c, f.
        by rewrite fold_dir_unfold.
      * destruct He as [(c & f & name & ? & ? & ? & ->) _].
        exists c, f, name. by rewrite fold_dir_components.
      * destruct He as (c & f & name & ctx & params & x & dyn & m & s & nm
                        & y & o & ? & ? & ? & ? & -> & ?).
        exists c, f. by rewrite fold_dir_components.
      * destruct He as (c & f & name & ctx & params & x & dyn & m & s & nm
                        & y & o & ? & ? & ? & ? & -> & ?).
        exists c, f. by rewrite fold_dir_components.
    + intros p j Hin.
      destruct (Hd p j Hin) as (c & f & name & x & dyn & -> & ? & ? & ?).
      exists c, f, name, x, dyn. by rewrite <- !fold_dir_components.
  - intros q Hq.
    apply (export_onnx_model_keeps a (changes_within (fold_dirs a) (fs w))
             (fs w) (changes_within_kept a (fs w))
             (changes_within_refl _ _) w eq_refl).
    intros d x (c & f & Hc & Hf & ->).
    change (fold_dir (output_dir a) c f ++ [x])
      with (joinpath (fold_dir (output_dir a) c f) x).
    rewrite fold_dir_components. by apply Hq.
Qed.

(** C7. In every run, when the metadata file of a configuration/fold
    pair is opened, and when the metadata is dumped into it, the
    following calls have been made before, in this order: the dataset
    name and the folder of the trained configuration were resolved, the
    predictor was initialised from that folder, the parameters were loaded
    into the network, the network was run and exported to the artifact of
    that pair's directory, the artifact was loaded, checked, opened in a
    session and run, and the two outputs were compared. *)
Theorem C7_metadata_written_last (a : args) (w : world) :
  ∃ Δ, trace (export_onnx_model a w).2 = trace w ++ Δ ∧
    ∀ pre e post p,
      Δ = pre ++ e :: post →
      e = EvOpenW p ∨ (∃ j, e = EvJsonDump p j) →
      ∃ c f name ds dir cp params x dyn m s input_name y o,
        c ∈ configurations a ∧ f ∈ folds a ∧
        p = joinpath (fold_dir (output_dir a) c f) "config.json" ∧
        [EvDatasetName (dataset_name_or_id a);
         EvOutputFolder ds (trainer a) (plans_identifier a) c;
         EvInitPredictor dir (folds a) cp]
        ++ fold_script (fold_dir (output_dir a) c f) name params x dyn m s
             input_name y o
        `sublist_of` pre.
Proof.
  destruct (well_placed_of_run a w) as (Δ & Ht & HΔ).
  exists Δ. split; [done|]. intros pre e post p -> He.
  pose proof (guarded_split _ _ _ _ _ HΔ eq_refl) as Hpl.
  destruct He as [->|[j ->]]; simpl in Hpl.
  - destruct Hpl as (c & f & name & ctx & params & x & dyn & m & s & nm & y
                     & o & ? & ? & ? & (ds & dir & cp & ? & ->) & -> & ?).
    by exists c, f, name, ds, dir, cp, params, x, dyn, m, s, nm, y, o.
  - destruct Hpl as (c & f & name & ctx & params & x & dyn & m & s & nm & y
                     & o & ? & ? & ? & (ds & dir & cp & ? & ->) & -> & ?
                     & ? & ? & Hsub).
    exists c, f, name, ds, dir, cp, params, x, dyn, m, s, nm, y, o.
    split_and!; try done.
    etrans; [|exact Hsub]. solve_sublist.
Qed.

(** C8. In every run, each call of the exporter is made with the input
    that was just fed to the network, and it is followed, in this order,
    by loading the exported file, checking the loaded model, creating a
    session on the file with the CPU provider, and running that session
    on the same input.  The sequence stops early only where one of these
    calls raises, which ends the run with that error. *)
Theorem C8_artifact_reloaded_and_validated (a : args) (w : world) :
  ∃ Δ, trace (export_onnx_model a w).2 = trace w ++ Δ ∧
    ∀ pre p x dyn post,
      Δ = pre ++ EvExport p x dyn :: post →
      last pre = Some (EvForward x) ∧
      ((∃ m s input_name rest,
          post = EvOnnxLoad p :: EvCheckModel m
                 :: EvSession p ["CPUExecutionProvider"] :: EvGetInputs s
                 :: EvSessionRun s [(input_name, x)] :: rest)
       ∨ (is_Some (raised (export_onnx_model a w).1) ∧ cut_short p post)).
Proof.
  destruct (export_onnx_model_well_placed a w) as (Δ & Ht & HΔ & _).
  destruct (export_onnx_model_validates a w) as (Δ' & Ht' & HΔ').
  assert (Δ' = Δ) as -> by (rewrite Ht in Ht'; by simplify_list_eq).
  exists Δ. split; [done|]. intros pre p x dyn post ->. split.
  - pose proof (guarded_split _ _ _ _ _ HΔ eq_refl) as Hpl. simpl in Hpl.
    tauto.
  - exact (followed_split _ _ _ _ _ HΔ' eq_refl).
Qed.

End LayoutTheorems.

Section DefaultNames.
Context `{TorchTypes} `{!Libs}.

Lemma substring_0_0 s : String.substring 0 0 s = "".
Proof. by destruct s. Qed.




Lemma for_zip_fresh_generator cps (body : string → string → M unit) w :
  let r1 := for_zip cps (NamesGenerator cps) body w in
  let r2 := for_each cps () (λ cp _, body cp (derived_name cp)) w in
  r1.2 = r2.2 ∧ raised r1.1 = raised r2.1
  ∧ (is_ok r1.1 = true → r1.1 = Ok (NamesGenerator [])).
Proof.
  revert w. induction cps as [|cp cps IH]; intros w; simpl.
  - done.
  - unfold bind.
    destruct (body cp (derived_name cp) w) as [[[]|e] w1]; simpl.
    + apply IH.
    + done.
Qed.


End DefaultNames.

(* ================================================================== *)
(** ** The ValueError of the batch size *)

Section Benign.
Context `{TorchTypes}.

Lemma rbind_benign {A B} (r : result A) (k : A → result B) :
  benign r → (∀ a, benign (k a)) → benign (rbind r k).
Proof.
  intros Hr Hk e. destruct r as [a|e']; simpl.
  - apply Hk.
  - intros [= <-]. by apply Hr.
Qed.

Lemma mkdir_from_benign full n p : benign (mkdir_from full n p).
Proof.
  revert n. induction p as [|x p IH]; intros n; simpl.
  - (intros e ?; by simplify_eq).
  - destruct n as [c|es]; [(intros e ?; by simplify_eq)|].
    destruct (es !! x) as [n'|]; [|done].
    apply rbind_benign; [apply IH|done].
Qed.

Lemma write_from_benign full n p c : benign (write_from full n p c).
Proof.
  revert n. induction p as [|x p IH]; intros n; simpl.
  - (intros e ?; by simplify_eq).
  - destruct n as [c'|es]; [(intros e ?; by simplify_eq)|].
    destruct p as [|y p].
    + destruct (es !! x) as [[|]|]; (intros e ?; by simplify_eq).
    + destruct (es !! x) as [n'|]; [|(intros e ?; by simplify_eq)].
      apply rbind_benign; [apply IH|done].
Qed.

Lemma read_file_benign n p : benign (read_file n p).
Proof.
  unfold read_file. destruct (lookup_path n p) as [[|]|]; (intros e ?; by simplify_eq).
Qed.

Lemma iterdir_benign n p : benign (iterdir n p).
Proof.
  unfold iterdir. destruct (lookup_path n p) as [[|]|]; (intros e ?; by simplify_eq).
Qed.

Lemma load_json_from_benign n p : benign (load_json_from n p).
Proof.
  unfold load_json_from. apply rbind_benign; [apply read_file_benign|].
  intros [| |]; (intros e ?; by simplify_eq).
Qed.

Lemma subscript_benign j k : benign (subscript j k).
Proof.
  unfold subscript, benign. destruct j; simpl; try (intros e ?; by simplify_eq).
  destruct (dict_get k members); (intros e ?; by simplify_eq).
Qed.

Lemma items_benign j : benign (items j).
Proof. unfold benign. destruct j; simpl; intros e ?; by simplify_eq. Qed.

Lemma len_keys_benign j : benign (len_keys j).
Proof. unfold benign. destruct j; simpl; intros e ?; by simplify_eq. Qed.

Lemma channels_dict_benign fip names acc :
  benign (channels_dict fip names acc).
Proof.
  revert acc. induction names as [|[k v] names IH]; intros acc; simpl.
  - done.
  - apply rbind_benign; [apply subscript_benign|]. intros props. apply IH.
Qed.

Lemma class_names_dict_benign labels acc :
  benign (class_names_dict labels acc).
Proof.
  revert acc. induction labels as [|[k v] labels IH]; intros acc; simpl.
  - done.
  - apply rbind_benign; [|intros key; apply IH].
    unfold benign. destruct v as [|[]| | | | |]; simpl; intros e ?; by simplify_eq.
Qed.

Lemma config_dict_benign c fold bs dyn config ds dataset_json fip :
  benign (config_dict c fold bs dyn config ds dataset_json fip).
Proof.
  unfold config_dict.
  repeat (apply rbind_benign;
          [first [ apply subscript_benign | apply len_keys_benign
                 | apply items_benign | apply channels_dict_benign
                 | apply class_names_dict_benign ]
          |intros ?]).
  done.
Qed.

End Benign.

Create HintDb benign.

#[global] Hint Resolve mkdir_from_benign write_from_benign read_file_benign
  iterdir_benign load_json_from_benign subscript_benign config_dict_benign
  : benign.

Ltac benign_side :=
  simpl; try done;
  match goal with
  | Herr : ?r = Err ?e |- _ =>
      let Hb := fresh in
      assert (benign r) as Hb
        by (unfold mkdir_parents, write_file; auto with benign);
      intros ? [= <-]; exact (Hb _ Herr)
  | |- _ => by intros ? [= <-]
  end.

Section ValueErrors.
Context `{TorchTypes} `{!Libs}.

Lemma no_value_error_closed : loop_closed no_value_error.
Proof. split; [done|]. by intros Δ1 o Δ2 _ Ho. Qed.

Lemma export_fold_benign a dyn c ds dataset_json fip name config fp net :
  produces (export_fold a dyn c ds dataset_json fip name config fp net)
    (λ r Δ, no_value_error (raised r) Δ ∧ ∀ s', r = Ok s' → True).
Proof.
  unfold export_fold. destruct fp as [fold params].
  repeat walk_step.
  all: split; [|done]; unfold no_value_error; benign_side.
Qed.

Lemma export_checkpoint_benign a dyn c ds dir dataset_json fip cp name :
  produces (export_checkpoint a dyn c ds dir dataset_json fip cp name)
    (λ r Δ, no_value_error (raised r) Δ).
Proof.
  unfold export_checkpoint. repeat walk_step.
  { unfold no_value_error. benign_side. }
  eapply produces_bind.
  - apply (produces_for_each _ _ no_value_error (λ _, True));
      [apply no_value_error_closed| |done].
    intros fp net _ _. apply export_fold_benign.
  - by intros e Δ [HΔ _].
  - intros net Δ1 _. repeat walk_step. done.
Qed.

Lemma export_configuration_benign a dyn ds c names :
  produces (export_configuration a dyn ds c names)
    (λ r Δ, no_value_error (raised r) Δ ∧ ∀ s', r = Ok s' → True).
Proof.
  unfold export_configuration. repeat walk_step.
  all: try (split; [|done]; unfold no_value_error; benign_side).
  eapply produces_bind.
  - apply (produces_for_zip _ _ no_value_error (λ _, True));
      [apply no_value_error_closed|done| |done].
    intros cp it name it' _ _ _. apply export_checkpoint_benign.
  - by intros e Δ [HΔ _].
  - intros it Δ1 _. repeat walk_step. done.
Qed.

Lemma export_onnx_model_benign a :
  (0 ≤ batch_size a)%Z →
  produces (export_onnx_model a) (λ r Δ, no_value_error (raised r) Δ).
Proof.
  intros Hbs. unfold export_onnx_model.
  rewrite bool_decide_eq_false_2 by lia.
  repeat walk_step.
  { unfold no_value_error. benign_side. }
  eapply produces_bind.
  - apply (produces_for_each _ _ no_value_error (λ _, True));
      [apply no_value_error_closed| |done].
    intros c names _ _. apply export_configuration_benign.
  - by intros e Δ [HΔ _].
  - intros it Δ1 _. repeat walk_step. done.
Qed.

(** C9 (amended). The function itself raises a [ValueError] exactly when
    [batch_size] is negative; it is then the error "batch_size must be
    non-negative", raised with the world as it was: nothing has been
    resolved, loaded, printed or written.  With a [batch_size] that is not
    negative, an exception that is a [ValueError] comes from the decoding
    of a JSON file or out of a library call. *)
Theorem C9_negative_batch_size (a : args) (w : world) :
  ((∃ msg, (export_onnx_model a w).1 = Err (ValueError msg))
   ↔ (batch_size a < 0)%Z)
  ∧ ((batch_size a < 0)%Z →
     export_onnx_model a w
     = (Err (ValueError "batch_size must be non-negative"), w))
  ∧ ((0 ≤ batch_size a)%Z →
     ∀ e, (export_onnx_model a w).1 = Err e → is_value_error e = true →
          (∃ p, e = JSONDecodeError p)
          ∨ (∃ callee e', e = LibraryError callee e')).
Proof.
  assert ((batch_size a < 0)%Z →
          export_onnx_model a w
          = (Err (ValueError "batch_size must be non-negative"), w)) as Hneg.
  { intros Hbs. unfold export_onnx_model.
    by rewrite bool_decide_eq_true_2. }
  split_and!; [split|done|].
  - intros [msg Hmsg]. destruct (decide (batch_size a < 0)%Z); [done|].
    destruct (export_onnx_model_benign a ltac:(lia) w) as (Δ & _ & Hno).
    rewrite Hmsg in Hno. by specialize (Hno _ eq_refl).
  - intros Hbs. rewrite (Hneg Hbs). by eexists.
  - intros Hbs e He Hve.
    destruct (export_onnx_model_benign a Hbs w) as (Δ & _ & Hno).
    rewrite He in Hno. specialize (Hno _ eq_refl).
    destruct e; simplify_eq/=; eauto.
Qed.
End ValueErrors.

(* ================================================================== *)
(** ** The parity check *)

Section ParityProofs.
Context `{TorchTypes}.

Lemma quiet_refl t : quiet t t.
Proof.
  induction t as [|e t IH] using rev_ind; [constructor|].
  by constructor.
Qed.

Lemma same_but_warnings_refl w : same_but_warnings w w.
Proof. split_and!; [done..|apply quiet_refl]. Qed.

Lemma agree_bind {A B} (m m' : M A) (k k' : A → M B) :
  agree m m' → (∀ a, agree (k a) (k' a)) → agree (bind m k) (bind m' k').
Proof.
  intros Hm Hk w w' Hw. unfold bind.
  destruct (Hm w w' Hw) as [Hr Hw1].
  destruct (m w) as [[a|e] w1], (m' w') as [[a'|e'] w1'];
    simpl in *; simplify_eq; [|done].
  by apply Hk.
Qed.

Lemma agree_assoc {A B C} (m : M A) (k : A → M B) (k' : B → M C) n :
  agree (bind m (λ a, bind (k a) k')) n → agree (bind (bind m k) k') n.
Proof.
  intros Hm w w' Hw. destruct (Hm w w' Hw) as [Hr Hw1].
  unfold bind in *. by destruct (m w) as [[a|e] w1].
Qed.

Lemma agree_assoc_r {A B C} (m : M A) (k : A → M B) (k' : B → M C) n :
  agree n (bind m (λ a, bind (k a) k')) → agree n (bind (bind m k) k').
Proof.
  intros Hm w w' Hw. destruct (Hm w w' Hw) as [Hr Hw1].
  unfold bind in *. by destruct (m w') as [[a|e] w1].
Qed.

Lemma agree_raise_bind {A B} e (k k' : A → M B) :
  agree (bind (raise e) k) (bind (raise e) k').
Proof. by intros w w' Hw. Qed.

Lemma agree_ret_bind {A B} (a : A) (k k' : A → M B) :
  agree (k a) (k' a) → agree (bind (ret a) k) (bind (ret a) k').
Proof. intros Hk w w' Hw. by apply Hk. Qed.

Lemma agree_ret {A} (a : A) : agree (ret a) (ret a).
Proof. by intros w w' Hw. Qed.

Lemma agree_raise {A} e : agree (@raise _ A e) (raise e).
Proof. by intros w w' Hw. Qed.

Lemma agree_lift {A} (r : result A) : agree (lift r) (lift r).
Proof. by intros w w' Hw. Qed.

Lemma agree_call {A} callee (o : outcome A) :
  agree (call callee o) (call callee o).
Proof. by destruct o; intros w w' Hw. Qed.

Lemma agree_emit e : agree (emit e) (emit e).
Proof.
  intros w w' (Hfs & Hrng & Ht). split; [done|].
  split_and!; [done..|]. by constructor.
Qed.

Lemma agree_get_fs : agree get_fs get_fs.
Proof. intros w w' Hw. split; [|done]. simpl. f_equal. apply Hw. Qed.

Lemma agree_put_fs n : agree (put_fs n) (put_fs n).
Proof. intros w w' (Hfs & Hrng & Ht). by split_and!. Qed.

Lemma agree_next_seed : agree next_seed next_seed.
Proof.
  intros w w' (Hfs & Hrng & Ht). simpl. rewrite Hrng. by split_and!.
Qed.

(** The warning on one side, nothing on the other. *)
Lemma agree_warning {B} report (k k' : unit → M B) :
  agree (k ()) (k' ()) →
  agree
    (bind (bind (print ("WARN: Differences found between torch and onnx:"
                        +:+ newline))
             (λ _, bind (print report)
                (λ _, print (newline
                             +:+ "Export will continue, but please verify "
                             +:+ "that your pipeline matches the original."))))
          k)
    (bind (ret ()) k').
Proof.
  intros Hk w w' (Hfs & Hrng & Ht). unfold bind, print, emit, ret. simpl.
  apply Hk. split_and!; [done..|]. simpl.
  rewrite <- !app_assoc. simpl. by apply (quiet_warning report).
Qed.

Lemma agree_for_each {A S} (l : list A) (body body' : A → S → M S) s :
  (∀ x s, agree (body x s) (body' x s)) →
  agree (for_each l s body) (for_each l s body').
Proof.
  intros Hbody. revert s. induction l as [|x l IH]; intros s; simpl.
  - apply agree_ret.
  - apply agree_bind; [apply Hbody|]. intros s'. apply IH.
Qed.

Lemma agree_for_zip cps it (body body' : string → string → M unit) :
  (∀ cp name, agree (body cp name) (body' cp name)) →
  agree (for_zip cps it body) (for_zip cps it body').
Proof.
  intros Hbody. revert it. induction cps as [|cp cps IH]; intros it; simpl.
  - apply agree_ret.
  - destruct (next_name it) as [[name it']|]; [|apply agree_ret].
    apply agree_bind; [apply Hbody|]. intros _. apply IH.
Qed.

End ParityProofs.

Ltac agree_step :=
  cbv beta; cbn [hush];
  lazymatch goal with
  | |- agree (bind (raise _) _) (bind (raise _) _) => apply agree_raise_bind
  | |- agree (bind (ret _) _) (bind (ret _) _) => apply agree_ret_bind
  | |- agree (bind (bind (print _) _) _) (bind (ret _) _) =>
      apply agree_warning
  | |- agree (bind (bind _ _) _) _ => apply agree_assoc
  | |- agree _ (bind (bind _ _) _) => apply agree_assoc_r
  | |- agree (bind (if ?b then _ else _) _) _ => destruct b eqn:?
  | |- agree (bind (match ?x with _ => _ end) _) _ => destruct x eqn:?
  | |- agree (match ?x with _ => _ end) _ => destruct x eqn:?
  | |- agree (bind _ _) (bind _ _) =>
      apply agree_bind;
      [ first [ apply agree_emit | apply agree_ret | apply agree_raise
              | apply agree_lift | apply agree_call | apply agree_get_fs
              | apply agree_put_fs | apply agree_next_seed ]
      | intros ? ]
  | |- agree (ret _) (ret _) => apply agree_ret
  | |- agree (raise _) (raise _) => apply agree_raise
  end.

Ltac warned_side :=
  simpl; rewrite ?app_nil_r; simpl; split_and?; try exact I; try done;
  let Hrep := fresh "Hrep" in
  match goal with
  | Ha : assert_allclose _ _ = _ |- _ => intros ? Hrep; rewrite Ha in Hrep
  end;
  simplify_eq; by eexists _, _, _.

Section ParityTheorems.
Context `{TorchTypes} (L : Libs).

Lemma export_fold_agree a dyn c ds dataset_json fip name config fp net :
  agree (@export_fold _ L a dyn c ds dataset_json fip name config fp net)
        (@export_fold _ (lenient L) a dyn c ds dataset_json fip name
           config fp net).
Proof.
  unfold export_fold, rand, export, store, read_onnx.
  destruct fp as [fold params]. simpl.
  repeat agree_step.
Qed.

Lemma export_checkpoint_agree a dyn c ds dir dataset_json fip cp name :
  agree (@export_checkpoint _ L a dyn c ds dir dataset_json fip cp name)
        (@export_checkpoint _ (lenient L) a dyn c ds dir dataset_json fip
           cp name).
Proof.
  unfold export_checkpoint. simpl. repeat agree_step.
  apply agree_bind; [|intros ?; apply agree_ret].
  apply agree_for_each. intros fp net. apply export_fold_agree.
Qed.

Lemma export_configuration_agree a dyn ds c names :
  agree (@export_configuration _ L a dyn ds c names)
        (@export_configuration _ (lenient L) a dyn ds c names).
Proof.
  unfold export_configuration. simpl. repeat agree_step.
  apply agree_bind; [|intros ?; apply agree_ret].
  apply agree_for_zip. intros cp name. apply export_checkpoint_agree.
Qed.

Lemma export_onnx_model_agree a :
  agree (@export_onnx_model _ L a) (@export_onnx_model _ (lenient L) a).
Proof.
  unfold export_onnx_model. simpl.
  destruct (bool_decide (batch_size a < 0)%Z); [apply agree_raise|].
  repeat agree_step.
  apply agree_bind; [|intros ?; apply agree_ret].
  apply agree_for_each. intros c names. apply export_configuration_agree.
Qed.

Lemma warned_loop_closed : loop_closed (λ _ Δ, followed (warned L) Δ).
Proof.
  split; [done|]. intros Δ1 o Δ2 H1 H2.
  induction Δ1 as [|e Δ1 IH]; simpl in *; [done|].
  destruct H1 as [He H1]. split; [|by apply IH].
  destruct e; simpl in *; try done.
  intros report Hrep. destruct (He report Hrep) as (d & name & rest & ->).
  exists d, name, (rest ++ Δ2). reflexivity.
Qed.

Lemma export_fold_warns a dyn c ds dataset_json fip name config fp net :
  produces (@export_fold _ L a dyn c ds dataset_json fip name config fp net)
    (λ r Δ, followed (warned L) Δ ∧ ∀ s', r = Ok s' → True).
Proof.
  unfold export_fold. destruct fp as [fold params].
  repeat walk_step.
  all: warned_side.
Qed.

Lemma export_checkpoint_warns a dyn c ds dir dataset_json fip cp name :
  produces (@export_checkpoint _ L a dyn c ds dir dataset_json fip cp name)
    (λ r Δ, followed (warned L) Δ).
Proof.
  unfold export_checkpoint. repeat walk_step; try done.
  eapply produces_bind.
  - apply (produces_for_each _ _ (λ _ Δ, followed (warned L) Δ)
             (λ _, True)); [apply warned_loop_closed| |done].
    intros fp net _ _. apply export_fold_warns.
  - by intros e Δ [HΔ _].
  - intros net Δ1 [HΔ _]. repeat walk_step. simpl.
    by rewrite app_nil_r.
Qed.

Lemma export_configuration_warns a dyn ds c names :
  produces (@export_configuration _ L a dyn ds c names)
    (λ r Δ, followed (warned L) Δ ∧ ∀ s', r = Ok s' → True).
Proof.
  unfold export_configuration. repeat walk_step; try done.
  eapply produces_bind.
  - apply (produces_for_zip _ _ (λ _ Δ, followed (warned L) Δ)
             (λ _, True)); [apply warned_loop_closed|done| |done].
    intros cp it name it' _ _ _. apply export_checkpoint_warns.
  - intros e Δ [HΔ _]. by simpl.
  - intros it Δ1 [HΔ _]. repeat walk_step. simpl.
    by rewrite app_nil_r.
Qed.

Lemma export_onnx_model_warns a :
  produces (@export_onnx_model _ L a) (λ r Δ, followed (warned L) Δ).
Proof.
  unfold export_onnx_model.
  destruct (bool_decide (batch_size a < 0)%Z); [by apply produces_raise|].
  repeat walk_step; try done.
  eapply produces_bind.
  - apply (produces_for_each _ _ (λ _ Δ, followed (warned L) Δ)
             (λ _, True)); [apply warned_loop_closed| |done].
    intros c names _ _. apply export_configuration_warns.
  - intros e Δ [HΔ _]. by simpl.
  - intros it Δ1 [HΔ _]. repeat walk_step. simpl.
    by rewrite app_nil_r.
Qed.

(** C6. A parity check that fails changes nothing but the output printed:
    the run ends with the same result, the same file system and the same
    calls, in the same order, as the run in which every failed check had
    passed, except for the warnings (so nothing is exported again,
    dropped or skipped).  And each comparison that fails is followed at
    once by the warning, the message that the artifact is exported and
    the opening of the metadata file of that artifact's directory. *)
Theorem C6_failed_parity_check_only_warns (a : args) (w : world) :
  let run := @export_onnx_model _ L a w in
  let calm := @export_onnx_model _ (lenient L) a w in
  run.1 = calm.1
  ∧ fs run.2 = fs calm.2
  ∧ quiet (trace run.2) (trace calm.2)
  ∧ ∃ Δ, trace run.2 = trace w ++ Δ ∧
      ∀ pre y o post report,
        Δ = pre ++ EvCompare y o :: post →
        @assert_allclose _ L y o = NotClose report →
        ∃ d name rest,
          post = warning report
                 ++ EvPrint ("Exported " +:+ path_str (joinpath d name))
                 :: EvOpenW (joinpath d "config.json") :: rest.
Proof.
  intros run calm.
  destruct (export_onnx_model_agree a w w (same_but_warnings_refl w))
    as (Hr & Hfs & _ & Ht).
  split_and!; [done..|].
  destruct (export_onnx_model_warns a w) as (Δ & HΔ & Hw).
  exists Δ. split; [done|]. intros pre y o post report -> Hrep.
  exact (followed_split _ _ _ _ _ Hw eq_refl report Hrep).
Qed.

End ParityTheorems.

Section OccupiedDirectory.
Context `{TorchTypes} `{!Libs}.

Lemma iterdir_inv n p entries :
  iterdir n p = Ok entries →
  ∃ es, lookup_path n p = Some (Dir es) ∧ entries = (map_to_list es).*1.
Proof.
  unfold iterdir. destruct (lookup_path n p) as [[c|es]|]; [done| |done].
  intros [= <-]. by exists es.
Qed.

End OccupiedDirectory.

Section MissingModel.
Context `{TorchTypes} `{!Libs}.

(** Nothing can be read below a path that is not a directory. *)
Lemma load_json_from_missing n dir file :
  isdir n dir = false → is_ok (load_json_from n (joinpath dir file)) = false.
Proof.
  unfold isdir, load_json_from, read_file, joinpath.
  rewrite lookup_path_app.
  destruct (lookup_path n dir) as [[c|es]|]; simpl; done.
Qed.

(** Whatever [strict] is, a configuration whose trained model directory
    is missing ends the run with the error of reading its dataset.json:
    the test of line 57 is never reached with a missing directory. *)
Lemma export_configuration_missing a dyn ds c names w dir :
  get_output_folder ds (trainer a) (plans_identifier a) c = Returns dir →
  isdir (fs w) dir = false →
  ∃ e, (export_configuration a dyn ds c names w).1 = Err e
       ∧ load_json_from (fs w) (joinpath dir "dataset.json") = Err e.
Proof.
  intros Hdir Hmissing.
  pose proof (load_json_from_missing _ _ "dataset.json" Hmissing) as Hload.
  unfold export_configuration, bind, print, emit, call, get_fs, lift.
  simpl. rewrite Hdir. simpl.
  destruct (load_json_from (fs w) (joinpath dir "dataset.json"))
    as [j|e]; [done|].
  by exists e.
Qed.

End MissingModel.

(* ================================================================== *)
(** ** The exhausted generator of the default names *)

Section Exhausted.
Context `{TorchTypes} `{!Libs}.

Lemma runs_of_produces {A} n (m : M A) Φ :
  produces m Φ → runs n (λ r _ Δ, Φ r Δ) m.
Proof. intros Hm w _. apply Hm. Qed.

Lemma runs_and {A} n (m : M A)
    (R1 R2 : result A → node → list event → Prop) :
  runs n R1 m → runs n R2 m →
  runs n (λ r n' Δ, R1 r n' Δ ∧ R2 r n' Δ) m.
Proof.
  intros H1 H2 w Hw.
  destruct (H1 w Hw) as (Δ & Ht & HR1), (H2 w Hw) as (Δ' & Ht' & HR2).
  assert (Δ' = Δ) as -> by (rewrite Ht in Ht'; by simplify_list_eq).
  by exists Δ.
Qed.

Lemma for_zip_exhausted cps (body : string → string → M unit) :
  for_zip cps (NamesGenerator []) body = ret (NamesGenerator []).
Proof. by destruct cps. Qed.

Lemma idle_within out c Δ :
  forallb idle Δ = true → Forall (within_configuration out c) Δ.
Proof.
  rewrite forallb_forall, Forall_forall. intros Hidle e He.
  apply list_elem_of_In, Hidle in He. by destruct e.
Qed.

Lemma guarded_Forall (P : list event → event → Prop) (Q : event → Prop)
    pre Δ :
  (∀ t e, P t e → Q e) → guarded P pre Δ → Forall Q Δ.
Proof.
  intros HPQ. revert pre. induction Δ as [|e Δ IH]; intros pre; simpl.
  - by constructor.
  - intros [He HΔ]. constructor; [by eapply HPQ|by eapply IH].
Qed.

(** With the generator exhausted, a configuration exports nothing and
    leaves the generator exhausted. *)
Lemma export_configuration_exhausted a dyn ds c n :
  runs n (λ r n' Δ, forallb idle Δ = true
                    ∧ ∀ names, r = Ok names → names = NamesGenerator [])
    (export_configuration a dyn ds c (NamesGenerator [])).
Proof.
  unfold export_configuration.
  repeat runs_step;
    try (split; [reflexivity|]; intros ? ?; by simplify_eq).
  rewrite for_zip_exhausted. repeat runs_step.
  split; [reflexivity|]. by intros ? [= <-].
Qed.

Lemma later_configurations_idle a dyn ds cs n :
  runs n (λ _ _ Δ, forallb idle Δ = true)
    (for_each cs (NamesGenerator []) (export_configuration a dyn ds)).
Proof.
  revert n. induction cs as [|c cs IH]; intros n; simpl.
  - by apply runs_ret.
  - eapply runs_bind; [apply export_configuration_exhausted|..].
    + by intros e n1 Δ1 [HΔ1 _].
    + intros names n1 Δ1 [HΔ1 Hnames]. rewrite (Hnames _ eq_refl).
      eapply runs_conseq; [apply IH|]. simpl. intros _ _ Δ2 HΔ2.
      rewrite forallb_app. by rewrite HΔ1, HΔ2.
Qed.

(** Entered with the fresh generator, a configuration that returns leaves
    the generator exhausted. *)
Lemma export_configuration_exhausts a dyn ds c n :
  runs n (λ r _ _, ∀ names, r = Ok names → names = NamesGenerator [])
    (export_configuration a dyn ds c (NamesGenerator (save_checkpoints a))).
Proof.
  unfold export_configuration.
  repeat runs_step; try (intros ? ?; by simplify_eq).
  - exfalso.
    match goal with
    | Hok : load_json_from n (joinpath ?dir "dataset.json") = Ok _,
      Hdir : negb (isdir n ?dir) = true |- _ =>
        apply negb_true_iff in Hdir;
        pose proof (load_json_from_missing n dir "dataset.json" Hdir) as Hm;
        by rewrite Hok in Hm
    end.
  - match goal with
    | |- runs _ _ (bind (for_zip _ _ ?body) _) =>
        eapply runs_bind
          with (R1 := λ r _ _, ∀ it, r = Ok it → it = NamesGenerator []);
        [ intros w _;
          destruct (produces_for_zip (save_checkpoints a) body
                      (λ _ _, True) (λ _, True)) with
            (it := NamesGenerator (save_checkpoints a)) (w := w)
            as (Δ & Ht & _);
          [ done | done
          | intros cp it name it' _ _ _;
            eapply produces_conseq;
              [apply export_checkpoint_validates|done]
          | done | ];
          exists Δ; split; [done|]; intros it Hit;
          destruct (for_zip_fresh_generator (save_checkpoints a) body w)
            as (_ & _ & Hgen);
          simpl in Hgen; rewrite Hit in Hgen; specialize (Hgen eq_refl);
          by simplify_eq
        | intros e n1 Δ1 _ ? ?; by simplify_eq
        | intros it n1 Δ1 Hit; apply runs_ret; intros names [= <-];
          simpl; by apply Hit ]
    end.
Qed.

(** Entered with the fresh generator, the loop over the configurations
    creates, exports and dumps in the fold directories of the first
    configuration only. *)
Lemma configurations_only_first a dyn ds c cs n :
  names_within a (NamesGenerator (save_checkpoints a)) →
  runs n (λ _ _ Δ, Forall (within_configuration (output_dir a) c) Δ)
    (for_each (c :: cs) (NamesGenerator (save_checkpoints a))
       (export_configuration a dyn ds)).
Proof.
  intros Hnames. simpl. eapply runs_bind
    with (R1 := λ r _ Δ,
            Forall (within_configuration (output_dir a) c) Δ
            ∧ ∀ names, r = Ok names → names = NamesGenerator []).
  - apply runs_and; [|apply export_configuration_exhausts].
    apply runs_of_produces. eapply produces_conseq.
    + by apply (export_configuration_well_placed a dyn ds c).
    + intros r Δ [HΔ _]. revert HΔ. apply guarded_Forall.
      intros t e. destruct e; simpl; try done; intros Hplaced.
      all: repeat match goal with
                  | Hex : ∃ _, _ |- _ => destruct Hex
                  | Hand : _ ∧ _ |- _ => destruct Hand
                  end; simplify_eq/=; eauto.
  - by intros e n1 Δ1 [HΔ1 _].
  - intros names n1 Δ1 [HΔ1 Hgen]. rewrite (Hgen _ eq_refl).
    eapply runs_conseq; [apply later_configurations_idle|].
    intros r n2 Δ2 HΔ2. apply Forall_app. split; [done|].
    by apply idle_within.
Qed.

(** Without output names, only the first configuration is exported:
    whatever a run creates, exports or dumps is in a fold directory of the
    first configuration. *)
Lemma only_first_configuration a w c cs :
  not_output_names (output_names a) = true →
  configurations a = c :: cs →
  ∃ Δ, trace (export_onnx_model a w).2 = trace w ++ Δ
       ∧ Forall (within_configuration (output_dir a) c) Δ.
Proof.
  intros Hnone Hcs.
  cut (runs (fs w)
         (λ _ _ Δ, Forall (within_configuration (output_dir a) c) Δ)
         (export_onnx_model a)); [intros Hruns; by apply Hruns|].
  unfold export_onnx_model. rewrite Hnone, Hcs.
  destruct (bool_decide (batch_size a < 0)%Z); [by apply runs_raise|].
  repeat runs_step; try by repeat constructor.
  pose proof (initial_names_within a) as Hnames.
  rewrite Hnone in Hnames.
  eapply runs_bind; [by apply configurations_only_first|..].
  all: intros r n1 Δ1 HΔ1; cbv beta in HΔ1; try apply runs_ret.
  all: rewrite ?app_nil_r; by constructor.
Qed.
End Exhausted.

(* ================================================================== *)
(** ** Further properties *)

Section MetadataInputs.

Lemma dict_get_set k v d : dict_get k (dict_set k v d) = Some v.
Proof.
  induction d as [|[k' v'] d IH]; simpl.
  - by rewrite String.eqb_refl.
  - destruct (String.eqb k k') eqn:Hk; simpl.
    + by rewrite String.eqb_refl.
    + by rewrite Hk.
Qed.

Lemma dict_get_set_ne k k' v d :
  k ≠ k' → dict_get k (dict_set k' v d) = dict_get k d.
Proof.
  intros Hne. induction d as [|[k0 v0] d IH]; simpl.
  - by apply String.eqb_neq in Hne as ->.
  - destruct (String.eqb k' k0) eqn:Hk; simpl.
    + apply String.eqb_eq in Hk as <-.
      by apply String.eqb_neq in Hne as ->.
    + by rewrite IH.
Qed.

Lemma dict_set_fresh k v d :
  dict_get k d = None → dict_set k v d = d ++ [(k, v)].
Proof.
  induction d as [|[k' v'] d IH]; simpl; [done|].
  destruct (String.eqb k k'); [done|]. intros Hd. by rewrite IH.
Qed.

Lemma dict_get_None k (d : dict) : dict_get k d = None ↔ k ∉ d.*1.
Proof.
  induction d as [|[k' v'] d IH]; simpl.
  - split; [intros _; apply not_elem_of_nil|done].
  - rewrite not_elem_of_cons.
    destruct (String.eqb k k') eqn:Hk.
    + apply String.eqb_eq in Hk. split; [done|]. by intros [? _].
    + apply String.eqb_neq in Hk. rewrite IH. tauto.
Qed.

Lemma channels_dict_ok fip names acc :
  is_ok (channels_dict fip names acc)
  = forallb (λ kv, is_ok (subscript fip kv.1)) names.
Proof.
  revert acc. induction names as [|[k v] names IH]; intros acc; simpl.
  - done.
  - destruct (subscript fip k); simpl; [apply IH|done].
Qed.

Lemma class_names_dict_ok labels acc :
  is_ok (class_names_dict labels acc)
  = forallb (λ kv, is_ok (class_key kv.2)) labels.
Proof.
  revert acc. induction labels as [|[k v] labels IH]; intros acc; simpl.
  - done.
  - destruct (class_key v); simpl; [apply IH|done].
Qed.

Lemma channels_dict_error fip names acc e :
  channels_dict fip names acc = Err e → lookup_error e = true.
Proof.
  revert acc. induction names as [|[k v] names IH]; intros acc; simpl.
  - done.
  - destruct (subscript fip k) eqn:Hs; simpl; [apply IH|].
    intros [= <-]. unfold subscript in Hs.
    destruct fip; try by simplify_eq.
    destruct (dict_get k members); by simplify_eq.
Qed.

Lemma class_names_dict_error labels acc e :
  class_names_dict labels acc = Err e → lookup_error e = true.
Proof.
  revert acc. induction labels as [|[k v] labels IH]; intros acc; simpl.
  - done.
  - destruct (class_key v) eqn:Hs; simpl; [apply IH|].
    intros [= <-].
    destruct v as [|[]| | | | |]; simpl in Hs; simplify_eq; reflexivity.
Qed.

Lemma subscript_error j k e :
  subscript j k = Err e → lookup_error e = true.
Proof.
  unfold subscript. destruct j; try by intros [= <-].
  destruct (dict_get k members); by intros [= <-].
Qed.

Lemma config_dict_error c fold bs dyn config ds dataset_json fip e :
  config_dict c fold bs dyn config ds dataset_json fip = Err e →
  lookup_error e = true.
Proof.
  unfold config_dict. intros Hc.
  repeat match type of Hc with
         | rbind ?r _ = Err _ =>
             let Hr := fresh "Hr" in
             destruct r eqn:Hr; simpl in Hc;
             [|injection Hc as <-;
               first [ by eapply subscript_error
                     | by eapply channels_dict_error
                     | by eapply class_names_dict_error
                     | match type of Hr with
                       | _ ?j = Err _ =>
                           destruct j; simplify_eq/=; reflexivity
                       end ]]
         end.
  done.
Qed.

(** X1. The metadata dictionary can be built exactly from the inputs
    described by [metadata_inputs_ok], whatever the other arguments; when
    it cannot, the exception is a KeyError, a TypeError or an
    AttributeError. *)
Theorem X1_metadata_built_iff_inputs_ok c fold bs dyn config ds
    dataset_json fip :
  is_ok (config_dict c fold bs dyn config ds dataset_json fip)
  = metadata_inputs_ok dataset_json fip
  ∧ ∀ e, config_dict c fold bs dyn config ds dataset_json fip = Err e →
         lookup_error e = true.
Proof.
  split; [|apply config_dict_error].
  unfold config_dict, metadata_inputs_ok.
  destruct (subscript dataset_json "channel_names") as [names|e1];
    simpl; [|done].
  destruct names as [| | | | | |chans]; simpl; try done.
  rewrite <- (channels_dict_ok fip chans []).
  destruct (channels_dict fip chans []) as [channels|e2]; simpl.
  2: { by destruct (subscript dataset_json "labels") as [[]|]. }
  destruct (subscript dataset_json "labels") as [labels|e3]; simpl;
    [|done].
  destruct labels as [| | | | | |labels]; simpl; try done.
  rewrite <- (class_names_dict_ok labels []).
  by destruct (class_names_dict labels []).
Qed.

End MetadataInputs.

Section MetadataContents.

Lemma channels_dict_app fip names acc :
  NoDup (acc.*1 ++ names.*1) →
  Forall (λ kv, is_Some (dict_get kv.1 fip)) names →
  channels_dict (JObj fip) names acc
  = Ok (acc ++ (channel_entry fip <$> names)).
Proof.
  revert acc. induction names as [|[k v] names IH]; intros acc Hnd Hall;
    simpl.
  - by rewrite app_nil_r.
  - apply Forall_cons in Hall as [[props Hk] Hall]. simpl in Hk.
    rewrite Hk. simpl.
    assert (k ∉ acc.*1) as Hfresh.
    { apply NoDup_app in Hnd as (_ & Hnd & _). intros Hin.
      apply (Hnd k Hin). simpl. left. }
    rewrite dict_set_fresh by by apply dict_get_None.
    rewrite IH; [|by rewrite fmap_app, <- app_assoc|done].
    rewrite <- app_assoc. simpl. unfold channel_entry at 2. simpl.
    by rewrite Hk.
Qed.

(** X2. With foreground properties for every channel, "channels" lists
    the channels of dataset.json in their order, each with its name and
    its foreground properties. *)
Theorem X2_channels_entries fip names :
  NoDup names.*1 →
  Forall (λ kv, is_Some (dict_get kv.1 fip)) names →
  channels_dict (JObj fip) names [] = Ok (channel_entry fip <$> names).
Proof. intros Hnd Hall. by rewrite channels_dict_app. Qed.

Lemma channels_dict_missing fip l1 k v l2 acc :
  Forall (λ kv, is_Some (dict_get kv.1 fip)) l1 →
  dict_get k fip = None →
  channels_dict (JObj fip) (l1 ++ (k, v) :: l2) acc = Err (KeyError k).
Proof.
  revert acc. induction l1 as [|[k1 v1] l1 IH]; intros acc Hall Hk; simpl.
  - by rewrite Hk.
  - apply Forall_cons in Hall as [[props Hk1] Hall]. simpl in Hk1.
    rewrite Hk1. simpl. by apply IH.
Qed.

(** X3. A channel of dataset.json without foreground properties in
    plans.json makes the construction of the metadata raise the KeyError
    of that channel (the first such channel). *)
Theorem X3_channel_without_properties c fold bs dyn config ds
    dataset_json fip l1 k v l2 :
  subscript dataset_json "channel_names" = Ok (JObj (l1 ++ (k, v) :: l2)) →
  Forall (λ kv, is_Some (dict_get kv.1 fip)) l1 →
  dict_get k fip = None →
  config_dict c fold bs dyn config ds dataset_json (JObj fip)
  = Err (KeyError k).
Proof.
  intros Hnames Hall Hk. unfold config_dict. rewrite Hnames. simpl.
  by rewrite channels_dict_missing.
Qed.

Lemma class_names_dict_app zs acc :
  NoDup (acc.*1 ++ (pretty <$> zs.*2)) →
  class_names_dict ((λ kz, (kz.1, JInt kz.2)) <$> zs) acc
  = Ok (acc ++ (class_entry <$> zs)).
Proof.
  revert acc. induction zs as [|[k z] zs IH]; intros acc Hnd; simpl.
  - by rewrite app_nil_r.
  - assert (pretty z ∉ acc.*1) as Hfresh.
    { apply NoDup_app in Hnd as (_ & Hnd & _). intros Hin.
      apply (Hnd _ Hin). simpl. left. }
    rewrite dict_set_fresh by by apply dict_get_None.
    rewrite IH; [|by rewrite fmap_app, <- app_assoc].
    by rewrite <- app_assoc.
Qed.

(** X4. With integer labels that are pairwise distinct, "class_names"
    is the inverse of "labels": it maps the decimal form of each label
    value to the label's name, in the order of "labels". *)
Theorem X4_class_names_inverse (zs : list (string * Z)) :
  NoDup zs.*2 →
  class_names_dict ((λ kz, (kz.1, JInt kz.2)) <$> zs) []
  = Ok (class_entry <$> zs).
Proof.
  intros Hnd. rewrite class_names_dict_app; [done|]. simpl.
  by apply (NoDup_fmap_2 _).
Qed.

Lemma class_names_dict_split l1 l2 acc :
  class_names_dict (l1 ++ l2) acc
  = rbind (class_names_dict l1 acc) (λ acc', class_names_dict l2 acc').
Proof.
  revert acc. induction l1 as [|[k v] l1 IH]; intros acc; simpl; [done|].
  destruct (class_key v); simpl; [apply IH|done].
Qed.

Lemma class_names_dict_other key labels acc cn :
  Forall (λ kv, class_key kv.2 ≠ Ok key) labels →
  class_names_dict labels acc = Ok cn →
  dict_get key cn = dict_get key acc.
Proof.
  revert acc. induction labels as [|[k v] labels IH]; intros acc Hall;
    simpl.
  - by intros [= <-].
  - apply Forall_cons in Hall as [Hv Hall]. simpl in Hv.
    destruct (class_key v) as [key'|] eqn:Hkey; simpl; [|done].
    intros Hcn. rewrite (IH _ Hall Hcn).
    apply dict_get_set_ne. by intros ->.
Qed.

Lemma class_names_dict_length labels acc cn :
  class_names_dict labels acc = Ok cn →
  length cn ≤ length acc + length labels.
Proof.
  revert acc. induction labels as [|[k v] labels IH]; intros acc; simpl.
  - intros [= <-]. lia.
  - destruct (class_key v) as [key|]; simpl; [|done].
    intros Hcn. apply IH in Hcn.
    assert (length (dict_set key (JStr k) acc) ≤ S (length acc)); [|lia].
    clear. induction acc as [|[k' v'] acc IH]; simpl; [lia|].
    destruct (String.eqb key k'); simpl; lia.
Qed.

Lemma class_names_dict_integers (zs : list (string * Z)) acc :
  is_ok (class_names_dict ((λ kz, (kz.1, JInt kz.2)) <$> zs) acc) = true.
Proof.
  rewrite class_names_dict_ok. by induction zs as [|[k z] zs IH].
Qed.

(** X5. With integer labels, when several labels have the same value,
    "class_names" keeps one entry for it, with the name of the last of
    them; so it can have fewer entries than "num_classes" counts. *)
Theorem X5_class_names_last_label_wins (zs1 zs2 : list (string * Z)) k z :
  z ∉ zs2.*2 →
  ∃ cn,
    class_names_dict
      ((λ kz, (kz.1, JInt kz.2)) <$> (zs1 ++ (k, z) :: zs2)) [] = Ok cn
    ∧ dict_get (pretty z) cn = Some (JStr k)
    ∧ length cn ≤ length (zs1 ++ (k, z) :: zs2).
Proof.
  intros Hz.
  pose proof (class_names_dict_integers (zs1 ++ (k, z) :: zs2) []) as Hok.
  destruct (class_names_dict _ []) as [cn|] eqn:Hcn; [|done].
  exists cn. split; [done|]. split.
  - rewrite fmap_app, fmap_cons in Hcn.
    rewrite class_names_dict_split in Hcn.
    destruct (class_names_dict _ []) as [acc|]; simpl in Hcn; [|done].
    assert (Forall (λ kv : string * json, class_key kv.2 ≠ Ok (pretty z))
              ((λ kz : string * Z, (kz.1, JInt kz.2)) <$> zs2)) as Hrest.
    { apply Forall_fmap, Forall_forall. intros [k' z'] Hin. simpl.
      intros [= Heq]. apply (inj pretty) in Heq as ->.
      apply Hz. by apply (list_elem_of_fmap_2 snd _ (k', z)). }
    rewrite (class_names_dict_other _ _ _ _ Hrest Hcn).
    apply dict_get_set.
  - apply class_names_dict_length in Hcn. simpl in Hcn.
    by rewrite length_fmap in Hcn.
Qed.

End MetadataContents.

Section Everywhere.
Context `{TorchTypes} `{!Libs}.

Lemma Forall_loop_closed (Q : event → Prop) :
  loop_closed (λ _ Δ, Forall Q Δ).
Proof.
  split; [by constructor|]. intros Δ1 _ Δ2 H1 H2. by apply Forall_app.
Qed.

Variable a : args.
Variable Q : string → event → Prop.
Hypothesis Q_print : ∀ ds s, Q ds (EvPrint s).
Hypothesis Q_folder : ∀ ds c,
  c ∈ configurations a →
  Q ds (EvOutputFolder ds (trainer a) (plans_identifier a) c).
Hypothesis Q_load_json : ∀ ds p, Q ds (EvLoadJson p).
Hypothesis Q_new : ∀ ds, Q ds EvNewPredictor.
Hypothesis Q_init : ∀ ds dir cp,
  cp ∈ save_checkpoints a → Q ds (EvInitPredictor dir (folds a) cp).
Hypothesis Q_fold : ∀ ds c dataset_json fip name config fold params net,
  c ∈ configurations a → fold ∈ folds a →
  produces
    (export_fold a (bool_decide (batch_size a = 0)%Z) c ds dataset_json fip
       name config (fold, params) net)
    (λ _ Δ, Forall (Q ds) Δ).

Lemma export_checkpoint_everywhere ds c dir dataset_json fip cp name :
  c ∈ configurations a → cp ∈ save_checkpoints a →
  produces
    (export_checkpoint a (bool_decide (batch_size a = 0)%Z) c ds dir
       dataset_json fip cp name)
    (λ _ Δ, Forall (Q ds) Δ).
Proof using Q_init Q_fold.
  intros Hc Hcp. unfold export_checkpoint.
  repeat walk_step; try by repeat constructor; auto.
  eapply produces_bind with (Φ1 := λ _ Δ, Forall (Q ds) Δ).
  - eapply produces_conseq.
    + apply (produces_for_each _ _ (λ _ Δ, Forall (Q ds) Δ) (λ _, True));
        [apply Forall_loop_closed| |done].
      intros [fold params] net Hin _.
      eapply produces_conseq; [apply Q_fold|]; [done| |by intros].
      by eapply elem_of_zip_l.
    + by intros r Δ [HΔ _].
  - intros e Δ HΔ. constructor; auto.
  - intros net Δ1 HΔ1. apply produces_ret. constructor; [auto|].
    by rewrite app_nil_r.
Qed.

Lemma checkpoints_everywhere ds c dir dataset_json fip names :
  c ∈ configurations a →
  produces
    (for_zip (save_checkpoints a) names
       (export_checkpoint a (bool_decide (batch_size a = 0)%Z) c ds dir
          dataset_json fip))
    (λ _ Δ, Forall (Q ds) Δ).
Proof using Q_init Q_fold.
  intros Hc. eapply produces_conseq.
  - apply (produces_for_zip _ _ (λ _ Δ, Forall (Q ds) Δ) (λ _, True));
      [apply Forall_loop_closed|done| |done].
    intros cp it name it' Hcp _ _.
    by apply export_checkpoint_everywhere.
  - by intros r Δ [HΔ _].
Qed.

Lemma export_configuration_everywhere ds c names :
  c ∈ configurations a →
  produces
    (export_configuration a (bool_decide (batch_size a = 0)%Z) ds c names)
    (λ _ Δ, Forall (Q ds) Δ).
Proof using All.
  intros Hc. unfold export_configuration.
  repeat walk_step; try by repeat constructor; auto.
  eapply produces_bind with (Φ1 := λ _ Δ, Forall (Q ds) Δ).
  - by apply checkpoints_everywhere.
  - intros e Δ HΔ. repeat constructor; auto.
  - intros it Δ1 HΔ1. apply produces_ret. repeat constructor; auto.
    by rewrite app_nil_r.
Qed.

Lemma configurations_everywhere ds names :
  produces
    (for_each (configurations a) names
       (export_configuration a (bool_decide (batch_size a = 0)%Z) ds))
    (λ _ Δ, Forall (Q ds) Δ).
Proof using All.
  eapply produces_conseq.
  - apply (produces_for_each _ _ (λ _ Δ, Forall (Q ds) Δ) (λ _, True));
      [apply Forall_loop_closed| |done].
    intros c s Hc _.
    eapply produces_conseq; [by apply export_configuration_everywhere|].
    by intros.
  - by intros r Δ [HΔ _].
Qed.

(** What a run does around the conversion of the dataset name: nothing
    when the batch size is negative; the conversion first, whose failure
    ends the run; then events that all satisfy [Q]. *)
Lemma everywhere_of_run w :
  let run := export_onnx_model a w in
  if bool_decide (batch_size a < 0)%Z then trace run.2 = trace w
  else
    match maybe_convert_to_dataset_name (fs w) (dataset_name_or_id a) with
    | Returns ds =>
        ∃ Δ, trace run.2
             = trace w ++ EvDatasetName (dataset_name_or_id a) :: Δ
             ∧ Forall (Q ds) Δ
    | Raises e =>
        run.1 = Err (LibraryError "maybe_convert_to_dataset_name" e)
        ∧ fs run.2 = fs w
        ∧ trace run.2 = trace w ++ [EvDatasetName (dataset_name_or_id a)]
    end.
Proof using All.
  cbv zeta. unfold export_onnx_model.
  destruct (bool_decide (batch_size a < 0)%Z); [done|].
  set (names := if not_output_names (output_names a) then _ else _).
  unfold bind, emit, get_fs, call. simpl.
  destruct (maybe_convert_to_dataset_name (fs w) (dataset_name_or_id a))
    as [ds|e]; simpl; [|done].
  set (w1 := World _ _ _).
  destruct (configurations_everywhere ds names w1) as (Δ & Ht & HΔ).
  exists Δ. split; [|done].
  destruct (for_each _ _ _ w1) as [[s|e] w2]; simpl in *;
    rewrite Ht; unfold w1; simpl; by rewrite <- app_assoc.
Qed.

End Everywhere.

Section Told.
Context `{TorchTypes} `{!Libs}.

Lemma config_dict_inv c fold bs dyn config ds dataset_json fip j :
  config_dict c fold bs dyn config ds dataset_json fip = Ok j →
  ∃ model_parameters num_channels channels num_classes class_names,
    j = JObj [("configuration", JStr c);
              ("fold", json_of_int_or_str fold);
              ("model_parameters",
               JObj (("batch_size",
                      if negb dyn then JInt bs else JStr "dynamic")
                     :: model_parameters));
              ("dataset_parameters",
               JObj [("dataset_name", JStr ds);
                     ("num_channels", num_channels);
                     ("channels", channels);
                     ("num_classes", num_classes);
                     ("class_names", class_names)])].
Proof.
  unfold config_dict. intros Hj.
  repeat match type of Hj with
         | rbind ?r _ = Ok _ => destruct r; simpl in Hj; [|done]
         end.
  injection Hj as <-. by eexists _, _, _, _, _.
Qed.

Lemma export_fold_batch_told a c ds dataset_json fip name config fold
    params net :
  produces
    (export_fold a (bool_decide (batch_size a = 0)%Z) c ds dataset_json fip
       name config (fold, params) net)
    (λ _ Δ, Forall (batch_told a) Δ).
Proof.
  unfold export_fold.
  destruct (bool_decide (batch_size a = 0)%Z) eqn:Hdyn.
  all: repeat walk_step.
  all: repeat (constructor; [try exact I|]); try by constructor.
  all: simpl; unfold batch_dimension; rewrite ?Hdyn; try done;
    try by eexists.
  all: match goal with
       | Hc : config_dict _ _ _ _ _ _ _ _ = Ok _ |- _ =>
           apply config_dict_inv in Hc as (? & ? & ? & ? & ? & ->)
       end; done.
Qed.

(** X6. A batch size of 0 means a dynamic batch axis: the network is
    exported from an input of batch 1 with dynamic axes, and the metadata
    records "dynamic"; any other batch size is the batch of the input, the
    axes are fixed, and the metadata records the number. *)
Theorem X6_batch_size_and_dynamic_axes a w :
  ∃ Δ, trace (export_onnx_model a w).2 = trace w ++ Δ
       ∧ Forall (batch_told a) Δ.
Proof.
  pose proof (everywhere_of_run a (λ _, batch_told a)) as Hrun.
  specialize (Hrun ltac:(done) ltac:(done) ltac:(done) ltac:(done)
                ltac:(done)).
  specialize (Hrun ltac:(intros; apply export_fold_batch_told) w).
  cbv zeta in Hrun.
  destruct (bool_decide (batch_size a < 0)%Z).
  - exists []. by rewrite app_nil_r.
  - destruct (maybe_convert_to_dataset_name _ _).
    + destruct Hrun as (Δ & Ht & HΔ). eexists. split; [exact Ht|].
      by constructor.
    + destruct Hrun as (_ & _ & Ht). eexists. split; [exact Ht|].
      by repeat constructor.
Qed.

Lemma export_fold_dataset_told a dyn c ds dataset_json fip name config
    fold params net :
  produces
    (export_fold a dyn c ds dataset_json fip name config (fold, params) net)
    (λ _ Δ, Forall (dataset_told a ds) Δ).
Proof.
  unfold export_fold.
  repeat walk_step.
  all: repeat (constructor; [try exact I|]); try by constructor.
  all: simpl.
  all: match goal with
       | Hc : config_dict _ _ _ _ _ _ _ _ = Ok _ |- _ =>
           apply config_dict_inv in Hc as (? & ? & ? & ? & ? & ->)
       end; done.
Qed.

(** X7. The dataset id is converted once, before anything else; when the
    conversion raises, the run ends with that exception and an unchanged
    file system; the name it returns is the one every model folder is
    resolved from (with the trainer, the plans and a requested
    configuration) and the one every metadata file records. *)
Theorem X7_dataset_name_converted_once a w :
  (0 ≤ batch_size a)%Z →
  let run := export_onnx_model a w in
  match maybe_convert_to_dataset_name (fs w) (dataset_name_or_id a) with
  | Returns ds =>
      ∃ Δ, trace run.2
           = trace w ++ EvDatasetName (dataset_name_or_id a) :: Δ
           ∧ Forall (dataset_told a ds) Δ
  | Raises e =>
      run.1 = Err (LibraryError "maybe_convert_to_dataset_name" e)
      ∧ fs run.2 = fs w
      ∧ trace run.2 = trace w ++ [EvDatasetName (dataset_name_or_id a)]
  end.
Proof.
  intros Hbatch.
  pose proof (everywhere_of_run a (dataset_told a)) as Hrun.
  specialize (Hrun ltac:(done) ltac:(done) ltac:(done) ltac:(done)
                ltac:(done)).
  specialize (Hrun ltac:(intros; apply export_fold_dataset_told) w).
  by rewrite bool_decide_eq_false_2 in Hrun by lia.
Qed.

End Told.

Section Strict.
Context `{TorchTypes} `{!Libs}.

Lemma for_each_ext {A S} (l : list A) (body body' : A → S → M S) :
  (∀ x s w, body x s w = body' x s w) →
  ∀ s w, for_each l s body w = for_each l s body' w.
Proof.
  intros Hbody. induction l as [|x l IH]; intros s w; simpl; [done|].
  unfold bind. rewrite Hbody. by destruct (body' x s w) as [[s'|e] w'].
Qed.

Lemma export_configuration_strict a b dyn ds c names w :
  export_configuration (with_strict b a) dyn ds c names w
  = export_configuration a dyn ds c names w.
Proof.
  unfold export_configuration, bind, print, emit, call, get_fs, lift.
  simpl.
  destruct (get_output_folder ds (trainer a) (plans_identifier a) c)
    as [dir|e]; simpl; [|done].
  destruct (load_json_from (fs w) (joinpath dir "dataset.json"))
    as [dataset_json|e] eqn:Hload; simpl; [|done].
  destruct (load_json_from (fs w) (joinpath dir "plans.json"))
    as [plans|e]; simpl; [|done].
  destruct (subscript plans "foreground_intensity_properties_per_channel")
    as [fip|e]; simpl; [|done].
  destruct (isdir (fs w) dir) eqn:Hdir; simpl; [done|].
  pose proof (load_json_from_missing _ _ "dataset.json" Hdir) as Hmissing.
  by rewrite Hload in Hmissing.
Qed.

(** X8. The argument [strict] has no effect: a run with it set and a run
    with it cleared end with the same result, the same file system and
    the same calls. *)
Theorem X8_strict_has_no_effect a b w :
  export_onnx_model (with_strict b a) w = export_onnx_model a w.
Proof.
  unfold export_onnx_model. simpl.
  destruct (bool_decide (batch_size a < 0)%Z); [done|].
  unfold bind at 1 5. destruct (emit _ w) as [[[]|e] w1]; [|done].
  unfold bind at 1 4. destruct (get_fs w1) as [[n|e] w2]; [|done].
  unfold bind at 1 3. destruct (call _ _ w2) as [[ds|e] w3]; [|done].
  unfold bind.
  rewrite (for_each_ext _ _ _
             (export_configuration_strict a b
                (bool_decide (batch_size a = 0)%Z) ds)).
  done.
Qed.

End Strict.

Section Grows.
Context `{TorchTypes}.

Lemma mkdir_from_keeps_file full n q n' p v :
  mkdir_from full n q = Ok n' →
  lookup_path n p = Some (File v) → lookup_path n' p = Some (File v).
Proof.
  revert n n' p. induction q as [|x q IH]; intros n n' p; simpl; [done|].
  destruct n as [c|es]; [done|].
  destruct (es !! x) as [n1|] eqn:Hx.
  - destruct (mkdir_from full n1 q) as [n1'|] eqn:Hm; simpl; [|done].
    intros [= <-]. destruct p as [|y p]; simpl; [done|].
    destruct (decide (y = x)) as [->|Hne].
    + rewrite Hx, lookup_insert_eq. by apply IH.
    + by rewrite lookup_insert_ne.
  - intros [= <-]. destruct p as [|y p]; simpl; [done|].
    destruct (decide (y = x)) as [->|Hne].
    + by rewrite Hx.
    + by rewrite lookup_insert_ne.
Qed.

Lemma mkdir_from_keeps_dir full n q n' p :
  mkdir_from full n q = Ok n' → isdir n p = true → isdir n' p = true.
Proof.
  unfold isdir.
  revert n n' p. induction q as [|x q IH]; intros n n' p; simpl; [done|].
  destruct n as [c|es]; [done|].
  destruct (es !! x) as [n1|] eqn:Hx.
  - destruct (mkdir_from full n1 q) as [n1'|] eqn:Hm; simpl; [|done].
    intros [= <-]. destruct p as [|y p]; simpl; [done|].
    destruct (decide (y = x)) as [->|Hne].
    + rewrite Hx, lookup_insert_eq. by apply IH.
    + by rewrite lookup_insert_ne.
  - intros [= <-]. destruct p as [|y p]; simpl; [done|].
    destruct (decide (y = x)) as [->|Hne].
    + by rewrite Hx.
    + by rewrite lookup_insert_ne.
Qed.

Lemma write_from_keeps_file full n q c n' p v :
  write_from full n q c = Ok n' → p ≠ q →
  lookup_path n p = Some (File v) → lookup_path n' p = Some (File v).
Proof.
  revert n n' p. induction q as [|x q IH]; intros n n' p; [done|].
  destruct n as [c0|es]; [done|].
  destruct q as [|z q].
  - simpl. destruct p as [|y p]; [done|]. simpl.
    destruct (decide (y = x)) as [->|Hne].
    + destruct (es !! x) as [[c1|es1]|] eqn:Hx; try done.
      intros _ Hp. destruct p as [|y' p]; [done|]. done.
    + destruct (es !! x) as [[c1|es1]|]; try done.
      all: intros [= <-] _; by rewrite lookup_insert_ne.
  - rewrite write_from_below.
    destruct (es !! x) as [n1|] eqn:Hx; [|done].
    destruct (write_from full n1 (z :: q) c) as [n1'|] eqn:Hw; [|done].
    simpl. intros [= <-] Hne. destruct p as [|y p]; [done|]. simpl.
    destruct (decide (y = x)) as [->|Hne'].
    + rewrite Hx, lookup_insert_eq. apply (IH _ _ _ Hw). congruence.
    + by rewrite lookup_insert_ne.
Qed.

Lemma write_from_keeps_dir full n q c n' p :
  write_from full n q c = Ok n' → isdir n p = true → isdir n' p = true.
Proof.
  unfold isdir.
  revert n n' p. induction q as [|x q IH]; intros n n' p; [done|].
  destruct n as [c0|es]; [done|].
  destruct q as [|z q].
  - simpl. destruct p as [|y p]; simpl.
    { by destruct (es !! x) as [[c1|es1]|]; intros [= <-]. }
    destruct (decide (y = x)) as [->|Hne].
    + destruct (es !! x) as [[c1|es1]|] eqn:Hx; try done.
      intros _. by destruct p.
    + destruct (es !! x) as [[c1|es1]|]; try done.
      all: intros [= <-]; by rewrite lookup_insert_ne.
  - rewrite write_from_below.
    destruct (es !! x) as [n1|] eqn:Hx; [|done].
    destruct (write_from full n1 (z :: q) c) as [n1'|] eqn:Hw; [|done].
    simpl. intros [= <-]. destruct p as [|y p]; [done|]. simpl.
    destruct (decide (y = x)) as [->|Hne'].
    + rewrite Hx, lookup_insert_eq. by apply (IH _ _ _ Hw).
    + by rewrite lookup_insert_ne.
Qed.

Lemma not_below_missing n d x p v :
  lookup_path n p = Some v → negb (exists_ n d) = true →
  p ≠ joinpath d x.
Proof.
  intros Hp Hd ->. unfold exists_, joinpath in *.
  rewrite lookup_path_app in Hp.
  by destruct (lookup_path n d).
Qed.

Lemma not_below_empty n d entries x p v :
  lookup_path n p = Some v → iterdir n d = Ok entries →
  bool_decide (0 < length entries) = false →
  p ≠ joinpath d x.
Proof.
  intros Hp Hit Hlen ->. unfold joinpath in Hp.
  rewrite lookup_path_app in Hp. unfold iterdir in Hit.
  destruct (lookup_path n d) as [[c|es]|]; [done| |done].
  injection Hit as <-. apply bool_decide_eq_false in Hlen.
  rewrite length_fmap in Hlen.
  destruct (map_to_list es) as [|kv l] eqn:Hl; [|simpl in Hlen; lia].
  apply map_to_list_empty_iff in Hl as ->. simpl in Hp.
  by rewrite lookup_empty in Hp.
Qed.

End Grows.

Ltac kept_file_side Hp :=
  repeat match goal with
  | |- lookup_path ?n ?p = Some (File ?v) => first
      [ exact Hp
      | match goal with
        | Hw : write_file ?m (joinpath _ _) _ = Ok n |- _ =>
            apply (write_from_keeps_file _ _ _ _ _ _ _ Hw);
            [ first [ by eapply not_below_missing
                    | by eapply not_below_empty ] |]
        | Hm : mkdir_parents ?m _ = Ok n |- _ =>
            apply (mkdir_from_keeps_file _ _ _ _ _ _ Hm)
        end ]
  end.

Ltac kept_dir_side Hp :=
  repeat match goal with
  | |- isdir ?n ?p = true => first
      [ exact Hp
      | match goal with
        | Hw : write_file ?m (joinpath _ _) _ = Ok n |- _ =>
            apply (write_from_keeps_dir _ _ _ _ _ _ Hw)
        | Hm : mkdir_parents ?m _ = Ok n |- _ =>
            apply (mkdir_from_keeps_dir _ _ _ _ _ Hm)
        end ]
  end.

Section GrowsWalks.
Context `{TorchTypes} `{!Libs}.

Lemma existing_file_kept a p v :
  kept_by_folds a (λ n, lookup_path n p = Some (File v)).
Proof.
  intros dyn c ds dataset_json fip name config fold params net n _ _ Hp.
  unfold export_fold.
  repeat moves_step.
  all: kept_file_side Hp.
Qed.

Lemma existing_directory_kept a p :
  kept_by_folds a (λ n, isdir n p = true).
Proof.
  intros dyn c ds dataset_json fip name config fold params net n _ _ Hp.
  unfold export_fold.
  repeat moves_step.
  all: kept_dir_side Hp.
Qed.

(** X9. With plain names, a run only adds to the file system: a file
    that exists before the run is there with the same content afterwards,
    and a directory that exists before is still a directory; nothing is
    overwritten or removed, also when the run ends with an exception. *)
Theorem X9_nothing_overwritten_or_removed a w p :
  plain_args a = true →
  let n' := fs (export_onnx_model a w).2 in
  (∀ v, lookup_path (fs w) p = Some (File v) →
        lookup_path n' p = Some (File v))
  ∧ (isdir (fs w) p = true → isdir n' p = true).
Proof.
  intros _. split.
  - intros v Hp.
    by apply (export_onnx_model_keeps a _ (fs w) (existing_file_kept a p v)).
  - intros Hp.
    by apply (export_onnx_model_keeps a _ (fs w)
                (existing_directory_kept a p)).
Qed.

End GrowsWalks.

Section Covers.
Context `{TorchTypes} `{!Libs}.

Lemma dumped_mono out c f Δ1 Δ Δ2 :
  dumped out c f Δ → dumped out c f (Δ1 ++ Δ ++ Δ2).
Proof.
  intros (j & Hin & ?). exists j. split; [|done].
  rewrite !elem_of_app. tauto.
Qed.

Lemma produces_for_each_covers {A S} (l : list A) (body : A → S → M S)
    (Q : A → list event → Prop) (I : S → Prop) :
  (∀ x Δ1 Δ Δ2, Q x Δ → Q x (Δ1 ++ Δ ++ Δ2)) →
  (∀ x s, x ∈ l → I s →
     produces (body x s) (λ r Δ, ∀ s', r = Ok s' → Q x Δ ∧ I s')) →
  ∀ s, I s →
  produces (for_each l s body)
    (λ r Δ, ∀ s', r = Ok s' → (∀ x, x ∈ l → Q x Δ) ∧ I s').
Proof.
  intros Hmono. induction l as [|x l IH]; intros Hbody s Hs; simpl.
  - apply produces_ret. intros s' [= <-]. split; [|done].
    intros x Hx. by apply elem_of_nil in Hx.
  - eapply produces_bind
      with (Φ1 := λ r Δ, ∀ s', r = Ok s' → Q x Δ ∧ I s').
    + apply Hbody; [left|done].
    + by intros e Δ _ s' ?.
    + intros s1 Δ1 H1. destruct (H1 _ eq_refl) as [HQ HI].
      eapply produces_conseq.
      * apply IH; [|exact HI]. intros y s0 Hy. apply Hbody. by right.
      * intros r Δ2 H2 s' ->. destruct (H2 _ eq_refl) as [HQs HI'].
        split; [|done]. intros y [->|Hy]%elem_of_cons.
        -- by apply (Hmono _ [] Δ1 Δ2).
        -- rewrite <- (app_nil_r Δ2). by apply (Hmono _ Δ1 Δ2 []), HQs.
Qed.

Lemma export_fold_dumps a dyn c ds dataset_json fip name config fold
    params net :
  produces
    (export_fold a dyn c ds dataset_json fip name config (fold, params) net)
    (λ r Δ, ∀ net', r = Ok net' → dumped (output_dir a) c fold Δ ∧ True).
Proof.
  unfold export_fold.
  repeat walk_step.
  all: try (intros ? ?; by simplify_eq).
  all: intros net' _; split; [|done].
  all: match goal with
       | Hc : config_dict _ _ _ _ _ _ _ _ = Ok ?j |- _ =>
           destruct (config_dict_complete _ _ _ _ _ _ _ _ _ Hc)
             as (_ & ? & ?);
           exists j; split; [|done]
       end.
  all: repeat first [apply list_elem_of_here | apply list_elem_of_further].
Qed.

Lemma zip_covers {A B} (l : list A) (k : list B) x :
  x ∈ l → length l ≤ length k → ∃ y, (x, y) ∈ zip l k.
Proof.
  revert k. induction l as [|z l IH]; intros k Hx Hlen.
  - by apply elem_of_nil in Hx.
  - destruct k as [|y k]; simpl in Hlen; [lia|].
    apply elem_of_cons in Hx as [->|Hx].
    + exists y. left.
    + destruct (IH k Hx ltac:(lia)) as [y' Hy']. exists y'. by right.
Qed.

Section WithParameters.
Variable a : args.
Hypothesis parameters_for_folds : ∀ n dir cp pr,
  initialize_from_trained_model_folder n dir (folds a) cp = Returns pr →
  length (folds a) ≤ length (list_of_parameters pr).

Lemma export_checkpoint_dumps dyn c ds dir dataset_json fip cp name :
  produces (export_checkpoint a dyn c ds dir dataset_json fip cp name)
    (λ r Δ, is_ok r = true →
            ∀ f, f ∈ folds a → dumped (output_dir a) c f Δ).
Proof using All.
  unfold export_checkpoint.
  repeat walk_step; try done.
  rename a0 into pr.
  eapply produces_bind
    with (Φ1 := λ r Δ, ∀ net', r = Ok net' →
                  (∀ fp, fp ∈ zip (folds a) (list_of_parameters pr) →
                         dumped (output_dir a) c fp.1 Δ) ∧ True).
  - apply (produces_for_each_covers _ _
             (λ fp Δ, dumped (output_dir a) c fp.1 Δ) (λ _, True));
      [|  |done].
    + intros fp Δ1 Δ Δ2. apply dumped_mono.
    + intros [fold params] net _ _. apply export_fold_dumps.
  - by intros e Δ _ ?.
  - intros net Δ1 H1. apply produces_ret. intros _ f Hf.
    destruct (H1 _ eq_refl) as [Hall _].
    destruct (zip_covers (folds a) (list_of_parameters pr) f Hf)
      as [params Hin]; [by eapply parameters_for_folds|].
    apply (dumped_mono _ _ _ [_] _ []).
    apply (Hall _ Hin).
Qed.

Lemma export_checkpoint_produces dyn c ds dir dataset_json fip cp name :
  produces (export_checkpoint a dyn c ds dir dataset_json fip cp name)
    (λ _ _, True).
Proof.
  eapply produces_conseq; [apply export_checkpoint_well_placed|done].
Qed.

Lemma for_zip_produces cps it (body : string → string → M unit) :
  (∀ cp name, produces (body cp name) (λ _ _, True)) →
  produces (for_zip cps it body) (λ _ _, True).
Proof.
  intros Hbody. eapply produces_conseq.
  - apply (produces_for_zip cps body (λ _ _, True) (λ _, True));
      [by split|done| |done].
    intros. apply Hbody.
  - done.
Qed.

Lemma produces_of_runs {A} (m : M A) Φ :
  (∀ n, runs n (λ r _ Δ, Φ r Δ) m) → produces m Φ.
Proof. intros Hm w. by apply (Hm (fs w) w). Qed.

Lemma export_configuration_dumps dyn ds c names :
  names ≠ [] → save_checkpoints a ≠ [] →
  produces (export_configuration a dyn ds c (NamesTuple names))
    (λ r Δ, ∀ names', r = Ok names' →
            (∀ f, f ∈ folds a → dumped (output_dir a) c f Δ)
            ∧ names' = NamesTuple names).
Proof using All.
  intros Hnames Hcps. apply produces_of_runs. intros n.
  unfold export_configuration.
  repeat runs_step; try (intros ? ?; by simplify_eq).
  - exfalso.
    match goal with
    | Hok : load_json_from n (joinpath ?dir "dataset.json") = Ok _,
      Hdir : negb (isdir n ?dir) = true |- _ =>
        apply negb_true_iff in Hdir;
        pose proof (load_json_from_missing n dir "dataset.json" Hdir) as Hm;
        by rewrite Hok in Hm
    end.
  - destruct (save_checkpoints a) as [|cp cps]; [done|].
    destruct names as [|name names]; [done|]. simpl.
    apply runs_assoc.
    eapply runs_bind;
      [apply runs_of_produces, export_checkpoint_dumps|..].
    + by intros e n1 Δ _ ? ?.
    + intros [] n1 Δ1 H1. specialize (H1 eq_refl).
      eapply runs_bind with (R1 := λ _ _ _, True).
      * apply runs_of_produces, for_zip_produces.
        intros. apply export_checkpoint_produces.
      * by intros e n2 Δ _ ? ?.
      * intros it n2 Δ2 _. apply runs_ret. intros ? [= <-].
        split; [|done]. intros f Hf.
        rewrite app_nil_r.
        apply (dumped_mono _ _ _ [_; _; _; _; _] Δ1 Δ2). by apply H1.
Qed.

Lemma export_onnx_model_dumps names :
  output_names a = Some names → names ≠ [] → save_checkpoints a ≠ [] →
  produces (export_onnx_model a)
    (λ r Δ, is_ok r = true →
            ∀ c f, c ∈ configurations a → f ∈ folds a →
                   dumped (output_dir a) c f Δ).
Proof using All.
  intros Hnames Hne Hcps. unfold export_onnx_model. rewrite Hnames.
  destruct names as [|name names]; [done|]. simpl.
  destruct (bool_decide (batch_size a < 0)%Z); [by apply produces_raise|].
  repeat walk_step; try done.
  eapply produces_bind.
  - apply (produces_for_each_covers _ _
             (λ c Δ, ∀ f, f ∈ folds a → dumped (output_dir a) c f Δ)
             (λ it, it = NamesTuple (name :: names))); [| |done].
    + intros c Δ1 Δ Δ2 HΔ f Hf. by apply dumped_mono, HΔ.
    + intros c it _ ->. by apply export_configuration_dumps.
  - by intros e Δ _ ?.
  - intros it Δ1 H1. apply produces_ret. intros _ c f Hc Hf.
    destruct (H1 _ eq_refl) as [Hall _].
    apply (dumped_mono _ _ _ [_] _ []).
    by apply Hall.
Qed.

End WithParameters.

(** X10. With plain names and output names given, none of them
    "config.json", a run that returns has exported every requested pair,
    provided the predictor holds parameters for every requested fold:
    the config.json of each directory [output_dir/c/fold_f] holds a
    metadata object of configuration [c] and fold [f], and beside it is
    an exported artifact under one of the given names. *)
Theorem X10_given_names_export_every_pair a w names :
  plain_args a = true →
  output_names a = Some names → names ≠ [] → "config.json" ∉ names →
  save_checkpoints a ≠ [] →
  (∀ n dir cp pr,
     initialize_from_trained_model_folder n dir (folds a) cp = Returns pr →
     length (folds a) ≤ length (list_of_parameters pr)) →
  is_ok (export_onnx_model a w).1 = true →
  ∀ c f, c ∈ configurations a → f ∈ folds a →
    ∃ j name b,
      name ∈ names
      ∧ lookup_path (fs (export_onnx_model a w).2)
          (joinpath (fold_dir (output_dir a) c f) "config.json")
        = Some (File (JsonDoc j))
      ∧ member "configuration" j = JStr c
      ∧ member "fold" j = json_of_int_or_str f
      ∧ lookup_path (fs (export_onnx_model a w).2)
          (joinpath (fold_dir (output_dir a) c f) name)
        = Some (File (OnnxFile b)).
Proof.
  intros _ Hnames Hne Hcfg Hcps Hparams Hok c f Hc Hf.
  destruct (export_onnx_model_dumps a Hparams names Hnames Hne Hcps w)
    as (Δ & Ht & Hdumps).
  destruct (Hdumps Hok c f Hc Hf) as (j & Hin & Hcj & Hfj).
  destruct (delivered_of_run a w) as (Δ' & Ht' & Hplaced & Hd).
  assert (Δ' = Δ) as -> by (rewrite Ht in Ht'; by simplify_list_eq).
  destruct (Hd _ _ Hin)
    as (c' & f' & name & x & dyn & Hp & Hfile & Hexp & Hart).
  apply app_inj_tail in Hp as [Hdir _].
  assert (name ∈ names) as Hname.
  { apply list_elem_of_split in Hexp as (pre & post & ->).
    pose proof (guarded_split _ _ _ _ _ Hplaced eq_refl) as He.
    simpl in He. destruct He as [(c2 & f2 & name2 & _ & _ & Hin2 & Hp2) _].
    apply app_inj_tail in Hp2 as [_ ->]. simpl in Hin2.
    unfold candidate_names in Hin2. rewrite Hnames in Hin2.
    by destruct names. }
  destruct Hart as [b Hb]; [by intros ->|].
  exists j, name, b. rewrite Hdir. split_and!; try done.
  by rewrite <- Hdir at 1.
Qed.

End Covers.

Section FirstOnly.
Context `{TorchTypes} `{!Libs}.

Lemma moves_of_runs {A} n (R : result A → node → Prop) (m : M A) :
  runs n (λ r n' _, R r n') m → moves n R m.
Proof. intros Hm w Hw. by destruct (Hm w Hw) as (Δ & _ & HR). Qed.

Lemma moves_and {A} n (R1 R2 : result A → node → Prop) (m : M A) :
  moves n R1 m → moves n R2 m → moves n (λ r n', R1 r n' ∧ R2 r n') m.
Proof. intros H1 H2 w Hw. split; [by apply H1|by apply H2]. Qed.

Lemma export_configuration_exhausted_still a dyn ds c n :
  moves n (λ r n', n' = n
                   ∧ ∀ names, r = Ok names → names = NamesGenerator [])
    (export_configuration a dyn ds c (NamesGenerator [])).
Proof.
  unfold export_configuration.
  repeat moves_step;
    try (split; [reflexivity|]; intros ? ?; by simplify_eq).
  rewrite for_zip_exhausted. repeat moves_step.
  split; [reflexivity|]. by intros ? [= <-].
Qed.

Lemma later_configurations_still a dyn ds cs n :
  moves n (λ _ n', n' = n)
    (for_each cs (NamesGenerator []) (export_configuration a dyn ds)).
Proof.
  induction cs as [|c cs IH]; simpl.
  - by apply moves_ret.
  - eapply moves_bind; [apply export_configuration_exhausted_still|..].
    + cbv beta. intros e n1 Hn. apply Hn.
    + cbv beta. intros names n1 [Hn Hnames]. subst n1.
      by rewrite (Hnames _ eq_refl).
Qed.

Lemma first_configuration_changes a dyn ds c n :
  moves n (λ _ n', changes_within
                     (λ d, ∃ f, d = fold_dir (output_dir a) c f) n n')
    (export_configuration a dyn ds c (NamesGenerator (save_checkpoints a))).
Proof.
  eapply moves_conseq.
  - apply (export_configuration_keeps (with_configurations [c] a)
             (changes_within (fold_dirs (with_configurations [c] a)) n)
             dyn ds c (NamesGenerator (save_checkpoints a)) n).
    + apply changes_within_kept.
    + simpl. left.
    + apply changes_within_refl.
  - intros r n'. cbv beta. apply changes_within_mono.
    intros d (c' & f & Hc' & _ & ->). simpl in Hc'.
    apply list_elem_of_singleton in Hc' as ->. by exists f.
Qed.

(** X11. Without output names and with plain names, a run touches the
    output of the first configuration only: whatever it creates, exports, opens or dumps is in
    a fold directory of the first configuration, and what the output
    directory holds under the name of any other configuration is as it
    was before the run. *)
Theorem X11_default_names_first_configuration_only a w c cs :
  plain_args a = true →
  not_output_names (output_names a) = true →
  configurations a = c :: cs →
  (∃ Δ, trace (export_onnx_model a w).2 = trace w ++ Δ
        ∧ Forall (within_configuration (output_dir a) c) Δ)
  ∧ ∀ c', c' ≠ c →
      lookup_path (fs (export_onnx_model a w).2) (joinpath (output_dir a) c')
      = lookup_path (fs w) (joinpath (output_dir a) c').
Proof.
  intros _ Hnone Hcs. split; [by apply only_first_configuration with cs|].
  intros c' Hne.
  cut (moves (fs w)
         (λ _ n', changes_within
                    (λ d, ∃ f, d = fold_dir (output_dir a) c f) (fs w) n')
         (export_onnx_model a)).
  { intros Hm. apply (Hm w eq_refl).
    intros d x [f ->] Hpre. unfold fold_dir, joinpath in Hpre.
    rewrite <- !app_assoc in Hpre. apply prefix_app_inv in Hpre.
    simpl in Hpre. by apply prefix_cons_inv_1 in Hpre. }
  unfold export_onnx_model. rewrite Hnone, Hcs.
  destruct (bool_decide (batch_size a < 0)%Z);
    [apply moves_raise, changes_within_refl|].
  repeat moves_step; try apply changes_within_refl.
  simpl. apply moves_assoc.
  eapply moves_bind.
  - apply moves_and; [apply first_configuration_changes|].
    apply moves_of_runs, export_configuration_exhausts.
  - cbv beta. intros e n1 Hch. apply Hch.
  - cbv beta. intros names n1 [Hch Hnames]. rewrite (Hnames _ eq_refl).
    eapply moves_bind; [apply later_configurations_still|..].
    + cbv beta. intros e n2 Hn. by subst n2.
    + cbv beta. intros it n2 Hn. subst n2. by apply moves_ret.
Qed.

End FirstOnly.

Section Once.
Context `{TorchTypes} `{!Libs}.

Lemma export_dirs_app Δ1 Δ2 :
  export_dirs (Δ1 ++ Δ2) = export_dirs Δ1 ++ export_dirs Δ2.
Proof. apply omap_app. Qed.

Lemma once_idle n Δ0 Δ1 :
  export_dirs Δ1 = [] → once n Δ0 → once n (Δ0 ++ Δ1).
Proof.
  intros HΔ1. unfold once. by rewrite export_dirs_app, HΔ1, app_nil_r.
Qed.

Lemma exports_once_ret {A} (x : A) : exports_once (ret x).
Proof.
  intros n Δ0 Honce. apply runs_ret. rewrite app_nil_r.
  split; [apply Honce|done].
Qed.

Lemma exports_once_raise {A} e : exports_once (@raise _ A e).
Proof.
  intros n Δ0 Honce. apply runs_raise. rewrite app_nil_r.
  split; [apply Honce|done].
Qed.

Lemma exports_once_bind {A B} (m : M A) (k : A → M B) :
  exports_once m → (∀ x, exports_once (k x)) → exports_once (bind m k).
Proof.
  intros Hm Hk n Δ0 Honce.
  eapply runs_bind; [by apply Hm|..]; cbv beta.
  - intros e n1 Δ1 [HΔ _]. by split.
  - intros x n1 Δ1 [_ HΔ]. specialize (HΔ eq_refl).
    eapply runs_conseq; [by apply Hk|]. cbv beta.
    intros r n2 Δ2. by rewrite app_assoc.
Qed.

Lemma exports_once_emit e : export_dir e = None → exports_once (emit e).
Proof.
  intros He n Δ0 Honce w Hw. exists [e]. split; [done|]. simpl.
  assert (once n (Δ0 ++ [e])) as Honce'.
  { apply once_idle; [|done]. simpl. by rewrite He. }
  rewrite Hw. split; [apply Honce'|done].
Qed.

Lemma exports_once_lift {A} (r : result A) : exports_once (lift r).
Proof.
  intros n Δ0 Honce w Hw. exists []. rewrite !app_nil_r. simpl.
  split; [done|]. rewrite Hw. split; [apply Honce|done].
Qed.

Lemma exports_once_call {A} callee (o : outcome A) :
  exports_once (call callee o).
Proof.
  destruct o; [apply exports_once_ret|apply exports_once_raise].
Qed.

Lemma exports_once_get_fs : exports_once get_fs.
Proof.
  intros n Δ0 Honce w Hw. exists []. rewrite !app_nil_r. simpl.
  split; [done|]. rewrite Hw. split; [apply Honce|done].
Qed.

Lemma exports_once_for_each {A S} (l : list A) (body : A → S → M S) :
  (∀ x s, x ∈ l → exports_once (body x s)) →
  ∀ s, exports_once (for_each l s body).
Proof.
  induction l as [|x l IH]; intros Hbody s; simpl.
  - apply exports_once_ret.
  - apply exports_once_bind; [apply Hbody; left|].
    intros s'. apply IH. intros y s0 Hy. apply Hbody. by right.
Qed.

Lemma exports_once_for_zip cps it (body : string → string → M unit) :
  (∀ cp name, exports_once (body cp name)) →
  exports_once (for_zip cps it body).
Proof.
  intros Hbody. revert it. induction cps as [|cp cps IH]; intros it; simpl.
  - apply exports_once_ret.
  - destruct (next_name it) as [[name it']|]; [|apply exports_once_ret].
    apply exports_once_bind; [apply Hbody|]. intros _. apply IH.
Qed.

Lemma free_of_missing_directory n d :
  negb (exists_ n d) = true → free n d.
Proof.
  intros Hd x. unfold exists_, joinpath in *. rewrite lookup_path_app.
  by destruct (lookup_path n d).
Qed.

Lemma free_of_empty_directory n d entries :
  iterdir n d = Ok entries → bool_decide (0 < length entries) = false →
  free n d.
Proof.
  intros Hit Hlen x. unfold exists_, joinpath. rewrite lookup_path_app.
  unfold iterdir in Hit.
  destruct (lookup_path n d) as [[c|es]|]; [done| |done].
  injection Hit as <-. apply bool_decide_eq_false in Hlen.
  rewrite length_fmap in Hlen.
  destruct (map_to_list es) as [|kv l] eqn:Hl; [|simpl in Hlen; lia].
  apply map_to_list_empty_iff in Hl as ->. simpl.
  by rewrite lookup_empty.
Qed.

Lemma free_not_occupied n d : free n d → ¬ occupied n d.
Proof. intros Hfree [x Hx]. by rewrite Hfree in Hx. Qed.

(** One fold exports at most once, into its directory, which had no
    entry when the fold began. *)
Lemma export_fold_exports a dyn c ds dataset_json fip name config fold
    params net n :
  runs n (λ _ _ Δ,
            export_dirs Δ = []
            ∨ (export_dirs Δ = [fold_dir (output_dir a) c fold]
               ∧ free n (fold_dir (output_dir a) c fold)))
    (export_fold a dyn c ds dataset_json fip name config (fold, params) net).
Proof.
  unfold export_fold.
  repeat runs_step.
  all: first
    [ by left
    | right; split;
      [ unfold export_dirs; simpl; unfold joinpath;
        by rewrite removelast_last
      | first [ by eapply free_of_missing_directory
              | by eapply free_of_empty_directory ] ] ].
Qed.

(** A fold that returns leaves its directory with an entry. *)
Lemma export_fold_occupies a dyn c ds dataset_json fip name config fold
    params net n :
  moves n (λ r n', is_ok r = true →
                   occupied n' (fold_dir (output_dir a) c fold))
    (export_fold a dyn c ds dataset_json fip name config (fold, params) net).
Proof.
  unfold export_fold.
  repeat moves_step; try done.
  all: intros _; exists "config.json"; unfold exists_.
  all: match goal with
       | Hw : write_file _ (joinpath _ "config.json") (JsonDoc _) = Ok ?n'
         |- context [lookup_path ?n' _] =>
           by rewrite (write_from_lookup _ _ _ _ _ Hw)
       end.
Qed.

Lemma exists_kept a p : kept_by_folds a (λ n, exists_ n p = true).
Proof.
  intros dyn c ds dataset_json fip name config fold params net n Hc Hf Hp.
  unfold exists_ in Hp.
  destruct (lookup_path n p) as [[v|es]|] eqn:Hn; [| |done].
  - eapply moves_conseq; [by eapply (existing_file_kept a p v)|].
    cbv beta. intros r n' Hn'. unfold exists_. by rewrite Hn'.
  - eapply moves_conseq.
    + eapply (existing_directory_kept a p); [done|done|].
      unfold isdir. by rewrite Hn.
    + cbv beta. intros r n'. unfold isdir, exists_.
      by destruct (lookup_path n' p) as [[]|].
Qed.

Lemma export_fold_exports_once a dyn c ds dataset_json fip name config
    fold params net :
  c ∈ configurations a → fold ∈ folds a →
  exports_once
    (export_fold a dyn c ds dataset_json fip name config (fold, params) net).
Proof.
  intros Hc Hf n Δ0 [Hnd Hocc] w Hw.
  destruct (export_fold_exports a dyn c ds dataset_json fip name config
              fold params net n w Hw) as (Δ & Ht & HΔ).
  pose proof (export_fold_occupies a dyn c ds dataset_json fip name config
                fold params net n w Hw) as Hd.
  exists Δ. split; [done|]. unfold once. rewrite !export_dirs_app.
  cbv beta in Hd.
  assert (∀ d, d ∈ export_dirs Δ0 →
               occupied (fs (export_fold a dyn c ds dataset_json fip name
                               config (fold, params) net w).2) d)
    as Hkept.
  { intros d [x Hx]%Hocc. exists x.
    by apply (exists_kept a _ dyn c ds dataset_json fip name config fold
                params net n Hc Hf Hx w Hw). }
  destruct HΔ as [->|[-> Hfree]].
  - rewrite app_nil_r. split; [done|]. intros _. by split.
  - assert (NoDup (export_dirs Δ0 ++ [fold_dir (output_dir a) c fold]))
      as Hnd'.
    { apply NoDup_app. split_and!; [done| |apply NoDup_singleton].
      intros d Hd0 ->%list_elem_of_singleton.
      by apply (free_not_occupied _ _ Hfree), Hocc. }
    split; [done|]. intros Hok. split; [done|].
    intros d [Hd0| ->%list_elem_of_singleton]%elem_of_app;
      [by apply Hkept|by apply Hd].
Qed.

Ltac once_step :=
  lazymatch goal with
  | |- exports_once (bind _ _) => apply exports_once_bind; [|intros ?]
  | |- exports_once (emit _) => by apply exports_once_emit
  | |- exports_once (print _) => by apply exports_once_emit
  | |- exports_once (ret _) => apply exports_once_ret
  | |- exports_once (raise _) => apply exports_once_raise
  | |- exports_once (lift _) => apply exports_once_lift
  | |- exports_once (call _ _) => apply exports_once_call
  | |- exports_once get_fs => apply exports_once_get_fs
  | |- exports_once (if ?b then _ else _) => destruct b
  end.

Lemma export_checkpoint_exports_once a dyn c ds dir dataset_json fip cp
    name :
  c ∈ configurations a →
  exports_once (export_checkpoint a dyn c ds dir dataset_json fip cp name).
Proof.
  intros Hc. unfold export_checkpoint.
  repeat once_step.
  apply exports_once_for_each. intros [fold params] net Hin.
  apply export_fold_exports_once; [done|]. by eapply elem_of_zip_l.
Qed.

Lemma export_configuration_exports_once a dyn ds c names :
  c ∈ configurations a →
  exports_once (export_configuration a dyn ds c names).
Proof.
  intros Hc. unfold export_configuration.
  repeat once_step.
  apply exports_once_for_zip. intros cp name.
  by apply export_checkpoint_exports_once.
Qed.

Lemma export_onnx_model_exports_once a : exports_once (export_onnx_model a).
Proof.
  unfold export_onnx_model.
  repeat once_step.
  apply exports_once_for_each. intros c names Hc.
  by apply export_configuration_exports_once.
Qed.

(** X12. With plain names, no directory receives two exports in a run:
    the directories of the export calls of a run ([export_dirs], the
    paths of the exported files without their last component) are
    pairwise different, so a fold
    directory that a checkpoint or a fold was exported into is not
    exported into again by a later checkpoint, or by a later fold with
    the same directory name. *)
Theorem X12_no_directory_exported_twice a w :
  plain_args a = true →
  ∃ Δ, trace (export_onnx_model a w).2 = trace w ++ Δ
       ∧ NoDup (export_dirs Δ).
Proof.
  intros _.
  destruct (export_onnx_model_exports_once a (fs w) []) with (w := w)
    as (Δ & Ht & Hnd & _); [|done|by exists Δ].
  split; [apply NoDup_nil_2|]. intros d Hd. by apply elem_of_nil in Hd.
Qed.

End Once.

Section SecondCheckpoint.
Context `{TorchTypes} `{!Libs}.

Lemma occupied_inv n d :
  occupied n d → ∃ es, lookup_path n d = Some (Dir es) ∧ es ≠ ∅.
Proof.
  intros [x Hx]. unfold exists_, joinpath in Hx.
  rewrite lookup_path_app in Hx.
  destruct (lookup_path n d) as [[v|es]|]; simpl in Hx; try done.
  exists es. split; [done|]. intros ->. by rewrite lookup_empty in Hx.
Qed.

(** A fold whose directory has an entry does not return. *)
Lemma export_fold_refused a dyn c ds dataset_json fip name config fold
    params net n :
  occupied n (fold_dir (output_dir a) c fold) →
  moves n (λ r _, is_ok r = false)
    (export_fold a dyn c ds dataset_json fip name config (fold, params) net).
Proof.
  intros (es & Hd & Hes)%occupied_inv w Hw.
  destruct (iterdir_nonempty _ _ _ Hd Hes) as (entries & Hit & Hlen).
  rewrite <- Hw in Hd, Hit.
  apply (export_fold_occupied a dyn c ds dataset_json fip name config fold
           params net w entries); [|done|done].
  unfold exists_. by rewrite Hd.
Qed.

Section WithParameters.
Variable a : args.
Hypothesis parameters_for_folds : ∀ n dir cp pr,
  initialize_from_trained_model_folder n dir (folds a) cp = Returns pr →
  length (folds a) ≤ length (list_of_parameters pr).

(** A checkpoint that returns leaves the directory of the first fold
    with an entry. *)
Lemma export_checkpoint_occupies dyn c ds dir dataset_json fip cp name
    f fs' n :
  c ∈ configurations a → folds a = f :: fs' →
  moves n (λ r n', is_ok r = true →
                   occupied n' (fold_dir (output_dir a) c f))
    (export_checkpoint a dyn c ds dir dataset_json fip cp name).
Proof using All.
  intros Hc Hfolds. unfold export_checkpoint.
  repeat moves_step; try done.
  rename a0 into pr.
  pose proof (parameters_for_folds _ _ _ _ Hok) as Hlen.
  rewrite Hfolds in Hlen |- *.
  destruct (list_of_parameters pr) as [|params ps]; [simpl in Hlen; lia|].
  simpl. apply moves_assoc.
  eapply moves_bind; [apply export_fold_occupies|..]; cbv beta.
  - done.
  - intros net n1 Hocc. specialize (Hocc eq_refl).
    destruct Hocc as [x Hx].
    eapply moves_bind
      with (R1 := λ _ n', exists_ n' (joinpath (fold_dir (output_dir a) c f)
                                        x) = true).
    + apply (moves_for_each _ _
               (λ n', exists_ n' (joinpath (fold_dir (output_dir a) c f) x)
                      = true)); [|done].
      intros [fold' params'] net' n2 Hin Hn2.
      apply (exists_kept a); [done| |done].
      rewrite Hfolds. right. by eapply elem_of_zip_l.
    + done.
    + intros net' n2 Hn2. apply moves_ret. intros _. by exists x.
Qed.

(** A checkpoint that finds the directory of the first fold with an
    entry does not return. *)
Lemma export_checkpoint_refused dyn c ds dir dataset_json fip cp name
    f fs' n :
  folds a = f :: fs' →
  occupied n (fold_dir (output_dir a) c f) →
  moves n (λ r _, is_ok r = false)
    (export_checkpoint a dyn c ds dir dataset_json fip cp name).
Proof using All.
  intros Hfolds Hocc. unfold export_checkpoint.
  repeat moves_step; try done.
  rename a0 into pr.
  pose proof (parameters_for_folds _ _ _ _ Hok) as Hlen.
  rewrite Hfolds in Hlen |- *.
  destruct (list_of_parameters pr) as [|params ps]; [simpl in Hlen; lia|].
  simpl. apply moves_assoc.
  eapply moves_bind; [by apply export_fold_refused|..]; cbv beta.
  - done.
  - by intros net n1 ?.
Qed.

(** The first two checkpoints of a configuration: the second one is
    refused when the first one returned. *)
Lemma export_configuration_refused dyn ds c names cp1 cp2 cps n1 n2 it
    f fs' n :
  c ∈ configurations a → folds a = f :: fs' →
  save_checkpoints a = cp1 :: cp2 :: cps →
  next_name names = Some (n1, it) → (∃ it', next_name it = Some (n2, it')) →
  moves n (λ r _, is_ok r = false)
    (export_configuration a dyn ds c names).
Proof using All.
  intros Hc Hfolds Hcps Hn1 [it' Hn2]. unfold export_configuration.
  repeat moves_step; try done.
  - exfalso.
    match goal with
    | Hok : load_json_from n (joinpath ?dir "dataset.json") = Ok _,
      Hdir : negb (isdir n ?dir) = true |- _ =>
        apply negb_true_iff in Hdir;
        pose proof (load_json_from_missing n dir "dataset.json" Hdir) as Hm;
        by rewrite Hok in Hm
    end.
  - rewrite Hcps. simpl. rewrite Hn1, Hn2.
    apply moves_assoc.
    eapply moves_bind;
      [by eapply export_checkpoint_occupies|..]; cbv beta.
    + done.
    + intros [] n3 Hocc. specialize (Hocc eq_refl).
      apply moves_assoc.
      eapply moves_bind;
        [by eapply export_checkpoint_refused|..]; cbv beta.
      * done.
      * by intros [] n4 ?.
Qed.

End WithParameters.

(** X13. A run with two or more checkpoints never returns (given a
    configuration and a fold to export, names for at least two
    checkpoints or none at all, and a predictor that holds parameters
    for every fold): the second checkpoint of the first configuration
    is to be exported into the directories that hold the first one, and
    is refused. *)
Theorem X13_second_checkpoint_refused a w cp1 cp2 cps c cs f fs' :
  save_checkpoints a = cp1 :: cp2 :: cps →
  configurations a = c :: cs →
  folds a = f :: fs' →
  (∀ names, output_names a = Some names →
            names = [] ∨ 2 ≤ length names) →
  (∀ n dir cp pr,
     initialize_from_trained_model_folder n dir (folds a) cp = Returns pr →
     length (folds a) ≤ length (list_of_parameters pr)) →
  is_ok (export_onnx_model a w).1 = false.
Proof.
  intros Hcps Hcs Hfolds Hnames Hparams.
  apply (λ Hm : moves (fs w) (λ r _, is_ok r = false) (export_onnx_model a),
           Hm w eq_refl).
  unfold export_onnx_model.
  destruct (bool_decide (batch_size a < 0)%Z); [by apply moves_raise|].
  repeat moves_step; try done.
  rewrite Hcs. simpl. apply moves_assoc.
  eapply moves_bind with (R1 := λ r _, is_ok r = false); cbv beta.
  - assert (c ∈ configurations a) as Hc by (rewrite Hcs; left).
    destruct (output_names a) as [[|n1 names]|] eqn:Hout; simpl.
    + apply (export_configuration_refused a Hparams _ _ c _ cp1 cp2 cps
               (derived_name cp1) (derived_name cp2)
               (NamesGenerator (cp2 :: cps)) f fs'); try done.
      * by rewrite Hcps.
      * by eexists.
    + destruct (Hnames _ eq_refl) as [|Hlen]; [done|].
      destruct names as [|n2 names]; [simpl in Hlen; lia|].
      apply (export_configuration_refused a Hparams _ _ c _ cp1 cp2 cps
               n1 n2 (NamesTuple (n2 :: names)) f fs'); try done.
      by eexists.
    + apply (export_configuration_refused a Hparams _ _ c _ cp1 cp2 cps
               (derived_name cp1) (derived_name cp2)
               (NamesGenerator (cp2 :: cps)) f fs'); try done.
      * by rewrite Hcps.
      * by eexists.
  - done.
  - by intros names n1 ?.
Qed.

End SecondCheckpoint.

Section InTheWay.
Context `{TorchTypes} `{!Libs}.

Lemma mkdir_from_blocked full n q v x k p :
  lookup_path n q = Some (File v) → p = q ++ x :: k →
  mkdir_from full n p = Err (NotADirectoryError full).
Proof.
  intros Hq ->. revert n Hq. induction q as [|y q IH]; intros n Hq; simpl in *.
  - by injection Hq as ->.
  - destruct n as [c|es]; [done|].
    destruct (es !! y) as [n1|] eqn:Hy; [|done].
    by rewrite (IH n1 Hq).
Qed.

(** A fold whose directory, or an ancestor of it, is a regular file ends
    with an exception and writes nothing; the exception is the
    NotADirectoryError of the directory when the parameters load. *)
Lemma export_fold_blocked a dyn c ds dataset_json fip name config fold
    params net n q v :
  lookup_path n q = Some (File v) →
  q `prefix_of` fold_dir (output_dir a) c fold →
  moves n (λ r n', n' = n
                   ∧ is_ok r = false
                   ∧ ∀ net', load_state_dict net params = Returns net' →
                       r = Err (NotADirectoryError
                                  (fold_dir (output_dir a) c fold)))
    (export_fold a dyn c ds dataset_json fip name config (fold, params) net).
Proof.
  intros Hq [k Hk]. unfold export_fold.
  moves_step. moves_step.
  { split_and!; [done|done|]. intros net'. by rewrite Herr. }
  moves_step. moves_step.
  destruct k as [|x k].
  - (* the directory itself is the file *)
    rewrite app_nil_r in Hk.
    assert (exists_ n (fold_dir (output_dir a) c fold) = true) as ->
      by (unfold exists_; by rewrite Hk, Hq).
    simpl. apply moves_assoc. unfold iterdir. rewrite Hk at 1. rewrite Hq.
    by apply moves_raise_bind.
  - assert (exists_ n (fold_dir (output_dir a) c fold) = false) as ->
      by (unfold exists_; by rewrite Hk, lookup_path_app, Hq).
    simpl. apply moves_assoc. apply moves_emit_bind. apply moves_assoc.
    unfold mkdir_parents.
    rewrite (mkdir_from_blocked _ n q v x k _ Hq Hk).
    by apply moves_raise_bind.
Qed.

Lemma blocked_kept a n0 q v :
  lookup_path n0 q = Some (File v) → q `prefix_of` output_dir a →
  kept_by_folds a (λ n, n = n0).
Proof.
  intros Hq Hpre dyn c ds dataset_json fip name config fold params net n
    _ _ ->.
  eapply moves_conseq.
  - apply (export_fold_blocked a dyn c ds dataset_json fip name config fold
             params net n0 q v Hq).
    unfold fold_dir, joinpath. rewrite <- app_assoc.
    by apply prefix_app_r.
  - cbv beta. by intros r n' [-> _].
Qed.

(** X14. With plain names, when the output directory, or one of its
    ancestors, is a regular file, a run writes nothing: the file system after the run is
    the file system before it. *)
Theorem X14_output_directory_is_a_file a w q v :
  plain_args a = true →
  lookup_path (fs w) q = Some (File v) →
  q `prefix_of` output_dir a →
  fs (export_onnx_model a w).2 = fs w.
Proof.
  intros _ Hq Hpre.
  by apply (export_onnx_model_keeps a _ (fs w)
              (blocked_kept a (fs w) q v Hq Hpre)).
Qed.

(** X15. A fold whose directory [output_dir/c/fold_f] is a regular file,
    or lies below one, ends with an exception and an unchanged file
    system; when the parameters load, the exception is the
    NotADirectoryError of that directory. *)
Theorem X15_fold_directory_is_a_file a dyn c ds dataset_json fip name
    config fold params net w q v :
  lookup_path (fs w) q = Some (File v) →
  q `prefix_of` fold_dir (output_dir a) c fold →
  let run := export_fold a dyn c ds dataset_json fip name config
               (fold, params) net w in
  fs run.2 = fs w
  ∧ is_ok run.1 = false
  ∧ ∀ net', load_state_dict net params = Returns net' →
      run.1 = Err (NotADirectoryError (fold_dir (output_dir a) c fold)).
Proof.
  intros Hq Hpre.
  by apply (export_fold_blocked a dyn c ds dataset_json fip name config fold
              params net (fs w) q v Hq Hpre w).
Qed.

(** X16. A plans.json without "foreground_intensity_properties_per_channel"
    ends the run at the first configuration with the KeyError of that
    key, before a predictor is made and with the file system
    unchanged. *)
Theorem X16_plans_without_foreground_properties a w ds c cs dir
    dataset_json plans :
  (0 ≤ batch_size a)%Z →
  configurations a = c :: cs →
  maybe_convert_to_dataset_name (fs w) (dataset_name_or_id a) = Returns ds →
  get_output_folder ds (trainer a) (plans_identifier a) c = Returns dir →
  load_json_from (fs w) (joinpath dir "dataset.json") = Ok dataset_json →
  load_json_from (fs w) (joinpath dir "plans.json") = Ok (JObj plans) →
  dict_get "foreground_intensity_properties_per_channel" plans = None →
  let run := export_onnx_model a w in
  run.1 = Err (KeyError "foreground_intensity_properties_per_channel")
  ∧ fs run.2 = fs w
  ∧ trace run.2
    = trace w ++ [EvDatasetName (dataset_name_or_id a);
                  EvPrint ("Configuration " +:+ c);
                  EvOutputFolder ds (trainer a) (plans_identifier a) c;
                  EvLoadJson (joinpath dir "dataset.json");
                  EvLoadJson (joinpath dir "plans.json")].
Proof.
  intros Hbatch Hcs Hds Hdir Hdj Hplans Hkey. cbv zeta.
  unfold export_onnx_model. rewrite bool_decide_eq_false_2 by lia.
  rewrite Hcs. simpl.
  unfold export_configuration, bind, print, emit, call, get_fs, lift.
  simpl. rewrite Hds. simpl. rewrite Hdir. simpl. rewrite Hdj. simpl.
  rewrite Hplans. simpl. rewrite Hkey. simpl.
  by rewrite <- !app_assoc.
Qed.

End InTheWay.

Section LeftOpen.
Context `{TorchTypes} `{!Libs}.

Lemma leaves_open_ret {A} (x : A) : leaves_open (ret x).
Proof. intros n. apply runs_ret. by intros p. Qed.

Lemma leaves_open_raise {A} e : leaves_open (@raise _ A e).
Proof. intros n. apply runs_raise. by intros p. Qed.

Lemma leaves_open_lift {A} (r : result A) : leaves_open (lift r).
Proof.
  intros n w Hw. exists []. rewrite app_nil_r. split; [done|].
  simpl. by destruct r; intros p.
Qed.

Lemma leaves_open_call {A} callee (o : outcome A) :
  leaves_open (call callee o).
Proof. destruct o; [apply leaves_open_ret|apply leaves_open_raise]. Qed.

Lemma leaves_open_get_fs : leaves_open get_fs.
Proof.
  intros n w Hw. exists []. rewrite app_nil_r. split; [done|]. by intros p.
Qed.

Lemma leaves_open_emit e : opens e = false → leaves_open (emit e).
Proof.
  intros He n w Hw. exists [e]. split; [done|]. simpl.
  intros p [= ->]. done.
Qed.

Lemma leaves_open_bind {A B} (m : M A) (k : A → M B) :
  leaves_open m → (∀ x, leaves_open (k x)) → leaves_open (bind m k).
Proof.
  intros Hm Hk n. eapply runs_bind; [apply Hm|..]; cbv beta.
  - done.
  - intros x n1 Δ1 H1. eapply runs_conseq; [apply Hk|]. cbv beta.
    intros r n2 Δ2 H2. simpl in H1.
    destruct r as [y|e]; simpl in *.
    + intros p. rewrite last_app. destruct (last Δ2) eqn:Hl; [|apply H1].
      intros [= ->]. by apply (H2 p).
    + intros p. rewrite last_app. destruct (last Δ2) eqn:Hl.
      * intros [= ->]. by apply H2.
      * intros Hp. by apply H1 in Hp.
Qed.

Lemma leaves_open_for_each {A S} (l : list A) (body : A → S → M S) :
  (∀ x s, leaves_open (body x s)) → ∀ s, leaves_open (for_each l s body).
Proof.
  intros Hbody. induction l as [|x l IH]; intros s; simpl.
  - apply leaves_open_ret.
  - apply leaves_open_bind; [apply Hbody|apply IH].
Qed.

Lemma leaves_open_for_zip cps it (body : string → string → M unit) :
  (∀ cp name, leaves_open (body cp name)) →
  leaves_open (for_zip cps it body).
Proof.
  intros Hbody. revert it. induction cps as [|cp cps IH]; intros it; simpl.
  - apply leaves_open_ret.
  - destruct (next_name it) as [[name it']|]; [|apply leaves_open_ret].
    apply leaves_open_bind; [apply Hbody|]. intros _. apply IH.
Qed.

Lemma mkdir_from_lookup full n p n' :
  mkdir_from full n p = Ok n' → lookup_path n' p = Some (Dir ∅).
Proof.
  revert n n'. induction p as [|x p IH]; intros n n'; simpl; [done|].
  destruct n as [c|es]; [done|].
  destruct (es !! x) as [n1|] eqn:Hx.
  - destruct (mkdir_from full n1 p) as [n1'|] eqn:Hm; simpl; [|done].
    intros [= <-]. rewrite lookup_insert_eq. by apply (IH n1).
  - intros [= <-]. rewrite lookup_insert_eq.
    clear. induction p as [|y p IH]; simpl; [done|].
    by rewrite lookup_singleton_eq.
Qed.

Lemma free_of_new_directory n d n' :
  mkdir_parents n d = Ok n' → free n' d.
Proof.
  unfold mkdir_parents. intros Hm x. apply mkdir_from_lookup in Hm.
  unfold exists_, joinpath.
  rewrite lookup_path_app, Hm. simpl. by rewrite lookup_empty.
Qed.

Lemma write_from_cons full es z p c :
  p ≠ [] →
  write_from full (Dir es) (z :: p) c
  = match es !! z with
    | Some n' =>
        rbind (write_from full n' p c) (λ n'', Ok (Dir (<[z := n'']> es)))
    | None => Err (FileNotFoundError full)
    end.
Proof. destruct p as [|x p]; [done|]. intros _. apply write_from_below. Qed.

Lemma write_from_sibling full full' n d x y c c' n' :
  write_from full n (d ++ [x]) c = Ok n' →
  exists_ n (d ++ [y]) = false →
  is_ok (write_from full' n' (d ++ [y]) c') = true.
Proof.
  unfold exists_.
  revert n n'. induction d as [|z d IH]; intros n n'.
  - simpl. destruct n as [c0|es]; [done|].
    destruct (es !! x) as [[c1|es1]|] eqn:Hx; try done.
    all: intros [= <-]; destruct (decide (y = x)) as [->|Hne].
    all: rewrite ?lookup_insert_eq, ?lookup_insert_ne by done; try done.
    all: by destruct (es !! y) as [[]|].
  - destruct n as [c0|es]; [done|].
    rewrite <- !app_comm_cons.
    rewrite write_from_cons by (by destruct d).
    simpl lookup_path.
    destruct (es !! z) as [n1|] eqn:Hz; [|done].
    destruct (write_from full n1 (d ++ [x]) c) as [n1'|] eqn:Hw; [|done].
    cbn [rbind]. intros [= <-] Hy.
    rewrite write_from_cons by (by destruct d).
    rewrite lookup_insert_eq.
    pose proof (IH n1 n1' Hw Hy) as Hok.
    by destruct (write_from full' n1' (d ++ [y]) c').
Qed.

Lemma store_config_possible n1 n2 d name c c' :
  write_file n1 (joinpath d name) c = Ok n2 → free n1 d →
  is_ok (write_file n2 (joinpath d "config.json") c') = true.
Proof.
  intros Hw Hfree. eapply write_from_sibling; [exact Hw|apply Hfree].
Qed.

Lemma export_fold_leaves_open a dyn c ds dataset_json fip name config fold
    params net :
  leaves_open
    (export_fold a dyn c ds dataset_json fip name config (fold, params) net).
Proof.
  intros n. unfold export_fold.
  repeat runs_step.
  all: intros p; simpl; try done.
  all: intros [= <-].
  all: try (split;
            [ match goal with
              | Hw : write_file _ ?q (Text "") = Ok ?n'
                |- lookup_path ?n' ?q = _ =>
                  exact (write_from_lookup _ _ _ _ _ Hw)
              end
            | match goal with
              | Hc : config_dict _ _ _ _ _ _ _ _ = Err _ |- _ =>
                  exact (config_dict_error _ _ _ _ _ _ _ _ _ Hc)
              end ]).
  all: exfalso.
  all: match goal with
       | Hw : write_file ?n1 (joinpath ?d _) (OnnxFile _) = Ok ?n2,
         Herr : write_file ?n2 (joinpath ?d "config.json") (Text "") = Err _
         |- _ =>
           assert (free n1 d) as Hfree
             by first [ by eapply free_of_new_directory
                      | by eapply free_of_empty_directory ];
           pose proof (store_config_possible n1 n2 d _ _ (Text "")
                         Hw Hfree) as Hpos;
           by rewrite Herr in Hpos
       end.
Qed.

Ltac open_step :=
  lazymatch goal with
  | |- leaves_open (bind _ _) => apply leaves_open_bind; [|intros ?]
  | |- leaves_open (emit _) => by apply leaves_open_emit
  | |- leaves_open (print _) => by apply leaves_open_emit
  | |- leaves_open (ret _) => apply leaves_open_ret
  | |- leaves_open (raise _) => apply leaves_open_raise
  | |- leaves_open (lift _) => apply leaves_open_lift
  | |- leaves_open (call _ _) => apply leaves_open_call
  | |- leaves_open get_fs => apply leaves_open_get_fs
  | |- leaves_open (if ?b then _ else _) => destruct b
  end.

Lemma export_onnx_model_leaves_open a : leaves_open (export_onnx_model a).
Proof.
  unfold export_onnx_model.
  repeat open_step.
  apply leaves_open_for_each. intros c names.
  unfold export_configuration.
  repeat open_step.
  apply leaves_open_for_zip. intros cp name.
  unfold export_checkpoint.
  repeat open_step.
  apply leaves_open_for_each. intros [fold params] net.
  apply export_fold_leaves_open.
Qed.

(** X17. A run whose last call is the opening of a metadata file has
    raised while building the metadata: the exception is a KeyError, a
    TypeError or an AttributeError, and the config.json it opened is
    left behind empty. *)
Theorem X17_metadata_file_left_empty a w :
  ∃ Δ, trace (export_onnx_model a w).2 = trace w ++ Δ
       ∧ ∀ p, last Δ = Some (EvOpenW p) →
           lookup_path (fs (export_onnx_model a w).2) p
           = Some (File (Text ""))
           ∧ ∃ e, (export_onnx_model a w).1 = Err e
                  ∧ lookup_error e = true.
Proof.
  destruct (export_onnx_model_leaves_open a (fs w) w eq_refl)
    as (Δ & Ht & HΔ).
  exists Δ. split; [done|]. intros p Hp. unfold left_open in HΔ.
  destruct (export_onnx_model a w).1 as [[]|e].
  - by destruct (HΔ p).
  - destruct (HΔ p Hp) as [Hfile He]. split; [done|]. by exists e.
Qed.

End LeftOpen.

Section InOrder.
Context `{TorchTypes} `{!Libs}.

Lemma resolved_none Δ :
  Forall (λ e, resolved e = None) Δ → resolved_configurations Δ = [].
Proof.
  induction 1 as [|e Δ He _ IH]; [done|].
  unfold resolved_configurations in *. simpl. by rewrite He.
Qed.

Lemma resolved_app Δ1 Δ2 :
  resolved_configurations (Δ1 ++ Δ2)
  = resolved_configurations Δ1 ++ resolved_configurations Δ2.
Proof. apply omap_app. Qed.

Lemma produces_for_each_in_order {S} (l : list string)
    (body : string → S → M S) :
  (∀ x s, x ∈ l →
     produces (body x s) (λ _ Δ, resolved_configurations Δ = [x])) →
  ∀ s, produces (for_each l s body)
         (λ r Δ, resolved_configurations Δ `prefix_of` l
                 ∧ (is_ok r = true → resolved_configurations Δ = l)).
Proof.
  induction l as [|x l IH]; intros Hbody s; simpl.
  - by apply produces_ret.
  - eapply produces_bind
      with (Φ1 := λ _ Δ, resolved_configurations Δ = [x]).
    + apply Hbody. left.
    + intros e Δ ->. split; [|done]. by apply prefix_cons, prefix_nil.
    + intros s1 Δ1 H1. eapply produces_conseq.
      * apply IH. intros y s0 Hy. apply Hbody. by right.
      * cbv beta. intros r Δ2 [Hpre Hall]. rewrite resolved_app, H1.
        split; [by apply prefix_cons|]. intros Hok. simpl.
        by rewrite Hall.
Qed.

Lemma export_fold_resolves_nothing a dyn c ds dataset_json fip name config
    fold params net :
  produces
    (export_fold a dyn c ds dataset_json fip name config (fold, params) net)
    (λ _ Δ, Forall (λ e, resolved e = None) Δ).
Proof.
  unfold export_fold.
  repeat walk_step.
  all: by repeat constructor.
Qed.

Lemma export_configuration_resolves a ds c names :
  c ∈ configurations a →
  produces
    (export_configuration a (bool_decide (batch_size a = 0)%Z) ds c names)
    (λ _ Δ, resolved_configurations Δ = [c]).
Proof.
  intros Hc. unfold export_configuration.
  repeat walk_step; try done.
  eapply produces_bind
    with (Φ1 := λ _ Δ, Forall (λ e, resolved e = None) Δ).
  - apply (checkpoints_everywhere a (λ _ e, resolved e = None));
      [done| |done].
    intros. apply export_fold_resolves_nothing.
  - intros e Δ HΔ. apply resolved_none in HΔ.
    unfold resolved_configurations in *. simpl. f_equal. exact HΔ.
  - intros it Δ1 HΔ1. apply produces_ret. apply resolved_none in HΔ1.
    rewrite app_nil_r. unfold resolved_configurations in *. simpl.
    f_equal. exact HΔ1.
Qed.

(** X18. The configurations are processed in the order given, and a run
    ends at the first one that fails: the configurations whose model
    folder is resolved, in the order of the calls, are an initial part of
    [configurations], and all of them when the run returns. *)
Theorem X18_configurations_in_order a w :
  ∃ Δ, trace (export_onnx_model a w).2 = trace w ++ Δ
       ∧ resolved_configurations Δ `prefix_of` configurations a
       ∧ (is_ok (export_onnx_model a w).1 = true →
          resolved_configurations Δ = configurations a).
Proof.
  apply (λ Hp : produces (export_onnx_model a)
                  (λ r Δ, resolved_configurations Δ
                            `prefix_of` configurations a
                          ∧ (is_ok r = true →
                             resolved_configurations Δ = configurations a)),
           Hp w).
  unfold export_onnx_model.
  destruct (bool_decide (batch_size a < 0)%Z).
  { apply produces_raise. split; [apply prefix_nil|done]. }
  repeat walk_step.
  { split; [apply prefix_nil|done]. }
  eapply produces_bind.
  - apply produces_for_each_in_order. intros c names Hc.
    by apply export_configuration_resolves.
  - cbv beta. intros e Δ [Hpre _]. by split.
  - cbv beta. intros it Δ1 [Hpre Hall]. apply produces_ret.
    rewrite app_nil_r. split; [done|]. intros _. by apply Hall.
Qed.

End InOrder.

Section Paired.
Context `{TorchTypes} `{!Libs}.

(** X19. A checkpoint name of four characters or fewer gives the
    default artifact name ".onnx": the slice [checkpoint[:-4]] is
    empty. *)
Theorem X19_short_checkpoint_name cp :
  String.length cp ≤ 4 → derived_name cp = ".onnx".
Proof.
  intros Hlen. unfold derived_name.
  replace (String.length cp - 4) with 0 by lia.
  by rewrite substring_0_0.
Qed.

Lemma produces_for_zip_paired cps it (body : string → string → M unit)
    (T : option exn → list event → Prop) :
  loop_closed T →
  (∀ cp name, (cp, name) ∈ zip cps (all_names it) →
     produces (body cp name) (λ r Δ, T (raised r) Δ)) →
  produces (for_zip cps it body) (λ r Δ, T (raised r) Δ).
Proof.
  intros [Hnil Happ]. revert it.
  induction cps as [|cp cps IH]; intros it Hbody; simpl.
  - by apply produces_ret.
  - destruct (next_name it) as [[name it']|] eqn:Hnext;
      [|by apply produces_ret].
    assert (all_names it = name :: all_names it') as Hall.
    { destruct it as [[|x l]|[|cp' l]]; simpl in *; by simplify_eq. }
    rewrite Hall in Hbody.
    eapply produces_bind with (Φ1 := λ r Δ, T (raised r) Δ).
    + apply Hbody. left.
    + done.
    + intros [] Δ1 H1. eapply produces_conseq.
      * apply IH. intros cp' name' Hin. apply Hbody. by right.
      * cbv beta. intros r Δ2 H2. by apply Happ.
Qed.

Lemma export_fold_paired a names dyn c ds dataset_json fip name cp config
    fold params net :
  (cp, name) ∈ zip (save_checkpoints a) names →
  produces
    (export_fold a dyn c ds dataset_json fip name config (fold, params) net)
    (λ _ Δ, Forall (paired_told a names) Δ).
Proof.
  intros Hin. unfold export_fold.
  repeat walk_step.
  all: repeat (constructor; [try exact I|]); try by constructor.
  all: by eexists _, cp, name.
Qed.

Lemma export_checkpoint_paired a names dyn c ds dir dataset_json fip cp
    name :
  (cp, name) ∈ zip (save_checkpoints a) names →
  produces (export_checkpoint a dyn c ds dir dataset_json fip cp name)
    (λ r Δ, Forall (paired_told a names) Δ).
Proof.
  intros Hin. unfold export_checkpoint.
  repeat walk_step.
  { constructor; [by exists name|constructor]. }
  eapply produces_bind
    with (Φ1 := λ _ Δ, Forall (paired_told a names) Δ).
  - eapply produces_conseq.
    + apply (produces_for_each _ _
               (λ _ Δ, Forall (paired_told a names) Δ) (λ _, True));
        [apply Forall_loop_closed| |done].
      intros [fold params] net _ _.
      eapply produces_conseq; [by eapply export_fold_paired|by intros].
    + by intros r Δ [HΔ _].
  - intros e Δ HΔ. constructor; [by exists name|done].
  - intros net Δ1 HΔ1. apply produces_ret. rewrite app_nil_r.
    constructor; [by exists name|done].
Qed.

Lemma export_configuration_paired a names dyn ds c :
  produces (export_configuration a dyn ds c (NamesTuple names))
    (λ r Δ, Forall (paired_told a names) Δ
            ∧ ∀ names', r = Ok names' → names' = NamesTuple names).
Proof.
  unfold export_configuration.
  repeat walk_step.
  all: try (split; [by repeat constructor|]; intros ? ?; by simplify_eq).
  eapply produces_bind
    with (Φ1 := λ _ Δ, Forall (paired_told a names) Δ).
  - apply (produces_for_zip_paired _ _ _
             (λ _ Δ, Forall (paired_told a names) Δ));
      [apply Forall_loop_closed|].
    intros cp name Hin. by apply export_checkpoint_paired.
  - intros e Δ HΔ. split; [by repeat constructor|done].
  - intros it Δ1 HΔ1. apply produces_ret. rewrite app_nil_r.
    split; [by repeat constructor|]. by intros ? [= <-].
Qed.


End Paired.

Section Refused.
Context `{TorchTypes} `{!Libs}.

Lemma occupied_of_entries n d entries :
  iterdir n d = Ok entries → 0 < length entries → occupied n d.
Proof.
  intros (es & Hd & ->)%iterdir_inv Hlen.
  destruct (map_to_list es) as [|[x v] l] eqn:Hl; [simpl in Hlen; lia|].
  assert (es !! x = Some v) as Hx.
  { apply elem_of_map_to_list. rewrite Hl. left. }
  exists x. unfold exists_, joinpath. by rewrite lookup_path_app, Hd; simpl;
    rewrite Hx.
Qed.

Lemma moves_for_each_refused {A S} (l : list A) (body : A → S → M S)
    (I : node → Prop) (St : S → Prop) x :
  x ∈ l →
  (∀ y s n, y ∈ l → St s → I n →
     moves n (λ r n', I n' ∧ ∀ s', r = Ok s' → St s') (body y s)) →
  (∀ s n, St s → I n → moves n (λ r _, is_ok r = false) (body x s)) →
  ∀ s n, St s → I n →
  moves n (λ r _, is_ok r = false) (for_each l s body).
Proof.
  intros Hx Hkeep Hrefused.
  induction l as [|y l IH]; intros s n Hs Hn; simpl.
  - by apply elem_of_nil in Hx.
  - apply elem_of_cons in Hx as [->|Hx].
    + eapply moves_bind; [by apply Hrefused|..]; cbv beta; [done|].
      by intros s' n' ?.
    + eapply moves_bind; [apply Hkeep; [left|done|done]|..]; cbv beta.
      * done.
      * intros s' n' [Hn' Hs']. apply IH; [done| |by apply Hs'|done].
        intros z s0 n0 Hz. apply Hkeep. by right.
Qed.

Section WithParameters.
Variable a : args.
Hypothesis parameters_for_folds : ∀ n dir cp pr,
  initialize_from_trained_model_folder n dir (folds a) cp = Returns pr →
  length (folds a) ≤ length (list_of_parameters pr).

(** A checkpoint does not return when the directory of one of its folds
    has an entry. *)
Lemma export_checkpoint_refused_at dyn c ds dir dataset_json fip cp name
    f n :
  c ∈ configurations a → f ∈ folds a →
  occupied n (fold_dir (output_dir a) c f) →
  moves n (λ r _, is_ok r = false)
    (export_checkpoint a dyn c ds dir dataset_json fip cp name).
Proof using All.
  intros Hc Hf [x Hx]. unfold export_checkpoint.
  repeat moves_step; try done.
  rename a0 into pr.
  pose proof (parameters_for_folds _ _ _ _ Hok) as Hlen.
  destruct (zip_covers (folds a) (list_of_parameters pr) f Hf Hlen)
    as [params Hin].
  eapply moves_bind with (R1 := λ r _, is_ok r = false); cbv beta.
  - apply (moves_for_each_refused _ _
             (λ n', exists_ n' (joinpath (fold_dir (output_dir a) c f) x)
                    = true)
             (λ _, True) (f, params) Hin); [| |done|done].
    + intros [f' params'] net n1 Hin' _ Hn1.
      eapply moves_conseq.
      * apply (exists_kept a); [done| |exact Hn1].
        by eapply elem_of_zip_l.
      * by intros.
    + intros net n1 _ Hn1. apply export_fold_refused. by exists x.
  - done.
  - by intros net n1 ?.
Qed.

(** A configuration that has a checkpoint to export does not return
    when the directory of one of its folds has an entry. *)
Lemma export_configuration_refused_at dyn ds c names name it f n :
  c ∈ configurations a → f ∈ folds a →
  save_checkpoints a ≠ [] → next_name names = Some (name, it) →
  occupied n (fold_dir (output_dir a) c f) →
  moves n (λ r _, is_ok r = false)
    (export_configuration a dyn ds c names).
Proof using All.
  intros Hc Hf Hcps Hnext Hocc. unfold export_configuration.
  repeat moves_step; try done.
  - exfalso.
    match goal with
    | Hok : load_json_from n (joinpath ?dir "dataset.json") = Ok _,
      Hdir : negb (isdir n ?dir) = true |- _ =>
        apply negb_true_iff in Hdir;
        pose proof (load_json_from_missing n dir "dataset.json" Hdir) as Hm;
        by rewrite Hok in Hm
    end.
  - destruct (save_checkpoints a) as [|cp cps]; [done|].
    simpl. rewrite Hnext. apply moves_assoc.
    eapply moves_bind;
      [by eapply export_checkpoint_refused_at|..]; cbv beta; [done|].
    by intros [] n1 ?.
Qed.

(** The loop over the configurations does not return when the directory
    of a requested pair has an entry and the pair is reached: the names
    are given, or the pair is of the first configuration. *)
Lemma configurations_refused dyn ds c f n :
  c ∈ configurations a → f ∈ folds a → save_checkpoints a ≠ [] →
  not_output_names (output_names a) = false
  ∨ head (configurations a) = Some c →
  occupied n (fold_dir (output_dir a) c f) →
  moves n (λ r _, is_ok r = false)
    (for_each (configurations a)
       (if not_output_names (output_names a)
        then NamesGenerator (save_checkpoints a)
        else NamesTuple (default [] (output_names a)))
       (export_configuration a dyn ds)).
Proof using All.
  intros Hc Hf Hcps Hreach [x Hx].
  destruct (not_output_names (output_names a)) eqn:Hnone.
  - destruct Hreach as [|Hhead]; [done|].
    destruct (configurations a) as [|c' cs] eqn:Hcs; [done|].
    injection Hhead as ->. simpl.
    destruct (save_checkpoints a) as [|cp cps] eqn:Hcps'; [done|].
    eapply moves_bind; cbv beta.
    + rewrite <- Hcps'.
      eapply (export_configuration_refused_at dyn ds c _
                (derived_name cp) (NamesGenerator cps) f).
      * rewrite Hcs. left.
      * done.
      * by rewrite Hcps'.
      * by rewrite Hcps'.
      * by exists x.
    + done.
    + by intros names n1 ?.
  - destruct (output_names a) as [[|name names]|]; try done. simpl.
    apply (moves_for_each_refused _ _
             (λ n', exists_ n' (joinpath (fold_dir (output_dir a) c f) x)
                    = true)
             (λ it, it = NamesTuple (name :: names)) c Hc);
      [| |done|done].
    + intros c' it n1 Hc' -> Hn1. apply moves_and.
      * apply export_configuration_keeps; [apply exists_kept|done|done].
      * apply moves_of_runs, runs_of_produces.
        eapply produces_conseq; [apply export_configuration_paired|].
        by intros r Δ [_ ?].
    + intros it n1 -> Hn1.
      eapply (export_configuration_refused_at dyn ds c _ name
                (NamesTuple names) f); [done..|by exists x].
Qed.

End WithParameters.

Lemma export_onnx_model_refused a c f w :
  c ∈ configurations a → f ∈ folds a → save_checkpoints a ≠ [] →
  not_output_names (output_names a) = false
  ∨ head (configurations a) = Some c →
  (∀ n dir cp pr,
     initialize_from_trained_model_folder n dir (folds a) cp = Returns pr →
     length (folds a) ≤ length (list_of_parameters pr)) →
  occupied (fs w) (fold_dir (output_dir a) c f) →
  is_ok (export_onnx_model a w).1 = false.
Proof.
  intros Hc Hf Hcps Hreach Hparams Hocc.
  apply (λ Hm : moves (fs w) (λ r _, is_ok r = false) (export_onnx_model a),
           Hm w eq_refl).
  unfold export_onnx_model.
  destruct (bool_decide (batch_size a < 0)%Z); [by apply moves_raise|].
  repeat moves_step; try done.
  eapply moves_bind; [by eapply configurations_refused|..]; cbv beta.
  - done.
  - by intros names n1 ?.
Qed.

(** C3. Take a configuration/fold pair whose output directory exists and
    has at least one entry, in a run whose names are plain.
    - When its turn comes, the fold ends at once with an error: the file
      system is left as it was, and the only calls made are those that
      load the parameters into the network (no directory is created,
      nothing is exported, no metadata file is opened or written); unless
      loading the parameters itself raised, the error is the RuntimeError
      "Output directory ... is not empty".
    - Whatever a whole run does, it leaves that directory with the
      contents it had.
    - The run ends with an error whenever the pair is reached: it is a
      requested pair, there is a checkpoint to export, the output names
      are given or the pair is of the first configuration, and the
      predictor holds parameters for every requested fold. *)
Theorem C3_nonempty_output_directory
    (a : args) (c : string) (fold : int_or_str) (w : world)
    (entries : list string)
    (Hplain : plain_args a = true)
    (Hexists : exists_ (fs w) (fold_dir (output_dir a) c fold) = true)
    (Hentries : iterdir (fs w) (fold_dir (output_dir a) c fold) = Ok entries)
    (Hlen : 0 < length entries) :
  (∀ dyn ds dataset_json fip name config params net,
     let run := export_fold a dyn c ds dataset_json fip name config
                  (fold, params) net w in
     is_ok run.1 = false
     ∧ fs run.2 = fs w
     ∧ (trace run.2 = trace w ++ [EvLoadStateDict params]
        ∨ trace run.2 = trace w ++ [EvLoadStateDict params; EvEval])
     ∧ (∀ net', load_state_dict net params = Returns net' →
          run.1 = Err (RuntimeError
                         ("Output directory "
                          +:+ path_str (fold_dir (output_dir a) c fold)
                          +:+ " is not empty"))))
  ∧ lookup_path (fs (export_onnx_model a w).2) (fold_dir (output_dir a) c fold)
    = lookup_path (fs w) (fold_dir (output_dir a) c fold)
  ∧ (c ∈ configurations a → fold ∈ folds a → save_checkpoints a ≠ [] →
     not_output_names (output_names a) = false
     ∨ head (configurations a) = Some c →
     (∀ n dir cp pr,
        initialize_from_trained_model_folder n dir (folds a) cp
        = Returns pr →
        length (folds a) ≤ length (list_of_parameters pr)) →
     is_ok (export_onnx_model a w).1 = false).
Proof.
  split_and!.
  - intros dyn ds dataset_json fip name config params net.
    by apply export_fold_occupied with (entries := entries).
  - destruct (iterdir_inv _ _ _ Hentries) as (es & Hes & ->).
    assert (es ≠ ∅) as Hne.
    { intros ->. rewrite map_to_list_empty in Hlen. simpl in Hlen. lia. }
    rewrite Hes.
    exact (export_onnx_model_keeps a _ (fs w) (occupied_kept a c fold es Hne)
             Hes w eq_refl).
  - intros Hc Hf Hcps Hreach Hparams.
    apply (export_onnx_model_refused a c fold w); try done.
    by eapply occupied_of_entries.
Qed.

End Refused.


Section Opened.
Context `{TorchTypes} `{!Libs}.









End Opened.

(* ================================================================== *)
(** ** The scenario *)

Section Scenario.
Import Demo.

(** C1 (the code departs from it). With [strict=False] and the trained
    model of "2d" missing, the run does not skip "2d": it ends with the
    FileNotFoundError of reading the dataset.json of "2d", before
    anything is exported for "3d_fullres", which is trained. *)
Theorem C1_missing_model_is_not_skipped :
  let run := @export_onnx_model _ (demo_libs true)
               (demo_args ["2d"; "3d_fullres"] 0 [PyInt 0] false None)
               (start results_tree_no_2d) in
  run.1 = Err (FileNotFoundError
                 ["results"; "Dataset001_Demo";
                  "nnUNetTrainer__nnUNetPlans__2d"; "dataset.json"])
  ∧ trace run.2 =
      [EvDatasetName (PyInt 1); EvPrint "Configuration 2d";
       EvOutputFolder "Dataset001_Demo" "nnUNetTrainer" "nnUNetPlans" "2d";
       EvLoadJson ["results"; "Dataset001_Demo";
                   "nnUNetTrainer__nnUNetPlans__2d"; "dataset.json"]]
  ∧ fs run.2 = results_tree_no_2d.
Proof. vm_compute. done. Qed.

(** C2 (the code departs from it). With two trained configurations, one
    fold and no output names, the run succeeds, and the first
    configuration has its artifact and its metadata; but nothing at all
    is exported for the second one: the generator of the default names
    is exhausted after the first configuration. *)
Theorem C2_second_configuration_not_exported :
  let run := @export_onnx_model _ (demo_libs true)
               (demo_args ["2d"; "3d_fullres"] 0 [PyInt 0] true None)
               (start results_tree) in
  run.1 = Ok ()
  ∧ (∃ b j, lookup_path (fs run.2)
              ["out"; "2d"; "fold_0"; "checkpoint_final.onnx"]
            = Some (File (OnnxFile b))
            ∧ lookup_path (fs run.2) ["out"; "2d"; "fold_0"; "config.json"]
              = Some (File (JsonDoc j)))
  ∧ exists_ (fs run.2) ["out"; "3d_fullres"] = false
  ∧ (∀ p x dyn, EvExport p x dyn ∈ trace run.2 →
       p = ["out"; "2d"; "fold_0"; "checkpoint_final.onnx"]).
Proof.
  vm_compute. split_and!; [done|by eexists _, _|done|].
  intros p x dyn Hin.
  repeat (apply elem_of_cons in Hin as [Hin|Hin]; [by simplify_eq|]).
  by apply elem_of_nil in Hin.
Qed.

(** C9, as it is stated, fails: with [batch_size = 0] and a dataset.json
    that is not a JSON document, the run ends with the JSONDecodeError of
    [load_json], which is a [ValueError]. *)
Lemma C9_value_error_with_valid_batch_size :
  let a := demo_args ["2d"] 0 [PyInt 0] true None in
  let run := @export_onnx_model _ (demo_libs true) a (start malformed_tree) in
  ¬ ((∃ e, run.1 = Err e ∧ is_value_error e = true)
     ↔ (batch_size a < 0)%Z).
Proof.
  intros a run [Hraised _].
  assert (batch_size a < 0)%Z as Hneg; [|by vm_compute in Hneg].
  apply Hraised. eexists. split; [by vm_compute|done].
Qed.

(** The same with a library that raises: a dataset name that
    [maybe_convert_to_dataset_name] rejects with a [ValueError]. *)
Lemma value_error_from_dataset_name :
  let L := demo_libs true in
  let L' : Libs := {|
    maybe_convert_to_dataset_name := λ _ _,
      Raises (ValueError "dataset_name_or_id was a string");
    get_output_folder := @get_output_folder _ L;
    nnUNetPredictor := @nnUNetPredictor _ L;
    initialize_from_trained_model_folder :=
      @initialize_from_trained_model_folder _ L;
    load_state_dict := @load_state_dict _ L;
    network_eval := @network_eval _ L;
    torch_rand := @torch_rand _ L;
    forward := @forward _ L;
    torch_onnx_export := @torch_onnx_export _ L;
    onnx_load := @onnx_load _ L;
    check_model := @check_model _ L;
    new_session := @new_session _ L;
    first_input_name := @first_input_name _ L;
    session_run := @session_run _ L;
    assert_allclose := @assert_allclose _ L;
  |} in
  let a := demo_args ["2d"] 0 [PyInt 0] true None in
  let run := @export_onnx_model _ L' a (start results_tree) in
  run.1 = Err (LibraryError "maybe_convert_to_dataset_name"
                 (ValueError "dataset_name_or_id was a string"))
  ∧ (∀ e, run.1 = Err e → is_value_error e = true).
Proof.
  intros L L' a run. vm_compute. split; [done|]. by intros e [= <-].
Qed.


End Scenario.

Section MoreScenarios.
Import Demo.

(** The hypotheses of X2 hold of the channel of the scenario. *)
Lemma X2_channels_entries_witness :
  let fip := [("0", JObj [("mean", JFloat "101.5")])] in
  let names := [("0", JStr "CT")] in
  NoDup names.*1
  ∧ Forall (λ kv, is_Some (dict_get kv.1 fip)) names
  ∧ channels_dict (JObj fip) names [] = Ok (channel_entry fip <$> names).
Proof.
  intros fip names.
  assert (NoDup names.*1) as Hnd by apply NoDup_singleton.
  assert (Forall (λ kv, is_Some (dict_get kv.1 fip)) names) as Hall
    by (repeat constructor; by eexists).
  split_and!; [exact Hnd|exact Hall|].
  exact (X2_channels_entries fip names Hnd Hall).
Defined.

(** The hypotheses of X3 hold when plans.json has no foreground
    properties at all. *)
Lemma X3_channel_without_properties_witness :
  subscript dataset_json "channel_names" = Ok (JObj ([] ++ [("0", JStr "CT")]))
  ∧ Forall (λ kv : string * json, is_Some (dict_get kv.1 [])) []
  ∧ dict_get "0" [] = None
  ∧ config_dict "2d" (PyInt 0) 0 true demo_config "Dataset001_Demo"
      dataset_json (JObj [])
    = Err (KeyError "0").
Proof.
  assert (subscript dataset_json "channel_names"
          = Ok (JObj ([] ++ [("0", JStr "CT")]))) as Hnames
    by reflexivity.
  assert (Forall (λ kv : string * json, is_Some (dict_get kv.1 [])) [])
    as Hall by constructor.
  assert (dict_get "0" [] = None) as Hk by reflexivity.
  split_and!; [exact Hnames|exact Hall|exact Hk|].
  exact (X3_channel_without_properties "2d" (PyInt 0) 0%Z true demo_config
           "Dataset001_Demo" dataset_json [] [] "0" (JStr "CT") []
           Hnames Hall Hk).
Defined.

(** The hypothesis of X4 holds of the labels of the scenario. *)
Lemma X4_class_names_inverse_witness :
  let zs := [("background", 0%Z); ("tumor", 1%Z)] in
  NoDup zs.*2
  ∧ class_names_dict ((λ kz, (kz.1, JInt kz.2)) <$> zs) []
    = Ok (class_entry <$> zs).
Proof.
  intros zs.
  assert (NoDup zs.*2) as Hnd.
  { simpl. apply NoDup_cons. split; [|apply NoDup_singleton].
    intros Hin. apply list_elem_of_singleton in Hin. discriminate Hin. }
  split; [exact Hnd|]. exact (X4_class_names_inverse zs Hnd).
Defined.

(** The hypothesis of X5 holds of two labels with the value 1, followed
    by a label with another value. *)
Lemma X5_class_names_last_label_wins_witness :
  let zs1 := [("edema", 1%Z)] in
  let zs2 := [("necrosis", 2%Z)] in
  (1%Z ∉ zs2.*2)
  ∧ ∃ cn,
      class_names_dict
        ((λ kz, (kz.1, JInt kz.2)) <$> (zs1 ++ ("tumor", 1%Z) :: zs2)) []
      = Ok cn
      ∧ dict_get (pretty 1%Z) cn = Some (JStr "tumor")
      ∧ length cn ≤ length (zs1 ++ ("tumor", 1%Z) :: zs2).
Proof.
  intros zs1 zs2.
  assert (1%Z ∉ zs2.*2) as Hz.
  { simpl. intros Hin. apply list_elem_of_singleton in Hin.
    discriminate Hin. }
  split; [exact Hz|].
  exact (X5_class_names_last_label_wins zs1 zs2 "tumor" 1%Z Hz).
Defined.

(** The hypothesis of X7 holds of the scenario, whose conversion
    returns. *)
Lemma X7_dataset_name_converted_once_witness :
  let a := demo_args ["2d"; "3d_fullres"] 0 [PyInt 0] true None in
  let w := start results_tree in
  (0 ≤ batch_size a)%Z
  ∧ ∃ Δ, trace (@export_onnx_model _ (demo_libs true) a w).2
         = trace w ++ EvDatasetName (dataset_name_or_id a) :: Δ
         ∧ Forall (dataset_told a "Dataset001_Demo") Δ.
Proof.
  intros a w.
  assert (0 ≤ batch_size a)%Z as Hbatch by (simpl; lia).
  split; [exact Hbatch|].
  exact (@X7_dataset_name_converted_once _ (demo_libs true) a w Hbatch).
Defined.

(** The hypothesis of X9 holds of the scenario, and the file in the
    occupied output directory is kept. *)
Lemma X9_nothing_overwritten_or_removed_witness :
  let a := demo_args ["2d"; "3d_fullres"] 0 [PyInt 0] true None in
  let w := start occupied_tree in
  let p := ["out"; "2d"; "fold_0"; "checkpoint_best.onnx"] in
  plain_args a = true
  ∧ lookup_path (fs w) p = Some (File (Text ""))
  ∧ lookup_path (fs (@export_onnx_model _ (demo_libs true) a w).2) p
    = Some (File (Text "")).
Proof.
  intros a w p.
  assert (plain_args a = true) as Hplain by (vm_compute; reflexivity).
  assert (lookup_path (fs w) p = Some (File (Text ""))) as Hp
    by (vm_compute; reflexivity).
  split_and!; [exact Hplain|exact Hp|].
  exact (proj1 (@X9_nothing_overwritten_or_removed _ (demo_libs true)
                  a w p Hplain) (Text "") Hp).
Defined.

(** The hypotheses of X10 hold of the scenario with one output name. *)
Lemma X10_given_names_export_every_pair_witness :
  let a := demo_args ["2d"; "3d_fullres"] 0 [PyInt 0] true
             (Some ["model.onnx"]) in
  let w := start results_tree in
  let run := @export_onnx_model _ (demo_libs true) a w in
  plain_args a = true
  ∧ ("config.json" ∉ ["model.onnx"])
  ∧ is_ok run.1 = true
  ∧ ∃ j name b,
      name ∈ ["model.onnx"]
      ∧ lookup_path (fs run.2)
          (joinpath (fold_dir (output_dir a) "3d_fullres" (PyInt 0))
             "config.json")
        = Some (File (JsonDoc j))
      ∧ member "configuration" j = JStr "3d_fullres"
      ∧ member "fold" j = json_of_int_or_str (PyInt 0)
      ∧ lookup_path (fs run.2)
          (joinpath (fold_dir (output_dir a) "3d_fullres" (PyInt 0)) name)
        = Some (File (OnnxFile b)).
Proof.
  intros a w run.
  assert (plain_args a = true) as Hplain by (vm_compute; reflexivity).
  assert ("config.json" ∉ ["model.onnx"]) as Hcfg.
  { intros Hin. apply list_elem_of_singleton in Hin. discriminate Hin. }
  assert (is_ok run.1 = true) as Hok by (vm_compute; reflexivity).
  split_and!; [exact Hplain|exact Hcfg|exact Hok|].
  apply (@X10_given_names_export_every_pair _ (demo_libs true) a w
           ["model.onnx"] Hplain).
  - reflexivity.
  - discriminate.
  - exact Hcfg.
  - discriminate.
  - intros n dir cp pr Hpr. simpl in Hpr. injection Hpr as <-. simpl. lia.
  - exact Hok.
  - simpl. right. left.
  - simpl. left.
Defined.

(** The hypotheses of X11 hold of the scenario without output names. *)
Lemma X11_default_names_first_configuration_only_witness :
  let a := demo_args ["2d"; "3d_fullres"] 0 [PyInt 0] true None in
  let w := start results_tree in
  let run := @export_onnx_model _ (demo_libs true) a w in
  plain_args a = true
  ∧ not_output_names (output_names a) = true
  ∧ configurations a = "2d" :: ["3d_fullres"]
  ∧ (∃ Δ, trace run.2 = trace w ++ Δ
          ∧ Forall (within_configuration (output_dir a) "2d") Δ)
  ∧ ∀ c', c' ≠ "2d" →
      lookup_path (fs run.2) (joinpath (output_dir a) c')
      = lookup_path (fs w) (joinpath (output_dir a) c').
Proof.
  intros a w run.
  assert (plain_args a = true) as Hplain by (vm_compute; reflexivity).
  split; [exact Hplain|]. split; [reflexivity|]. split; [reflexivity|].
  exact (@X11_default_names_first_configuration_only _ (demo_libs true)
           a w "2d" ["3d_fullres"] Hplain eq_refl eq_refl).
Defined.

(** The hypothesis of X12 holds of the scenario. *)
Lemma X12_no_directory_exported_twice_witness :
  let a := demo_args ["2d"; "3d_fullres"] 0 [PyInt 0; PyInt 1] true
             (Some ["model.onnx"]) in
  let w := start results_tree in
  plain_args a = true
  ∧ ∃ Δ, trace (@export_onnx_model _ (demo_libs true) a w).2 = trace w ++ Δ
         ∧ NoDup (export_dirs Δ).
Proof.
  intros a w.
  assert (plain_args a = true) as Hplain by (vm_compute; reflexivity).
  split; [exact Hplain|].
  exact (@X12_no_directory_exported_twice _ (demo_libs true) a w Hplain).
Defined.

(** The hypotheses of X13 hold of the scenario with two checkpoints. *)
Lemma X13_second_checkpoint_refused_witness :
  let a := {|
    dataset_name_or_id := PyInt 1;
    output_dir := ["out"];
    configurations := ["2d"];
    batch_size := 0;
    trainer := "nnUNetTrainer";
    plans_identifier := "nnUNetPlans";
    folds := [PyInt 0];
    strict := true;
    save_checkpoints := ["checkpoint_final.pth"; "checkpoint_best.pth"];
    output_names := None;
    verbose := false;
  |} in
  let w := start results_tree in
  (∀ names, output_names a = Some names → names = [] ∨ 2 ≤ length names)
  ∧ is_ok (@export_onnx_model _ (demo_libs true) a w).1 = false.
Proof.
  intros a w.
  assert (∀ names, output_names a = Some names →
                   names = [] ∨ 2 ≤ length names) as Hnames
    by (intros names Hn; discriminate Hn).
  split; [exact Hnames|].
  apply (@X13_second_checkpoint_refused _ (demo_libs true) a w
           "checkpoint_final.pth" "checkpoint_best.pth" [] "2d" []
           (PyInt 0) []); [reflexivity|reflexivity|reflexivity|exact Hnames|].
  intros n dir cp pr Hpr. simpl in Hpr. injection Hpr as <-. simpl. lia.
Defined.

End MoreScenarios.

Section FurtherScenarios.
Import Demo MoreDemo.

(** The hypotheses of X14 hold when "out" is a regular file. *)
Lemma X14_output_directory_is_a_file_witness :
  let a := demo_args ["2d"] 0 [PyInt 0] true None in
  let w := start blocked_tree in
  plain_args a = true
  ∧ lookup_path (fs w) ["out"] = Some (File (Text ""))
  ∧ ["out"] `prefix_of` output_dir a
  ∧ fs (@export_onnx_model _ (demo_libs true) a w).2 = fs w.
Proof.
  intros a w.
  assert (plain_args a = true) as Hplain by (vm_compute; reflexivity).
  assert (lookup_path (fs w) ["out"] = Some (File (Text ""))) as Hq
    by (vm_compute; reflexivity).
  assert (["out"] `prefix_of` output_dir a) as Hpre by (by exists []).
  split_and!; [exact Hplain|exact Hq|exact Hpre|].
  exact (@X14_output_directory_is_a_file _ (demo_libs true) a w ["out"]
           (Text "") Hplain Hq Hpre).
Defined.

(** The hypotheses of X15 hold of the fold ("2d", 0) when "out" is a
    regular file. *)
Lemma X15_fold_directory_is_a_file_witness :
  let a := demo_args ["2d"] 0 [PyInt 0] true None in
  let w := start blocked_tree in
  let run := @export_fold _ (demo_libs true) a true "2d" "Dataset001_Demo"
               dataset_json (JObj []) "model.onnx" demo_config
               (PyInt 0, 7%Z) 0%Z w in
  lookup_path (fs w) ["out"] = Some (File (Text ""))
  ∧ ["out"] `prefix_of` fold_dir (output_dir a) "2d" (PyInt 0)
  ∧ fs run.2 = fs w
  ∧ is_ok run.1 = false.
Proof.
  intros a w run.
  assert (lookup_path (fs w) ["out"] = Some (File (Text ""))) as Hq
    by (vm_compute; reflexivity).
  assert (["out"] `prefix_of` fold_dir (output_dir a) "2d" (PyInt 0))
    as Hpre by (by eexists [_; _]).
  split_and!; [exact Hq|exact Hpre|..];
    apply (@X15_fold_directory_is_a_file _ (demo_libs true) a true "2d"
             "Dataset001_Demo" dataset_json (JObj []) "model.onnx"
             demo_config (PyInt 0) 7%Z 0%Z w ["out"] (Text "") Hq Hpre).
Defined.

(** The hypotheses of X16 hold when plans.json is an empty object. *)
Lemma X16_plans_without_foreground_properties_witness :
  let a := demo_args ["2d"] 0 [PyInt 0] true None in
  let w := start bare_plans_tree in
  let run := @export_onnx_model _ (demo_libs true) a w in
  (0 ≤ batch_size a)%Z
  ∧ run.1 = Err (KeyError "foreground_intensity_properties_per_channel")
  ∧ fs run.2 = fs w.
Proof.
  intros a w run.
  assert (0 ≤ batch_size a)%Z as Hbatch by (simpl; lia).
  split; [exact Hbatch|].
  destruct (@X16_plans_without_foreground_properties _ (demo_libs true)
              a w "Dataset001_Demo" "2d" []
              (results_folder "Dataset001_Demo" "nnUNetTrainer"
                 "nnUNetPlans" "2d")
              dataset_json [] Hbatch eq_refl eq_refl eq_refl eq_refl
              eq_refl eq_refl) as (Hr & Hfs & _).
  split; [exact Hr|exact Hfs].
Defined.

(** The hypothesis of X19 holds of a four-character name. *)
Lemma X19_short_checkpoint_name_witness :
  String.length "a.pt" ≤ 4 ∧ derived_name "a.pt" = ".onnx".
Proof.
  assert (String.length "a.pt" ≤ 4) as Hlen by (simpl; lia).
  split; [exact Hlen|]. exact (X19_short_checkpoint_name "a.pt" Hlen).
Defined.


(** A run on a model trained on regions: the artifact is exported and
    validated, config.json is opened, and the construction of the
    metadata raises the TypeError of the list used as a key; the file is
    left empty beside the artifact. *)
Example region_labels_leave_empty_metadata :
  let a := demo_args ["2d"] 0 [PyInt 0] true None in
  let run := @export_onnx_model _ (demo_libs true) a (start region_tree) in
  run.1 = Err (TypeError "unhashable type: 'list'")
  ∧ last (trace run.2) = Some (EvOpenW ["out"; "2d"; "fold_0"; "config.json"])
  ∧ lookup_path (fs run.2) ["out"; "2d"; "fold_0"; "config.json"]
    = Some (File (Text ""))
  ∧ lookup_path (fs run.2) ["out"; "2d"; "fold_0"; "checkpoint_final.onnx"]
    = Some (File (OnnxFile 7%Z)).
Proof. vm_compute. done. Qed.

(** The hypotheses of C3 hold of the directory of ("2d", fold 0) in the
    occupied output tree, and the pair is reached: the fold and the run
    end with the RuntimeError of that directory, which keeps its
    contents. *)
Lemma C3_nonempty_output_directory_witness :
  let a := demo_args ["2d"; "3d_fullres"] 0 [PyInt 0] true None in
  let w := start occupied_tree in
  let d := fold_dir (output_dir a) "2d" (PyInt 0) in
  let run := @export_onnx_model _ (demo_libs true) a w in
  let fold_run := @export_fold _ (demo_libs true) a true "2d"
                    "Dataset001_Demo" dataset_json (JObj [])
                    "checkpoint_final.onnx" demo_config (PyInt 0, 7%Z)
                    0%Z w in
  plain_args a = true
  ∧ exists_ (fs w) d = true
  ∧ iterdir (fs w) d = Ok ["checkpoint_best.onnx"]
  ∧ 0 < length ["checkpoint_best.onnx"]
  ∧ (is_ok fold_run.1 = false ∧ fs fold_run.2 = fs w)
  ∧ lookup_path (fs run.2) d = lookup_path (fs w) d
  ∧ is_ok run.1 = false
  ∧ run.1 = Err (RuntimeError "Output directory out/2d/fold_0 is not empty").
Proof.
  intros a w d run fold_run.
  assert (plain_args a = true) as Hplain by (vm_compute; reflexivity).
  assert (exists_ (fs w) d = true) as Hexists by (vm_compute; reflexivity).
  assert (iterdir (fs w) d = Ok ["checkpoint_best.onnx"]) as Hentries
    by (vm_compute; reflexivity).
  assert (0 < length ["checkpoint_best.onnx"]) as Hlen by (simpl; lia).
  destruct (@C3_nonempty_output_directory _ (demo_libs true) a "2d"
              (PyInt 0) w ["checkpoint_best.onnx"]
              Hplain Hexists Hentries Hlen) as (Hfold & Hkept & Hrun).
  assert (is_ok fold_run.1 = false ∧ fs fold_run.2 = fs w) as Hfold_run.
  { destruct (Hfold true "Dataset001_Demo" dataset_json (JObj [])
                "checkpoint_final.onnx" demo_config 7%Z 0%Z)
      as (Hno & Hfs & _).
    split; [exact Hno|exact Hfs]. }
  assert (is_ok run.1 = false) as Hrefused.
  { apply Hrun.
    - simpl. left.
    - simpl. left.
    - discriminate.
    - right. reflexivity.
    - intros n dir cp pr Hpr. simpl in Hpr. injection Hpr as <-.
      simpl. lia. }
  split; [exact Hplain|]. split; [exact Hexists|].
  split; [exact Hentries|]. split; [exact Hlen|].
  split; [exact Hfold_run|]. split; [exact Hkept|].
  split; [exact Hrefused|]. vm_compute. reflexivity.
Defined.

(** The hypothesis of C4 holds of the scenario with one output name:
    the files of each dump are in place, and the results tree is as it
    was. *)
Lemma C4_output_directory_scheme_witness :
  let a := demo_args ["2d"; "3d_fullres"] 0 [PyInt 0] true
             (Some ["model.onnx"]) in
  let w := start results_tree in
  let run := @export_onnx_model _ (demo_libs true) a w in
  plain_args a = true
  ∧ (∃ Δ, trace run.2 = trace w ++ Δ
          ∧ ∀ p j, EvJsonDump p j ∈ Δ →
              ∃ c f name x dyn,
                p = output_dir a
                    ++ [c; "fold_" +:+ py_str f; "config.json"]
                ∧ lookup_path (fs run.2) p = Some (File (JsonDoc j))
                ∧ EvExport
                    (output_dir a ++ [c; "fold_" +:+ py_str f; name])
                    x dyn ∈ Δ
                ∧ (name ≠ "config.json" →
                   ∃ b, lookup_path (fs run.2)
                          (output_dir a
                           ++ [c; "fold_" +:+ py_str f; name])
                        = Some (File (OnnxFile b))))
  ∧ lookup_path (fs run.2) ["results"] = lookup_path (fs w) ["results"].
Proof.
  intros a w run.
  assert (plain_args a = true) as Hplain by (vm_compute; reflexivity).
  destruct (@C4_output_directory_scheme _ (demo_libs true) a w Hplain)
    as [(Δ & Ht & _ & Hd) Hframe].
  split; [exact Hplain|]. split.
  - exists Δ. split; [exact Ht|exact Hd].
  - apply (Hframe ["results"]). intros c f x _ _ [k Hk]. discriminate Hk.
Defined.



End FurtherScenarios.
